(** * Streaming silence detector (audio/silence.go)

    A shallow embedding of [SilenceDetector] and a verification of its
    buffer bookkeeping: the rolling sample buffer, the derived audio
    levels, the pruning of leading silences and the detection of
    silences in the middle.

    Conventions of the embedding.
    - Go's [int] and [time.Duration] are 64-bit: values are in [Z] and every
      product, sum or difference that can leave the 64-bit range is wrapped
      by [Go.wrap64].
    - [float64] is Rocq's primitive binary64 [float]; [<] on levels is
      [PrimFloat.ltb].
    - A slice is the list of its elements.  Capacity is not modelled: a
      slice expression whose upper bound exceeds the length stops the model
      with [BeyondLen] (Go either panics or exposes the backing array).
    - A call returns an [outcome]: [Returned v], or [Stopped f] where [f]
      says why the model does not follow the call to a [return].
    - [AudioLevel] lives in another file of the package; it is a parameter
      of the development. *)

From Stdlib Require Import ZArith List Lia Bool.
From Stdlib Require Import PrimFloat SpecFloat FloatOps FloatAxioms.
Import ListNotations.

Open Scope Z_scope.

(** ** The Go runtime, as far as [Add] uses it *)

Module Go.

Definition maxInt : Z := 2 ^ 63 - 1.
Definition minInt : Z := - 2 ^ 63.

(** Two's complement wrap-around of 64-bit arithmetic. *)
Definition wrap64 (z : Z) : Z := (z + 2 ^ 63) mod 2 ^ 64 - 2 ^ 63.

Definition mul (a b : Z) : Z := wrap64 (a * b).
Definition add (a b : Z) : Z := wrap64 (a + b).
Definition sub (a b : Z) : Z := wrap64 (a - b).

Inductive fault : Set :=
| SliceBounds   (* panic: slice bounds out of range *)
| IndexRange    (* panic: index out of range *)
| MakeLen       (* panic: makeslice: len out of range *)
| AppendLen     (* panic: growslice: len out of range *)
| BeyondLen     (* upper slice bound in (len, ...]: panic, or spare capacity *)
| ImplDefined   (* float64 -> int conversion of NaN, an infinity or a value out of range *)
| Fuel.         (* the loop bound of the model was too small *)

Inductive outcome (A : Type) : Type :=
| Returned (a : A)
| Stopped (f : fault).
Arguments Returned {A} a.
Arguments Stopped {A} f.

Definition bind {A B : Type} (m : outcome A) (k : A -> outcome B) : outcome B :=
  match m with
  | Returned a => k a
  | Stopped f => Stopped f
  end.

Definition len {A : Type} (s : list A) : Z := Z.of_nat (length s).

(** [append(s, t...)]: the length of a slice is an [int]. *)
Definition append {A : Type} (s t : list A) : outcome (list A) :=
  if len (s ++ t) <=? maxInt then Returned (s ++ t) else Stopped AppendLen.

(** [s[lo:]]: the upper bound defaults to [len(s)]. *)
Definition sliceFrom {A : Type} (s : list A) (lo : Z) : outcome (list A) :=
  if (0 <=? lo) && (lo <=? len s)
  then Returned (skipn (Z.to_nat lo) s)
  else Stopped SliceBounds.

(** [s[lo:hi]] *)
Definition slice {A : Type} (s : list A) (lo hi : Z) : outcome (list A) :=
  if (0 <=? lo) && (lo <=? hi) then
    if hi <=? len s
    then Returned (firstn (Z.to_nat (hi - lo)) (skipn (Z.to_nat lo) s))
    else Stopped BeyondLen
  else Stopped SliceBounds.

(** [t := make([]T, n); copy(t, s[:n])] *)
Definition makeCopy {A : Type} (s : list A) (n : Z) : outcome (list A) :=
  if n <? 0 then Stopped MakeLen else slice s 0 n.

(** [float64(z)]: round to nearest, ties to even. *)
Definition float64 (z : Z) : float :=
  SF2Prim (binary_normalize prec emax z 0 false).

(** [int(math.Floor(f))]; the conversion is implementation-defined when
    the value is not an [int]. *)
Definition intFloor (f : float) : outcome Z :=
  match Prim2SF f with
  | S754_zero _ => Returned 0
  | S754_finite s m e =>
      let v := if s then Z.neg m else Z.pos m in
      let n := if 0 <=? e then v * 2 ^ e else v / 2 ^ (- e) in
      if (minInt <=? n) && (n <=? maxInt) then Returned n else Stopped ImplDefined
  | S754_infinity _ | S754_nan => Stopped ImplDefined
  end.

(** [time.Second] and [Duration.Seconds] of the standard library:
    [sec := d / Second; nsec := d % Second;
     return float64(sec) + float64(nsec)/1e9]. *)
Definition Second : Z := 1000000000.
Definition Millisecond : Z := 1000000.

Definition Seconds (d : Z) : float :=
  PrimFloat.add (float64 (Z.quot d Second))
                (PrimFloat.div (float64 (Z.rem d Second)) (float64 Second)).

(** [int(math.Floor(float64(a) / float64(b)))] *)
Definition floorQuot (a b : Z) : outcome Z :=
  intFloor (PrimFloat.div (float64 a) (float64 b)).

End Go.

Import Go.

Declare Scope go_scope.
Delimit Scope go_scope with go.
Notation "x <- m ;; k" := (Go.bind m (fun x => k))
  (at level 61, m at next level, right associativity) : go_scope.
Notation "' p <- m ;; k" := (Go.bind m (fun p => k))
  (at level 61, p pattern, m at next level, right associativity) : go_scope.
Open Scope go_scope.

(** ** The detector *)

Definition int32 := Z.

(** [SilenceDetectorConfiguration]: two [time.Duration]s, in nanoseconds. *)
Record SilenceDetectorConfiguration : Set := {
  SilenceMinDuration : Z;
  StepDuration : Z
}.

(** [SilenceDetector] *)
Record SilenceDetector : Set := {
  audioLevels : list float;
  c : SilenceDetectorConfiguration;
  samples : list int32
}.

(** [Reset] *)
Definition Reset (d : SilenceDetector) : SilenceDetector :=
  {| audioLevels := []; c := c d; samples := [] |}.

(** [NewSilenceDetector] *)
Definition NewSilenceDetector (cfg : SilenceDetectorConfiguration) : SilenceDetector :=
  let d := Reset {| audioLevels := []; c := cfg; samples := [] |} in
  let c1 :=
    if SilenceMinDuration (c d) =? 0
    then {| SilenceMinDuration := Second; StepDuration := StepDuration (c d) |}
    else c d in
  let c2 :=
    if StepDuration c1 =? 0
    then {| SilenceMinDuration := SilenceMinDuration c1; StepDuration := 30 * Millisecond |}
    else c1 in
  {| audioLevels := audioLevels d; c := c2; samples := samples d |}.

(** [int(math.Floor(float64(sampleRate) * d.c.StepDuration.Seconds()))] *)
Definition audioLevelAnalysisSamplesCount (sampleRate stepDuration : Z) : outcome Z :=
  intFloor (PrimFloat.mul (float64 sampleRate) (Seconds stepDuration)).

(** The test of [processSilencesInTheMiddle]:
    [time.Duration(silencesCount)*d.c.StepDuration >= d.c.SilenceMinDuration]. *)
Definition tooManySilences (cfg : SilenceDetectorConfiguration) (silencesCount : Z) : bool :=
  SilenceMinDuration cfg <=? Go.mul silencesCount (StepDuration cfg).

(** The loop "Count silences at the start". *)
Fixpoint countSilencesAtStart (levels : list float) (silenceMaxAudioLevel : float) : Z :=
  match levels with
  | l :: levels' =>
      if PrimFloat.ltb l silenceMaxAudioLevel
      then 1 + countSilencesAtStart levels' silenceMaxAudioLevel
      else 0
  | [] => 0
  end.

(** [processSilencesInTheMiddle] *)
Definition processSilencesInTheMiddle (d : SilenceDetector)
    (audioLevelAnalysisSamplesCount i silencesCount : Z)
    (validSamples : list (list int32)) : outcome (SilenceDetector * list (list int32)) :=
  if tooManySilences (c d) silencesCount then
    let end_ := Go.mul (Go.sub i silencesCount) audioLevelAnalysisSamplesCount in
    smp <- makeCopy (samples d) end_ ;;
    let validSamples := validSamples ++ [smp] in
    lv <- sliceFrom (audioLevels d) (Go.sub i silencesCount) ;;
    rest <- sliceFrom (samples d) end_ ;;
    Returned ({| audioLevels := lv; c := c d; samples := rest |}, validSamples)
  else Returned (d, validSamples).

(** The loop "Process silences in the middle", from index [i] with
    [silencesCount] silences counted.  Every turn increments [i] and the
    levels never grow, so [fuel] turns are enough when [fuel] is the number
    of levels. *)
Fixpoint scanMiddle (fuel : nat) (d : SilenceDetector)
    (audioLevelAnalysisSamplesCount : Z) (silenceMaxAudioLevel : float)
    (i silencesCount : Z) (validSamples : list (list int32))
    : outcome (SilenceDetector * Z * Z * list (list int32)) :=
  if i <? len (audioLevels d) then
    match fuel with
    | O => Stopped Fuel
    | S fuel' =>
        match nth_error (audioLevels d) (Z.to_nat i) with
        | None => Stopped IndexRange
        | Some l =>
            if PrimFloat.ltb l silenceMaxAudioLevel then
              scanMiddle fuel' d audioLevelAnalysisSamplesCount silenceMaxAudioLevel
                         (i + 1) (silencesCount + 1) validSamples
            else
              '(d', validSamples') <-
                 processSilencesInTheMiddle d audioLevelAnalysisSamplesCount
                                            i silencesCount validSamples ;;
              scanMiddle fuel' d' audioLevelAnalysisSamplesCount silenceMaxAudioLevel
                         (i + 1) 0 validSamples'
        end
    end
  else Returned (d, i, silencesCount, validSamples).

Section Detector.

(** [AudioLevel], of the same package. *)
Variable AudioLevel : list int32 -> float.

(** The loop "Compute audio levels": [n] turns from index [i]. *)
Fixpoint computeAudioLevels (n : nat) (smp : list int32)
    (audioLevelAnalysisSamplesCount processedSamplesCount i : Z)
    (levels : list float) : outcome (list float) :=
  match n with
  | O => Returned levels
  | S n' =>
      let start := Go.add processedSamplesCount (Go.mul i audioLevelAnalysisSamplesCount) in
      let end_ := Go.add start audioLevelAnalysisSamplesCount in
      w <- slice smp start end_ ;;
      computeAudioLevels n' smp audioLevelAnalysisSamplesCount processedSamplesCount
                         (i + 1) (levels ++ [AudioLevel w])
  end.

(** "Keep 1 silence at the start" *)
Definition keepOneSilenceAtStart (levels : list float) (smp : list int32)
    (audioLevelAnalysisSamplesCount silencesCount : Z)
    : outcome (list float * list int32) :=
  if 1 <? silencesCount then
    levels' <- sliceFrom levels (Go.sub silencesCount 1) ;;
    smp' <- sliceFrom smp (Go.mul (Go.sub silencesCount 1) audioLevelAnalysisSamplesCount) ;;
    Returned (levels', smp')
  else Returned (levels, smp).

(** [Add] *)
Definition Add (d : SilenceDetector) (newSamples : list int32) (sampleRate : Z)
    (silenceMaxAudioLevel : float) : outcome (SilenceDetector * list (list int32)) :=
  smp <- append (samples d) newSamples ;;
  ws <- audioLevelAnalysisSamplesCount sampleRate (StepDuration (c d)) ;;
  let processedSamplesCount := Go.mul (len (audioLevels d)) ws in
  let processableSamplesCount := Go.sub (len smp) processedSamplesCount in
  if processableSamplesCount <? ws then
    Returned ({| audioLevels := audioLevels d; c := c d; samples := smp |}, [])
  else
    n <- floorQuot processableSamplesCount ws ;;
    levels <- computeAudioLevels (Z.to_nat n) smp ws processedSamplesCount 0 (audioLevels d) ;;
    let silencesCount := countSilencesAtStart levels silenceMaxAudioLevel in
    '(levels, smp) <- keepOneSilenceAtStart levels smp ws silencesCount ;;
    let d1 := {| audioLevels := levels; c := c d; samples := smp |} in
    if len levels <=? 1 then Returned (d1, [])
    else
      '(d2, i, silencesCount, validSamples) <-
         scanMiddle (length levels) d1 ws silenceMaxAudioLevel 1 0 [] ;;
      processSilencesInTheMiddle d2 ws i silencesCount validSamples.

End Detector.


(** ** Windows and the plan of a call

    The vocabulary of the proofs.  The buffer is read as a list of analysis
    windows followed by the samples of an unfinished window; what [Add]
    cuts depends on the levels only through their comparison with the
    threshold, and is computed on those booleans. *)

Section Windows.

Context {A : Type}.

(** The first [n] windows of [wsn] samples of [l]. *)
Fixpoint windowsOf (n wsn : nat) (l : list A) : list (list A) :=
  match n with
  | O => []
  | S n' => firstn wsn l :: windowsOf n' wsn (skipn wsn l)
  end.

(** Successive groups of [t1], [t2], ... windows. *)
Fixpoint cutWindows (cuts : list nat) (wins : list (list A)) : list (list (list A)) :=
  match cuts with
  | [] => []
  | t :: cuts' => firstn t wins :: cutWindows cuts' (skipn t wins)
  end.

End Windows.

(** Silences at the start of a list of flags. *)
Fixpoint leadingSilences (flags : list bool) : nat :=
  match flags with
  | true :: flags' => S (leadingSilences flags')
  | _ => O
  end.

(** Windows that "Keep 1 silence at the start" removes. *)
Definition prunedWindows (flags : list bool) : nat :=
  Nat.pred (leadingSilences flags).

(** The loop "Process silences in the middle" on flags: the index and the
    counter at the exit, and the number of windows of each cut. *)
Fixpoint planScan (gate : nat -> bool) (fuel : nat) (flags : list bool) (i cnt : nat)
    : option (nat * nat * list nat) :=
  if (i <? length flags)%nat then
    match fuel with
    | O => None
    | S fuel' =>
        match nth_error flags i with
        | None => None
        | Some true => planScan gate fuel' flags (S i) (S cnt)
        | Some false =>
            if gate cnt then
              match planScan gate fuel' (skipn (i - cnt) flags) (S i) O with
              | Some (i', cnt', cuts) => Some (i', cnt', (i - cnt)%nat :: cuts)
              | None => None
              end
            else planScan gate fuel' flags (S i) O
        end
    end
  else Some (i, cnt, []).

(** The cuts of a whole call: windows pruned at the start, then the windows
    of each segment.  [None] when the last [processSilencesInTheMiddle]
    slices out of range. *)
Definition planAdd (gate : nat -> bool) (flags : list bool) : option (nat * list nat) :=
  let p := prunedWindows flags in
  let flags2 := skipn p flags in
  if (length flags2 <=? 1)%nat then Some (p, [])
  else
    match planScan gate (length flags2) flags2 1 0 with
    | None => None
    | Some (i, cnt, cuts) =>
        if gate cnt then
          if (i - cnt <=? length flags2 - list_sum cuts)%nat
          then Some (p, cuts ++ [(i - cnt)%nat])
          else None
        else Some (p, cuts)
    end.

Definition gateOf (cfg : SilenceDetectorConfiguration) (n : nat) : bool :=
  tooManySilences cfg (Z.of_nat n).

Definition silentFlags (levels : list float) (silenceMaxAudioLevel : float) : list bool :=
  map (fun l => PrimFloat.ltb l silenceMaxAudioLevel) levels.

(** ** Statements *)

Section Statements.

Variable AudioLevel : list int32 -> float.

(** The lock-step of the two buffers for windows of [ws] samples. *)
Definition lockStep (ws : Z) (d : SilenceDetector) : Prop :=
  len (audioLevels d) * ws <= len (samples d) /\
  forall i : nat, (i < length (audioLevels d))%nat ->
    nth_error (audioLevels d) i =
    Some (AudioLevel (firstn (Z.to_nat ws) (skipn (i * Z.to_nat ws) (samples d)))).

(** The buffer of a call that computes levels, once they are computed:
    the number of new windows, all the whole windows, the samples after
    them, and the levels. *)
Definition newWindows (d : SilenceDetector) (newSamples : list int32) (ws : Z) : nat :=
  Z.to_nat ((len (samples d ++ newSamples) - len (audioLevels d) * ws) / ws).

Definition bufferWindows (d : SilenceDetector) (newSamples : list int32) (ws : Z)
    : list (list int32) :=
  windowsOf (length (audioLevels d) + newWindows d newSamples ws) (Z.to_nat ws)
            (samples d ++ newSamples).

Definition bufferRest (d : SilenceDetector) (newSamples : list int32) (ws : Z) : list int32 :=
  skipn ((length (audioLevels d) + newWindows d newSamples ws) * Z.to_nat ws)
        (samples d ++ newSamples).

Definition bufferLevels (d : SilenceDetector) (newSamples : list int32) (ws : Z) : list float :=
  audioLevels d ++
  map AudioLevel (skipn (length (audioLevels d)) (bufferWindows d newSamples ws)).

(** The levels at the end of the loop "Compute audio levels" of a call that
    gets that far. *)
Definition computedLevels (d : SilenceDetector) (newSamples : list int32) (ws : Z)
    : outcome (list float) :=
  let smp := samples d ++ newSamples in
  let processed := len (audioLevels d) * ws in
  computeAudioLevels AudioLevel (Z.to_nat ((len smp - processed) / ws)) smp ws processed 0
                     (audioLevels d).

(** A stretch of whole windows, each below the threshold. *)
Definition silentStretch (ws : Z) (silenceMaxAudioLevel : float) (s : list int32) : Prop :=
  exists wins : list (list int32),
    s = concat wins /\
    Forall (fun w => len w = ws /\ PrimFloat.ltb (AudioLevel w) silenceMaxAudioLevel = true) wins.

(** A sequence of calls with one sample rate: the detector and the segments
    after each call. *)
Fixpoint AddAll (d : SilenceDetector) (sampleRate : Z) (calls : list (list int32 * float))
    : outcome (list (SilenceDetector * list (list int32))) :=
  match calls with
  | [] => Returned []
  | (newSamples, silenceMaxAudioLevel) :: calls' =>
      '(d1, validSamples) <- Add AudioLevel d newSamples sampleRate silenceMaxAudioLevel ;;
      trace <- AddAll d1 sampleRate calls' ;;
      Returned ((d1, validSamples) :: trace)
  end.

(** The detector after the calls of [trace], from [d]. *)
Definition lastDetector (d : SilenceDetector)
    (trace : list (SilenceDetector * list (list int32))) : SilenceDetector :=
  last (map fst trace) d.

(** [stream] is accounted for by the calls of [log] (threshold and segments
    of each) and the samples left in the buffer: it reads, call after call,
    a stretch of silent windows that was dropped, which a silent window
    that was kept follows, then the segments of the call; and at the end
    the buffer. *)
Fixpoint accounted (ws : Z) (stream : list int32)
    (log : list (float * list (list int32))) (residual : list int32) : Prop :=
  match log with
  | [] => stream = residual
  | (silenceMaxAudioLevel, validSamples) :: log' =>
      exists dropped rest : list int32,
        stream = dropped ++ concat validSamples ++ rest /\
        silentStretch ws silenceMaxAudioLevel dropped /\
        (dropped <> [] ->
         exists w tail : list int32,
           concat validSamples ++ rest = w ++ tail /\ len w = ws /\
           PrimFloat.ltb (AudioLevel w) silenceMaxAudioLevel = true) /\
        accounted ws rest log' residual
  end.

End Statements.

(** ** The samples that a call prunes *)

Section Pruned.

Variable AudioLevel : list int32 -> float.

(** The samples that a call prunes: none when the call forms no new
    window; otherwise, of the whole windows of the buffer (the samples
    held and the new ones), all but the last of those at the start that
    are below the threshold. *)
Definition prunedSamples (ws : Z) (silenceMaxAudioLevel : float) (d : SilenceDetector)
    (newSamples : list int32) : list int32 :=
  let buffer := samples d ++ newSamples in
  if len buffer - len (audioLevels d) * ws <? ws then []
  else
    let wins := windowsOf (Z.to_nat (len buffer / ws)) (Z.to_nat ws) buffer in
    let k := leadingSilences
               (map (fun w => PrimFloat.ltb (AudioLevel w) silenceMaxAudioLevel) wins) in
    firstn (Nat.pred k * Z.to_nat ws) buffer.

(** Call after call, the buffer of the call (the samples left by the call
    before, then the new ones) is the samples the call prunes, then the
    segments it emits, then the samples it leaves. *)
Fixpoint accountedCalls (ws : Z) (d : SilenceDetector) (calls : list (list int32 * float))
    (trace : list (SilenceDetector * list (list int32))) : Prop :=
  match calls, trace with
  | [], [] => True
  | (newSamples, silenceMaxAudioLevel) :: calls', (d1, validSamples) :: trace' =>
      samples d ++ newSamples
      = prunedSamples ws silenceMaxAudioLevel d newSamples
        ++ concat validSamples ++ samples d1 /\
      accountedCalls ws d1 calls' trace'
  | _, _ => False
  end.

(** What the calls pruned and emitted, call after call. *)
Fixpoint prunedAndEmitted (ws : Z) (d : SilenceDetector) (calls : list (list int32 * float))
    (trace : list (SilenceDetector * list (list int32))) : list int32 :=
  match calls, trace with
  | (newSamples, silenceMaxAudioLevel) :: calls', (d1, validSamples) :: trace' =>
      prunedSamples ws silenceMaxAudioLevel d newSamples
      ++ concat validSamples ++ prunedAndEmitted ws d1 calls' trace'
  | _, _ => []
  end.

End Pruned.

(** A detector seen as levels, whole windows and the samples after them. *)
Definition paired (cfg : SilenceDetectorConfiguration) (levels : list float)
    (wins : list (list int32)) (rest : list int32) : SilenceDetector :=
  {| audioLevels := levels; c := cfg; samples := concat wins ++ rest |}.

(** A level function for closed examples: the peak amplitude. *)
Definition peakLevel (w : list int32) : float :=
  float64 (fold_right (fun s m => Z.max (Z.abs s) m) 0 w).

(** The configuration of the scenarios: steps of 30ms, silences of 90ms. *)
Definition cfg30_90 : SilenceDetectorConfiguration :=
  {| SilenceMinDuration := 90 * Millisecond; StepDuration := 30 * Millisecond |}.

Definition loudWindow : list int32 := repeat 1000 30.
Definition quietWindow : list int32 := repeat 0 30.

Definition demoDetector : SilenceDetector := NewSilenceDetector cfg30_90.
Definition demoThreshold : float := float64 100.

(** Three calls: two loud windows and a quiet one; two quiet windows, a loud
    one and two samples more; nothing. *)
Definition demoCalls : list (list int32 * float) :=
  [ (concat [loudWindow; loudWindow; quietWindow], demoThreshold);
    (concat [quietWindow; quietWindow; loudWindow] ++ [5; 5], demoThreshold);
    ([], demoThreshold) ].

(** A detector that holds three loud windows. *)
Definition loudDetector : SilenceDetector :=
  {| audioLevels := map peakLevel [loudWindow; loudWindow; loudWindow];
     c := cfg30_90;
     samples := concat [loudWindow; loudWindow; loudWindow] |}.

(** Three calls: two quiet windows and a loud one; three quiet windows and
    a loud one; a loud window. *)
Definition pruningCalls : list (list int32 * float) :=
  [ (concat [quietWindow; quietWindow; loudWindow], demoThreshold);
    (concat [quietWindow; quietWindow; quietWindow; loudWindow], demoThreshold);
    (loudWindow, demoThreshold) ].

(** ** Vocabulary of the further properties *)

(** Every cut of a plan is followed by silent flags that pass the gate. *)
Fixpoint soundCuts (gate : nat -> bool) (flags : list bool) (cuts : list nat) : Prop :=
  match cuts with
  | [] => True
  | t :: cuts' =>
      (exists n : nat,
          gate n = true /\ (t + n <= length flags)%nat /\
          forall j : nat, (j < n)%nat -> nth_error flags (t + j) = Some true) /\
      soundCuts gate (skipn t flags) cuts'
  end.

Section Splits.

Variable AudioLevel : list int32 -> float.

(** After every segment of [validSamples], what follows it (the later
    segments, then [residual]) starts with whole windows below the
    threshold that last the minimum duration of a silence. *)
Fixpoint splitsAtSilences (ws : Z) (cfg : SilenceDetectorConfiguration)
    (silenceMaxAudioLevel : float) (validSamples : list (list int32))
    (residual : list int32) : Prop :=
  match validSamples with
  | [] => True
  | _ :: validSamples' =>
      (exists (run : list (list int32)) (rest : list int32),
          concat validSamples' ++ residual = concat run ++ rest /\
          Forall (fun w => len w = ws /\
                           PrimFloat.ltb (AudioLevel w) silenceMaxAudioLevel = true) run /\
          tooManySilences cfg (len run) = true) /\
      splitsAtSilences ws cfg silenceMaxAudioLevel validSamples' residual
  end.

End Splits.

(** Every cut of a plan holds a flag that is not a silence. *)
Fixpoint loudCuts (flags : list bool) (cuts : list nat) : Prop :=
  match cuts with
  | [] => True
  | t :: cuts' =>
      (exists j : nat, (j < t)%nat /\ nth_error flags j = Some false) /\
      loudCuts (skipn t flags) cuts'
  end.

(** A flag that is not a silence precedes the run that the scan counts at
    index [i], or is at [i] when the scan counts none. *)
Definition loudBefore (flags : list bool) (i cnt : nat) : Prop :=
  (exists j : nat, (j < i - cnt)%nat /\ nth_error flags j = Some false) \/
  (cnt = O /\ nth_error flags i = Some false).

(** The window size of every sample rate from [rate], [n] of them, is
    [rate * num / den] for steps of [step]. *)
Fixpoint windowSizesAgree (step num den : Z) (n : nat) (rate : Z) : bool :=
  match n with
  | O => true
  | S n' =>
      match audioLevelAnalysisSamplesCount rate step with
      | Returned w => w =? rate * num / den
      | Stopped _ => false
      end && windowSizesAgree step num den n' (rate + 1)
  end.

(** The float of sign-less mantissa [m] and exponent [e] is the integer
    [a], written with 53 binary digits. *)
Definition holds (m : positive) (e : Z) (a : Z) : Prop :=
  Z.pos (digits2_pos m) = 53 /\ -52 <= e <= 0 /\ Z.pos m = a * 2 ^ (- e).

(** ** The Go runtime: lemmas *)

Lemma wrap64_small (z : Z) : minInt <= z <= maxInt -> wrap64 z = z.
Proof.
  unfold minInt, maxInt, wrap64. intros H.
  rewrite Z.mod_small; lia.
Qed.

Lemma wrap64_range (z : Z) : minInt <= wrap64 z <= maxInt.
Proof.
  unfold minInt, maxInt, wrap64.
  pose proof (Z.mod_pos_bound (z + 2 ^ 63) (2 ^ 64) ltac:(lia)). lia.
Qed.

Lemma mul_small (a b : Z) : minInt <= a * b <= maxInt -> Go.mul a b = a * b.
Proof. apply wrap64_small. Qed.

Lemma add_small (a b : Z) : minInt <= a + b <= maxInt -> Go.add a b = a + b.
Proof. apply wrap64_small. Qed.

Lemma sub_small (a b : Z) : minInt <= a - b <= maxInt -> Go.sub a b = a - b.
Proof. apply wrap64_small. Qed.

Lemma len_app {A : Type} (s t : list A) : len (s ++ t) = len s + len t.
Proof. unfold len. rewrite length_app. lia. Qed.

Lemma len_nonneg {A : Type} (s : list A) : 0 <= len s.
Proof. unfold len. lia. Qed.

Lemma bind_Returned {A B : Type} (m : outcome A) (k : A -> outcome B) (b : B) :
  Go.bind m k = Returned b -> exists a, m = Returned a /\ k a = Returned b.
Proof. destruct m; simpl; intros H; [eauto | discriminate]. Qed.

Lemma sliceFrom_nat {A : Type} (s : list A) (k : nat) :
  (k <= length s)%nat -> sliceFrom s (Z.of_nat k) = Returned (skipn k s).
Proof.
  intros H. unfold sliceFrom, len.
  replace ((0 <=? Z.of_nat k) && (Z.of_nat k <=? Z.of_nat (length s))) with true.
  - now rewrite Nat2Z.id.
  - symmetry. apply andb_true_iff. split; apply Z.leb_le; lia.
Qed.

Lemma sliceFrom_beyond {A : Type} (s : list A) (k : nat) :
  (length s < k)%nat -> sliceFrom s (Z.of_nat k) = Stopped SliceBounds.
Proof.
  intros H. unfold sliceFrom, len.
  replace (Z.of_nat k <=? Z.of_nat (length s)) with false.
  - now rewrite andb_false_r.
  - symmetry. apply Z.leb_gt. lia.
Qed.

Lemma slice_nat {A : Type} (s : list A) (a b : nat) :
  (a <= b <= length s)%nat ->
  slice s (Z.of_nat a) (Z.of_nat b) = Returned (firstn (b - a) (skipn a s)).
Proof.
  intros H. unfold slice, len.
  replace ((0 <=? Z.of_nat a) && (Z.of_nat a <=? Z.of_nat b)) with true.
  - replace (Z.of_nat b <=? Z.of_nat (length s)) with true.
    + rewrite <- Nat2Z.inj_sub by lia. now rewrite !Nat2Z.id.
    + symmetry. apply Z.leb_le. lia.
  - symmetry. apply andb_true_iff. split; apply Z.leb_le; lia.
Qed.

Lemma makeCopy_nat {A : Type} (s : list A) (k : nat) :
  (k <= length s)%nat -> makeCopy s (Z.of_nat k) = Returned (firstn k s).
Proof.
  intros H. unfold makeCopy.
  replace (Z.of_nat k <? 0) with false by (symmetry; apply Z.ltb_ge; lia).
  change 0 with (Z.of_nat 0). rewrite slice_nat by lia.
  now rewrite Nat.sub_0_r.
Qed.

Lemma makeCopy_beyond {A : Type} (s : list A) (k : nat) :
  (length s < k)%nat -> makeCopy s (Z.of_nat k) = Stopped BeyondLen.
Proof.
  intros H. unfold makeCopy, slice, len.
  replace (Z.of_nat k <? 0) with false by (symmetry; apply Z.ltb_ge; lia).
  replace ((0 <=? 0) && (0 <=? Z.of_nat k)) with true
    by (symmetry; apply andb_true_iff; split; apply Z.leb_le; lia).
  replace (Z.of_nat k <=? Z.of_nat (length s)) with false
    by (symmetry; apply Z.leb_gt; lia).
  reflexivity.
Qed.

(** ** The quotient of two integers below 2^53

    [float64] is exact on integers below 2^53, and the correctly rounded
    quotient of two of them has the floor of their exact quotient: a
    quotient that is not an integer is at least [1/b] below the next
    integer, which is more than the rounding error. *)

Lemma digits2_pos_bounds (p : positive) :
  2 ^ (Z.pos (digits2_pos p) - 1) <= Z.pos p < 2 ^ Z.pos (digits2_pos p).
Proof.
  induction p as [p IH | p IH |]; simpl digits2_pos.
  - rewrite Pos2Z.inj_succ.
    replace (Z.succ (Z.pos (digits2_pos p)) - 1) with (Z.succ (Z.pos (digits2_pos p) - 1)) by lia.
    rewrite !Z.pow_succ_r by lia. rewrite (Pos2Z.inj_xI p).
    destruct IH as [H1 H2]. revert H1 H2.
    generalize (2 ^ (Z.pos (digits2_pos p) - 1)) (2 ^ Z.pos (digits2_pos p)).
    intros; lia.
  - rewrite Pos2Z.inj_succ.
    replace (Z.succ (Z.pos (digits2_pos p)) - 1) with (Z.succ (Z.pos (digits2_pos p) - 1)) by lia.
    rewrite !Z.pow_succ_r by lia. rewrite (Pos2Z.inj_xO p).
    destruct IH as [H1 H2]. revert H1 H2.
    generalize (2 ^ (Z.pos (digits2_pos p) - 1)) (2 ^ Z.pos (digits2_pos p)).
    intros; lia.
  - simpl. lia.
Qed.

Lemma digits2_pos_unique (p : positive) (d : Z) :
  2 ^ (d - 1) <= Z.pos p < 2 ^ d -> Z.pos (digits2_pos p) = d.
Proof.
  intros [Hlo Hhi].
  pose proof (digits2_pos_bounds p) as [Hlo' Hhi'].
  assert (Hd : 0 < d).
  { destruct (Z.lt_ge_cases 0 d) as [H | H]; [exact H |].
    destruct (Z.eq_dec d 0) as [-> | Hn].
    - simpl in Hhi. lia.
    - rewrite Z.pow_neg_r in Hhi by lia. lia. }
  destruct (Z.lt_trichotomy (Z.pos (digits2_pos p)) d) as [H | [H | H]]; [| exact H |].
  - assert (2 ^ Z.pos (digits2_pos p) <= 2 ^ (d - 1)) by (apply Z.pow_le_mono_r; lia). lia.
  - assert (2 ^ d <= 2 ^ (Z.pos (digits2_pos p) - 1)) by (apply Z.pow_le_mono_r; lia). lia.
Qed.

Lemma iter_xO (p d : positive) : Z.pos (Pos.iter xO p d) = Z.pos p * 2 ^ Z.pos d.
Proof.
  induction d as [| d IH] using Pos.peano_ind.
  - simpl. lia.
  - rewrite Pos.iter_succ, Pos2Z.inj_xO, IH, Pos2Z.inj_succ, Z.pow_succ_r by lia. lia.
Qed.

Lemma loc_of_record_of_loc m l : loc_of_shr_record (shr_record_of_loc m l) = l.
Proof. destruct l as [| []]; reflexivity. Qed.

Lemma shr_m_record_of_loc m l : shr_m (shr_record_of_loc m l) = m.
Proof. destruct l as [| []]; reflexivity. Qed.

Lemma fexp_53 e : -1021 <= e -> fexp prec emax (53 + e) = e.
Proof. intros H. unfold fexp, emin, prec, emax. lia. Qed.

Lemma fexp_54 e : -1022 <= e -> fexp prec emax (54 + e) = e + 1.
Proof. intros H. unfold fexp, emin, prec, emax. lia. Qed.

Lemma shr_fexp_53 (m : positive) e l :
  Z.pos (digits2_pos m) = 53 -> -1021 <= e ->
  shr_fexp prec emax (Z.pos m) e l = (shr_record_of_loc (Z.pos m) l, e).
Proof.
  intros Hd He. unfold shr_fexp, Zdigits2. rewrite Hd, fexp_53 by exact He.
  now rewrite Z.sub_diag.
Qed.

Lemma shr_fexp_54 (m : positive) e l :
  Z.pos (digits2_pos m) = 54 -> -1022 <= e ->
  shr_fexp prec emax (Z.pos m) e l = (shr_1 (shr_record_of_loc (Z.pos m) l), e + 1).
Proof.
  intros Hd He. unfold shr_fexp, Zdigits2. rewrite Hd, fexp_54 by exact He.
  replace (e + 1 - e) with 1 by lia. reflexivity.
Qed.

Lemma binary_round_aux_53 s (m : positive) e :
  Z.pos (digits2_pos m) = 53 -> -1021 <= e <= 971 ->
  binary_round_aux prec emax s (Z.pos m) e loc_Exact = S754_finite s m e.
Proof.
  intros Hd He. unfold binary_round_aux.
  rewrite shr_fexp_53 by (assumption || lia). simpl.
  rewrite shr_fexp_53 by (assumption || lia). simpl.
  replace (e <=? 971) with true; [reflexivity |].
  symmetry. apply Z.leb_le. lia.
Qed.

Lemma binary_round_integer s (p : positive) :
  Z.pos p < 2 ^ 53 ->
  exists m e, binary_round prec emax s p 0 = S754_finite s m e /\ holds m e (Z.pos p).
Proof.
  intros Hp.
  pose proof (digits2_pos_bounds p) as [Hlo Hhi].
  set (d := Z.pos (digits2_pos p)) in *.
  assert (Hd : 1 <= d <= 53).
  { split; [unfold d; lia |].
    destruct (Z.le_gt_cases d 53) as [H | H]; [exact H |].
    assert (2 ^ 53 <= 2 ^ (d - 1)) by (apply Z.pow_le_mono_r; lia). lia. }
  unfold binary_round. fold d. rewrite Z.add_0_r.
  assert (Hf : fexp prec emax d = d - 53) by (unfold fexp, emin, prec, emax; lia).
  rewrite Hf. unfold shl_align. rewrite Z.sub_0_r.
  destruct (Z.eq_dec d 53) as [E | E].
  - rewrite E. simpl Z.sub.
    exists p, 0. split.
    + apply binary_round_aux_53; [exact E | lia].
    + split; [exact E | split; [lia | simpl; lia]].
  - destruct (d - 53) as [| k | k] eqn:Hk; try lia.
    assert (Hk' : Z.pos k = 53 - d) by lia.
    exists (Pos.iter xO p k), (Z.neg k).
    assert (Hm : Z.pos (Pos.iter xO p k) = Z.pos p * 2 ^ (53 - d))
      by (rewrite iter_xO, Hk'; reflexivity).
    assert (Hdm : Z.pos (digits2_pos (Pos.iter xO p k)) = 53).
    { apply digits2_pos_unique. rewrite Hm.
      assert (H52 : 2 ^ (53 - 1) = 2 ^ (d - 1) * 2 ^ (53 - d))
        by (rewrite <- Z.pow_add_r by lia; f_equal; lia).
      assert (H53 : 2 ^ 53 = 2 ^ d * 2 ^ (53 - d))
        by (rewrite <- Z.pow_add_r by lia; f_equal; lia).
      assert (Hy : 0 < 2 ^ (53 - d)) by (apply Z.pow_pos_nonneg; lia).
      rewrite H52, H53. clear H52 H53 Hp.
      revert Hlo Hhi Hy.
      generalize (2 ^ (d - 1)) (2 ^ d) (2 ^ (53 - d)). intros x y z Hlo Hhi Hz.
      split; nia. }
    split.
    + apply binary_round_aux_53; [exact Hdm | lia].
    + split; [exact Hdm | split; [lia |]].
      rewrite Hm. f_equal. f_equal. lia.
Qed.

Lemma holds_valid s m e a : holds m e a -> valid_binary (S754_finite s m e) = true.
Proof.
  intros (Hd & He & _). unfold SpecFloat.valid_binary, bounded, canonical_mantissa.
  rewrite Hd, fexp_53 by lia. rewrite Z.eqb_refl. simpl.
  apply Z.leb_le. unfold emax, prec. lia.
Qed.

Lemma Prim2SF_float64_pos (a : Z) :
  0 < a < 2 ^ 53 ->
  exists m e, Prim2SF (float64 a) = S754_finite false m e /\ holds m e a.
Proof.
  intros Ha. destruct a as [| p | p]; try lia.
  destruct (binary_round_integer false p ltac:(lia)) as (m & e & Hr & Hh).
  exists m, e. split; [| exact Hh].
  unfold float64, binary_normalize. rewrite Hr.
  apply Prim2SF_SF2Prim. now apply holds_valid with (a := Z.pos p).
Qed.

Lemma Prim2SF_float64_neg (a : Z) :
  - 2 ^ 53 < a < 0 ->
  exists m e, Prim2SF (float64 a) = S754_finite true m e /\ holds m e (- a).
Proof.
  intros Ha. destruct a as [| p | p]; try lia.
  destruct (binary_round_integer true p ltac:(lia)) as (m & e & Hr & Hh).
  exists m, e. split; [| exact Hh].
  unfold float64, binary_normalize. rewrite Hr.
  apply Prim2SF_SF2Prim. now apply holds_valid with (a := Z.pos p).
Qed.

Lemma Prim2SF_float64_zero : Prim2SF (float64 0) = S754_zero false.
Proof. reflexivity. Qed.

Lemma holds_range m e a : holds m e a -> 2 ^ 52 <= Z.pos m < 2 ^ 53.
Proof.
  intros (Hd & _). pose proof (digits2_pos_bounds m) as H. rewrite Hd in H. exact H.
Qed.

(** The quotient of two such floats before it is rounded. *)
Lemma SFdiv_holds sx mx ex a sy my ey b :
  holds mx ex a -> holds my ey b ->
  SFdiv prec emax (S754_finite sx mx ex) (S754_finite sy my ey) =
  binary_round_aux prec emax (xorb sx sy) (Z.pos mx * 2 ^ 53 / Z.pos my) (ex - ey - 53)
                   (new_location (Z.pos my) (Z.pos mx * 2 ^ 53 mod Z.pos my)).
Proof.
  intros (Hdx & Hex & _) (Hdy & Hey & _).
  unfold SFdiv, SFdiv_core_binary, Zdigits2. rewrite Hdx, Hdy.
  replace (53 + ex - (53 + ey)) with (53 + (ex - ey - 53)) by lia.
  rewrite fexp_53 by lia.
  rewrite Z.min_l by lia.
  replace (ex - ey - (ex - ey - 53)) with 53 by lia.
  rewrite Z.shiftl_mul_pow2 by lia.
  unfold Z.div, Z.modulo.
  destruct (Z.div_eucl (Z.pos mx * 2 ^ 53) (Z.pos my)) as [q r]. reflexivity.
Qed.

Lemma new_location_half (mb r : Z) :
  0 <= r < mb ->
  new_location mb r = loc_Inexact Eq \/ new_location mb r = loc_Inexact Gt ->
  mb <= 2 * r.
Proof.
  intros Hr. unfold new_location, new_location_even, new_location_odd.
  destruct (Z.even mb); destruct (Z.eqb_spec r 0) as [-> | Hne];
    try (intros [H | H]; discriminate).
  - destruct (Z.compare_spec (2 * r) mb) as [Hc | Hc | Hc];
      intros [H | H]; try discriminate; lia.
  - destruct (Z.compare_spec (2 * r + 1) mb) as [Hc | Hc | Hc];
      intros [H | H]; try discriminate; lia.
Qed.

(** The end of [binary_round_aux], on a mantissa of 53 digits or on 2^53. *)
Lemma renormalize s (M e : Z) :
  2 ^ 52 <= M <= 2 ^ 53 -> -1021 <= e <= 970 ->
  exists mf ef,
    (let '(mrs, e') := shr_fexp prec emax M e loc_Exact in
     match shr_m mrs with
     | Z0 => S754_zero s
     | Z.pos m => if e' <=? emax - prec then S754_finite s m e' else S754_infinity s
     | Z.neg _ => S754_nan
     end) = S754_finite s mf ef /\
    (Z.pos mf = M /\ ef = e \/ 2 * Z.pos mf = M /\ ef = e + 1).
Proof.
  intros HM He.
  destruct (Z.eq_dec M (2 ^ 53)) as [-> | Hne].
  - exists (4503599627370496)%positive, (e + 1). split; [| right; split; reflexivity].
    change (2 ^ 53) with (Z.pos 9007199254740992).
    rewrite shr_fexp_54 by (reflexivity || lia).
    simpl shr_m.
    replace (e + 1 <=? emax - prec) with true; [reflexivity |].
    symmetry. apply Z.leb_le. unfold emax, prec. lia.
  - destruct M as [| m | m]; try lia.
    exists m, e. split; [| left; split; reflexivity].
    rewrite shr_fexp_53;
      [| apply digits2_pos_unique; change (53 - 1) with 52; lia | lia].
    simpl shr_m.
    replace (e <=? emax - prec) with true; [reflexivity |].
    symmetry. apply Z.leb_le. unfold emax, prec. lia.
Qed.

(** [binary_round_aux] on a quotient of 53 or 54 digits. *)
Lemma binary_round_aux_quotient s (q e : Z) (loc : location) :
  2 ^ 52 <= q < 2 ^ 54 -> -1021 <= e <= 0 ->
  exists mf ef M sh,
    binary_round_aux prec emax s q e loc = S754_finite s mf ef /\
    (Z.pos mf = M /\ ef = e + sh \/ 2 * Z.pos mf = M /\ ef = e + sh + 1) /\
    (sh = 0 /\ q < 2 ^ 53 /\
     (M = q \/ M = q + 1 /\ (loc = loc_Inexact Eq \/ loc = loc_Inexact Gt))
     \/
     sh = 1 /\ 2 ^ 53 <= q /\ (M = q / 2 \/ M = q / 2 + 1 /\ Z.odd q = true)).
Proof.
  intros Hq He.
  destruct q as [| p | p]; try lia.
  destruct (Z.lt_ge_cases (Z.pos p) (2 ^ 53)) as [Hlt | Hge].
  - (* 53 digits: no shift *)
    assert (Hd : Z.pos (digits2_pos p) = 53)
      by (apply digits2_pos_unique; change (53 - 1) with 52; lia).
    unfold binary_round_aux. rewrite shr_fexp_53 by (assumption || lia).
    rewrite shr_m_record_of_loc, loc_of_record_of_loc.
    set (M := round_nearest_even (Z.pos p) loc).
    assert (HM : M = Z.pos p \/
                 M = Z.pos p + 1 /\ (loc = loc_Inexact Eq \/ loc = loc_Inexact Gt)).
    { unfold M, round_nearest_even.
      destruct loc as [| []]; auto. destruct (Z.even (Z.pos p)); auto. }
    destruct (renormalize s M e) as (mf & ef & Hr & Hv); [lia | lia |].
    exists mf, ef, M, 0. split; [exact Hr |]. split.
    + rewrite Z.add_0_r. exact Hv.
    + left. auto.
  - (* 54 digits: one shift *)
    assert (Hd : Z.pos (digits2_pos p) = 54)
      by (apply digits2_pos_unique; change (54 - 1) with 53; lia).
    unfold binary_round_aux. rewrite shr_fexp_54 by (assumption || lia).
    set (rec := shr_1 (shr_record_of_loc (Z.pos p) loc)).
    set (M := round_nearest_even (shr_m rec) (loc_of_shr_record rec)).
    assert (HM : M = Z.pos p / 2 \/ M = Z.pos p / 2 + 1 /\ Z.odd (Z.pos p) = true).
    { unfold M, rec.
      destruct p as [p' | p' |]; [| | simpl in Hge; lia].
      - (* odd *)
        replace (Z.pos p'~1 / 2) with (Z.pos p')
          by (rewrite (Pos2Z.inj_xI p'); apply Z.div_unique with (r := 1); lia).
        destruct loc as [| []];
          cbn [shr_1 shr_record_of_loc shr_m loc_of_shr_record round_nearest_even orb];
          try destruct (Z.even (Z.pos p')); auto.
      - (* even *)
        replace (Z.pos p'~0 / 2) with (Z.pos p')
          by (rewrite (Pos2Z.inj_xO p'); apply Z.div_unique with (r := 0); lia).
        destruct loc as [| []];
          cbn [shr_1 shr_record_of_loc shr_m loc_of_shr_record round_nearest_even orb];
          auto. }
    assert (Hhalf : 2 ^ 52 <= Z.pos p / 2 < 2 ^ 53).
    { split; [apply Z.div_le_lower_bound; lia | apply Z.div_lt_upper_bound; lia]. }
    destruct (renormalize s M (e + 1)) as (mf & ef & Hr & Hv); [lia | lia |].
    exists mf, ef, M, 1. split; [exact Hr |]. split; [exact Hv |].
    right. auto.
Qed.

Lemma Prim2SF_div_holds (a b : Z) sa sb ma ea mb eb a' b' :
  Prim2SF (float64 a) = S754_finite sa ma ea -> holds ma ea a' ->
  Prim2SF (float64 b) = S754_finite sb mb eb -> holds mb eb b' ->
  exists mf ef M sh,
    Prim2SF (PrimFloat.div (float64 a) (float64 b)) = S754_finite (xorb sa sb) mf ef /\
    (Z.pos mf = M /\ ef = ea - eb - 53 + sh \/ 2 * Z.pos mf = M /\ ef = ea - eb - 53 + sh + 1) /\
    (sh = 0 /\
     (M = Z.pos ma * 2 ^ 53 / Z.pos mb \/
      M = Z.pos ma * 2 ^ 53 / Z.pos mb + 1 /\
      Z.pos mb <= 2 * (Z.pos ma * 2 ^ 53 mod Z.pos mb))
     \/
     sh = 1 /\
     (M = Z.pos ma * 2 ^ 53 / Z.pos mb / 2 \/
      M = Z.pos ma * 2 ^ 53 / Z.pos mb / 2 + 1 /\
      Z.odd (Z.pos ma * 2 ^ 53 / Z.pos mb) = true)).
Proof.
  intros Ha Hha Hb Hhb.
  pose proof (holds_range _ _ _ Hha) as Hra.
  pose proof (holds_range _ _ _ Hhb) as Hrb.
  pose proof Hha as (_ & Hea & _). pose proof Hhb as (_ & Heb & _).
  rewrite div_spec. unfold SF64div. rewrite Ha, Hb.
  rewrite (SFdiv_holds sa ma ea a' sb mb eb b' Hha Hhb).
  set (q := Z.pos ma * 2 ^ 53 / Z.pos mb).
  set (r := Z.pos ma * 2 ^ 53 mod Z.pos mb).
  assert (Hr : 0 <= r < Z.pos mb) by (apply Z.mod_pos_bound; lia).
  assert (Hq : 2 ^ 52 <= q < 2 ^ 54).
  { unfold q. split.
    - apply Z.div_le_lower_bound; [lia |].
      change (2 ^ 53) with 9007199254740992 in *. change (2 ^ 52) with 4503599627370496 in *.
      nia.
    - apply Z.div_lt_upper_bound; [lia |].
      change (2 ^ 53) with 9007199254740992 in *. change (2 ^ 52) with 4503599627370496 in *.
      change (2 ^ 54) with 18014398509481984. nia. }
  destruct (binary_round_aux_quotient (xorb sa sb) q (ea - eb - 53)
              (new_location (Z.pos mb) r) Hq ltac:(lia))
    as (mf & ef & M & sh & Hres & Hval & Hcase).
  exists mf, ef, M, sh. split; [exact Hres |]. split; [exact Hval |].
  destruct Hcase as [(-> & _ & HM) | (-> & _ & HM)]; [left | right]; split; try reflexivity.
  - destruct HM as [HM | [HM Hloc]]; [now left | right].
    split; [exact HM |]. now apply new_location_half.
  - exact HM.
Qed.

Lemma intFloor_finite f s m e :
  Prim2SF f = S754_finite s m e ->
  intFloor f =
  let v := if s then Z.neg m else Z.pos m in
  let n := if 0 <=? e then v * 2 ^ e else v / 2 ^ (- e) in
  if (minInt <=? n) && (n <=? maxInt) then Returned n else Stopped ImplDefined.
Proof. intros H. unfold intFloor. now rewrite H. Qed.

Lemma floor_of_value (mf : positive) (ef M E : Z) :
  E <= 0 ->
  (Z.pos mf = M /\ ef = E \/ 2 * Z.pos mf = M /\ ef = E + 1) ->
  (if 0 <=? ef then Z.pos mf * 2 ^ ef else Z.pos mf / 2 ^ (- ef)) = M / 2 ^ (- E).
Proof.
  intros HE [[HM ->] | [HM ->]].
  - destruct (Z.leb_spec 0 E).
    + replace E with 0 by lia. simpl. rewrite Z.div_1_r. lia.
    + now rewrite HM.
  - destruct (Z.leb_spec 0 (E + 1)).
    + destruct (Z.eq_dec E 0) as [-> | Hne].
      * simpl. rewrite Z.div_1_r. lia.
      * replace E with (-1) by lia. simpl.
        rewrite <- HM. change (Z.pow_pos 2 1) with 2.
        rewrite Z.mul_comm, Z.div_mul by lia. lia.
    + rewrite <- HM.
      replace (- E) with (1 + (- (E + 1))) by lia.
      rewrite Z.pow_add_r by lia. change (2 ^ 1) with 2.
      rewrite Z.div_mul_cancel_l; [reflexivity | | lia].
      apply Z.pow_nonzero; lia.
Qed.

Lemma quotient_sandwich (a b M K n0 : Z) :
  0 < b -> 0 < K ->
  n0 * K <= M < n0 * K + K -> M / K = n0.
Proof.
  intros Hb HK H. symmetry. apply Z.div_unique with (r := M - K * n0); lia.
Qed.

Lemma floorQuot_positive (a b : Z) :
  0 < a < 2 ^ 53 -> 0 < b < 2 ^ 53 -> floorQuot a b = Returned (a / b).
Proof.
  intros Ha Hb.
  assert (Hamax : a <= maxInt) by (unfold maxInt; lia).
  destruct (Prim2SF_float64_pos a Ha) as (ma & ea & Hfa & Hha).
  destruct (Prim2SF_float64_pos b Hb) as (mb & eb & Hfb & Hhb).
  destruct (Prim2SF_div_holds a b false false ma ea mb eb a b Hfa Hha Hfb Hhb)
    as (mf & ef & M & sh & Hres & Hval & Hcase).
  pose proof (holds_range _ _ _ Hha) as Hra.
  pose proof (holds_range _ _ _ Hhb) as Hrb.
  destruct Hha as (_ & Hea & Hma). destruct Hhb as (_ & Heb & Hmb).
  unfold floorQuot. rewrite (intFloor_finite _ _ _ _ Hres). cbv zeta. simpl xorb. cbv iota.
  assert (Hsh : sh = 0 \/ sh = 1) by (destruct Hcase as [[-> _] | [-> _]]; auto).
  assert (HE : ea - eb - 53 + sh <= 0) by lia.
  rewrite (floor_of_value mf ef M (ea - eb - 53 + sh) HE)
    by (destruct Hval as [[? ?] | [? ?]]; [left | right]; split; lia).
  set (K := 2 ^ (- (ea - eb - 53 + sh))).
  set (Pa := 2 ^ (- ea)) in *. set (Pb := 2 ^ (- eb)) in *.
  set (T := 2 ^ 53) in *.
  assert (HPa : 1 <= Pa) by (unfold Pa; pose proof (Z.pow_pos_nonneg 2 (- ea)); lia).
  assert (HPb : 1 <= Pb) by (unfold Pb; pose proof (Z.pow_pos_nonneg 2 (- eb)); lia).
  assert (HK : 1 <= K) by (unfold K; pose proof (Z.pow_pos_nonneg 2 (- (ea - eb - 53 + sh))); lia).
  assert (HKP : 2 ^ sh * K * Pb = T * Pa).
  { unfold K, Pb, T, Pa. rewrite <- !Z.pow_add_r by lia. f_equal. lia. }
  set (q := Z.pos ma * T / Z.pos mb) in *.
  set (r := Z.pos ma * T mod Z.pos mb) in *.
  assert (Hdiv : Z.pos ma * T = Z.pos mb * q + r) by (apply Z.div_mod; lia).
  assert (Hr : 0 <= r < Z.pos mb) by (apply Z.mod_pos_bound; lia).
  pose proof (Z.div_mod a b ltac:(lia)) as Hn0.
  pose proof (Z.mod_pos_bound a b ltac:(lia)) as Hrho.
  set (n0 := a / b) in *. set (rho := a mod b) in *.
  assert (Hn0pos : 0 <= n0) by (apply Z.div_pos; lia).
  assert (HT : Z.pos mb < T) by lia.
  rewrite Hma, Hmb in *.
  clearbody K Pa Pb T q r n0 rho. clear Hfa Hfb Hres Hval Hra Hrb Hea Heb HE Hma Hmb.
  assert (Hfloor : M / K = n0).
  { apply (quotient_sandwich a b); [lia | lia |].
    destruct Hcase as [(-> & HM) | (-> & HM)].
    - change (2 ^ 0) with 1 in HKP.
      (* r is a multiple of Pb *)
      assert (Hr' : r = Pb * (a * K - b * q)) by nia.
      set (r' := a * K - b * q) in *.
      assert (Hr'b : 0 <= r' < b) by nia.
      assert (HbK : b < K) by nia.
      assert (Heq : b * (q - n0 * K) = rho * K - r') by (unfold r'; nia).
      destruct HM as [-> | [-> Hhalf]].
      + split; nia.
      + assert (Hh : b <= 2 * r') by nia.
        split; nia.
    - change (2 ^ 1) with 2 in HKP.
      assert (Hr' : r = Pb * (2 * a * K - b * q)) by nia.
      set (r' := 2 * a * K - b * q) in *.
      assert (Hr'b : 0 <= r' < b) by nia.
      assert (HbK : b < 2 * K) by nia.
      pose proof (Z.div_mod q 2 ltac:(lia)) as Hq2.
      pose proof (Z.mod_pos_bound q 2 ltac:(lia)) as Hbeta.
      set (p := q / 2) in *. set (beta := q mod 2) in *.
      assert (Heq : 2 * b * (p - n0 * K) = 2 * rho * K - b * beta - r')
        by (unfold r'; nia).
      destruct HM as [-> | [-> Hodd]].
      + split; nia.
      + assert (Hb1 : beta = 1).
        { unfold beta. rewrite Zmod_odd, Hodd. reflexivity. }
        split; nia. }
  rewrite Hfloor.
  assert (Hn0le : n0 <= a) by nia.
  replace ((minInt <=? n0) && (n0 <=? maxInt)) with true; [reflexivity |].
  symmetry. apply andb_true_iff. unfold minInt.
  split; apply Z.leb_le; lia.
Qed.

Lemma floorQuot_negative_divisor (a b : Z) :
  0 <= a < 2 ^ 53 -> - 2 ^ 53 < b < 0 ->
  exists n, floorQuot a b = Returned n /\ n <= 0.
Proof.
  intros Ha Hb.
  destruct (Prim2SF_float64_neg b Hb) as (mb & eb & Hfb & Hhb).
  destruct (Z.eq_dec a 0) as [-> | Hne].
  - exists 0. split; [| lia].
    unfold floorQuot, intFloor.
    rewrite div_spec. unfold SF64div. rewrite Prim2SF_float64_zero, Hfb. reflexivity.
  - destruct (Prim2SF_float64_pos a ltac:(lia)) as (ma & ea & Hfa & Hha).
    destruct (Prim2SF_div_holds a b false true ma ea mb eb a (- b) Hfa Hha Hfb Hhb)
      as (mf & ef & M & sh & Hres & Hval & Hcase).
    destruct Hha as (_ & Hea & _). destruct Hhb as (_ & Heb & _).
    assert (Hsh : sh = 0 \/ sh = 1) by (destruct Hcase as [[-> _] | [-> _]]; auto).
    assert (HM : 0 < M <= 2 ^ 54).
    { pose proof (digits2_pos_bounds mf) as Hd.
      assert (Hv : Z.pos (digits2_pos mf) = 53).
      { pose proof (Prim2SF_valid (PrimFloat.div (float64 a) (float64 b))) as Hvalid.
        rewrite Hres in Hvalid.
        unfold SpecFloat.valid_binary, bounded, canonical_mantissa in Hvalid.
        apply andb_true_iff in Hvalid. destruct Hvalid as [Hc _].
        apply Z.eqb_eq in Hc. unfold fexp, emin, prec, emax in Hc. lia. }
      rewrite Hv in Hd. change (2 ^ (53 - 1)) with 4503599627370496 in Hd.
      change (2 ^ 53) with 9007199254740992 in Hd. change (2 ^ 54) with 18014398509481984.
      destruct Hval as [[<- _] | [<- _]]; lia. }
    unfold floorQuot. rewrite (intFloor_finite _ _ _ _ Hres). cbv zeta. simpl xorb. cbv iota.
    set (n := if 0 <=? ef then Z.neg mf * 2 ^ ef else Z.neg mf / 2 ^ (- ef)).
    assert (Hn : - 2 ^ 55 <= n <= 0).
    { change (2 ^ 54) with 18014398509481984 in HM.
      change (2 ^ 55) with 36028797018963968.
      assert (Hmf : 0 < Z.pos mf <= 18014398509481984)
        by (destruct Hval as [[? _] | [? _]]; lia).
      unfold n. destruct (Z.leb_spec 0 ef) as [Hef | Hef].
      - assert (Hef' : ef = 0 \/ ef = 1) by (destruct Hval as [[_ ?] | [_ ?]]; lia).
        destruct Hef' as [-> | ->]; simpl Z.pow; lia.
      - assert (Hp : 0 < 2 ^ (- ef)) by (apply Z.pow_pos_nonneg; lia).
        pose proof (Z.div_mod (Z.neg mf) (2 ^ (- ef)) ltac:(lia)) as Hdm.
        pose proof (Z.mod_pos_bound (Z.neg mf) (2 ^ (- ef)) Hp) as Hmod.
        revert Hp Hdm Hmod. generalize (2 ^ (- ef)). intros P HP Hdm Hmod.
        split; nia. }
    exists n. split; [| lia].
    replace ((minInt <=? n) && (n <=? maxInt)) with true; [reflexivity |].
    symmetry. apply andb_true_iff. unfold minInt, maxInt.
    change (2 ^ 55) with 36028797018963968 in Hn.
    split; apply Z.leb_le; lia.
Qed.

(** ** Windows: lemmas *)

Section WindowFacts.

Context {A : Type}.
Implicit Types (l r : list A) (wins : list (list A)).

Lemma windowsOf_length (n wsn : nat) l : length (windowsOf n wsn l) = n.
Proof. revert l; induction n; intros l; simpl; [reflexivity | now rewrite IHn]. Qed.

Lemma windowsOf_sized (n wsn : nat) l :
  (n * wsn <= length l)%nat ->
  Forall (fun w => length w = wsn) (windowsOf n wsn l).
Proof.
  revert l; induction n; intros l H; simpl; constructor.
  - rewrite length_firstn. simpl in H. lia.
  - apply IHn. rewrite length_skipn. simpl in H. lia.
Qed.

Lemma windowsOf_concat (n wsn : nat) l :
  concat (windowsOf n wsn l) = firstn (n * wsn) l.
Proof.
  revert l; induction n; intros l; simpl; [reflexivity |].
  rewrite IHn.
  rewrite <- (firstn_skipn wsn l) at 3.
  destruct (Nat.le_gt_cases wsn (length l)) as [Hle | Hgt].
  - rewrite firstn_app, length_firstn, Nat.min_l by exact Hle.
    replace (wsn + n * wsn - wsn)%nat with (n * wsn)%nat by lia.
    rewrite (firstn_all2 (n := (wsn + n * wsn)%nat)); [reflexivity |].
    rewrite length_firstn; lia.
  - rewrite (skipn_all2 (n := wsn)) by lia.
    rewrite firstn_nil, !app_nil_r.
    rewrite (firstn_all2 (n := (wsn + n * wsn)%nat)); [reflexivity |].
    rewrite length_firstn; lia.
Qed.

Lemma windowsOf_plus (a b wsn : nat) l :
  windowsOf (a + b) wsn l = windowsOf a wsn l ++ windowsOf b wsn (skipn (a * wsn) l).
Proof.
  revert l; induction a; intros l; simpl; [reflexivity |].
  rewrite IHa, skipn_skipn.
  replace (a * wsn + wsn)%nat with (wsn + a * wsn)%nat by lia. reflexivity.
Qed.

Lemma concat_sized_length (wsn : nat) wins :
  Forall (fun w => length w = wsn) wins ->
  length (concat wins) = (length wins * wsn)%nat.
Proof.
  induction 1 as [| w wins Hw _ IH]; simpl; [reflexivity |].
  rewrite length_app, IH, Hw. reflexivity.
Qed.

Lemma firstn_sized (wsn t : nat) wins r :
  Forall (fun w => length w = wsn) wins -> (t <= length wins)%nat ->
  firstn (t * wsn) (concat wins ++ r) = concat (firstn t wins).
Proof.
  intros Hs. revert t; induction Hs as [| w wins Hw _ IH]; intros t Ht; simpl in *.
  - replace t with O by lia. reflexivity.
  - destruct t as [| t]; [reflexivity |]. simpl.
    rewrite <- app_assoc, firstn_app, Hw.
    rewrite firstn_all2 by lia.
    replace (wsn + t * wsn - wsn)%nat with (t * wsn)%nat by lia.
    rewrite IH by lia. reflexivity.
Qed.

Lemma skipn_sized (wsn t : nat) wins r :
  Forall (fun w => length w = wsn) wins -> (t <= length wins)%nat ->
  skipn (t * wsn) (concat wins ++ r) = concat (skipn t wins) ++ r.
Proof.
  intros Hs. revert t; induction Hs as [| w wins Hw _ IH]; intros t Ht; simpl in *.
  - replace t with O by lia. reflexivity.
  - destruct t as [| t]; [reflexivity |]. simpl.
    rewrite <- app_assoc, skipn_app, Hw.
    rewrite skipn_all2 by lia.
    replace (wsn + t * wsn - wsn)%nat with (t * wsn)%nat by lia.
    rewrite IH by lia. reflexivity.
Qed.

Lemma windowsOf_sized_app (wsn : nat) wins r :
  Forall (fun w => length w = wsn) wins ->
  windowsOf (length wins) wsn (concat wins ++ r) = wins.
Proof.
  induction 1 as [| w wins Hw _ IH]; simpl; [reflexivity |].
  rewrite <- app_assoc, firstn_app, skipn_app, Hw, Nat.sub_diag.
  rewrite firstn_all2, skipn_all2 by lia.
  simpl. rewrite app_nil_r, IH. reflexivity.
Qed.

Lemma windows_split (n wsn : nat) l :
  l = concat (windowsOf n wsn l) ++ skipn (n * wsn) l.
Proof. rewrite windowsOf_concat. symmetry. apply firstn_skipn. Qed.

Lemma Forall_skipn (P : list A -> Prop) (t : nat) wins :
  Forall P wins -> Forall P (skipn t wins).
Proof.
  intros H. revert t; induction H; intros [| t]; simpl; auto.
Qed.

Lemma Forall_firstn (P : list A -> Prop) (t : nat) wins :
  Forall P wins -> Forall P (firstn t wins).
Proof.
  intros H. revert t; induction H; intros [| t]; simpl; auto.
Qed.

Lemma cutWindows_concat (cuts : list nat) wins :
  concat (map (@concat A) (cutWindows cuts wins)) ++ concat (skipn (list_sum cuts) wins)
  = concat wins.
Proof.
  revert wins; induction cuts as [| t cuts IH]; intros wins; simpl; [reflexivity |].
  rewrite <- app_assoc.
  replace (skipn (t + list_sum cuts) wins) with (skipn (list_sum cuts) (skipn t wins))
    by (rewrite skipn_skipn; f_equal; lia).
  rewrite IH, <- concat_app, firstn_skipn. reflexivity.
Qed.

Lemma cutWindows_app (cuts1 cuts2 : list nat) wins :
  cutWindows (cuts1 ++ cuts2) wins
  = cutWindows cuts1 wins ++ cutWindows cuts2 (skipn (list_sum cuts1) wins).
Proof.
  revert wins; induction cuts1 as [| t cuts1 IH]; intros wins; simpl; [reflexivity |].
  rewrite IH, skipn_skipn.
  replace (list_sum cuts1 + t)%nat with (t + list_sum cuts1)%nat by lia. reflexivity.
Qed.

End WindowFacts.

(** ** The plan of a call: lemmas *)

Lemma planScan_some (gate : nat -> bool) (fuel : nat) :
  forall (flags : list bool) (i cnt : nat),
    (length flags - i <= fuel)%nat ->
    exists r, planScan gate fuel flags i cnt = Some r.
Proof.
  induction fuel as [| fuel IH]; intros flags i cnt Hf; simpl.
  - replace (i <? length flags)%nat with false by (symmetry; apply Nat.ltb_ge; lia).
    eauto.
  - destruct (i <? length flags)%nat eqn:Hi; [| eauto].
    apply Nat.ltb_lt in Hi.
    destruct (nth_error flags i) as [[|] |] eqn:Hn.
    + apply IH. lia.
    + destruct (gate cnt).
      * destruct (IH (skipn (i - cnt) flags) (S i) O) as [[[i' cnt'] cuts] ->].
        { rewrite length_skipn. lia. }
        eauto.
      * apply IH. lia.
    + apply nth_error_None in Hn. lia.
Qed.

Lemma planScan_facts (gate : nat -> bool) (fuel : nat) :
  forall (flags : list bool) (i cnt i' cnt' : nat) (cuts : list nat),
    planScan gate fuel flags i cnt = Some (i', cnt', cuts) ->
    (cnt < i)%nat -> (0 < cnt -> i <= length flags)%nat ->
    Forall (fun t => 1 <= t)%nat cuts /\
    (list_sum cuts <= length flags)%nat /\
    (cnt' < i')%nat /\
    (length flags - list_sum cuts <= i')%nat /\
    (0 < cnt' -> i' <= length flags - list_sum cuts)%nat /\
    (i' <= Nat.max i (length flags))%nat.
Proof.
  induction fuel as [| fuel IH]; intros flags i cnt i' cnt' cuts; simpl.
  - destruct (i <? length flags)%nat eqn:Hi; [discriminate |].
    apply Nat.ltb_ge in Hi. intros [= <- <- <-] Hc Hl. simpl.
    repeat split; try lia. constructor.
  - destruct (i <? length flags)%nat eqn:Hi.
    + apply Nat.ltb_lt in Hi.
      destruct (nth_error flags i) as [[|] |] eqn:Hn; [| | discriminate].
      * intros H Hc Hl. apply IH in H; [| lia | lia].
        destruct H as (H1 & H2 & H3 & H4 & H5 & H6).
        repeat split; try lia. exact H1.
      * destruct (gate cnt).
        -- destruct (planScan gate fuel (skipn (i - cnt) flags) (S i) 0)
             as [[[i2 cnt2] cuts2] |] eqn:Hrec; [| discriminate].
           intros [= <- <- <-] Hc Hl.
           apply IH in Hrec; [| lia | lia].
           rewrite length_skipn in Hrec. simpl.
           destruct Hrec as (H1 & H2 & H3 & H4 & H5 & H6).
           repeat split; try lia. constructor; [lia | exact H1].
        -- intros H Hc Hl. apply IH in H; [| lia | lia].
           destruct H as (H1 & H2 & H3 & H4 & H5 & H6).
           repeat split; try lia. exact H1.
    + apply Nat.ltb_ge in Hi. intros [= <- <- <-] Hc Hl. simpl.
      repeat split; try lia. constructor.
Qed.

Lemma silentFlags_length lv thr : length (silentFlags lv thr) = length lv.
Proof. apply length_map. Qed.

Lemma silentFlags_skipn lv thr t :
  silentFlags (skipn t lv) thr = skipn t (silentFlags lv thr).
Proof. unfold silentFlags. symmetry. apply skipn_map. Qed.

Lemma silentFlags_nth lv thr i :
  nth_error (silentFlags lv thr) i =
  option_map (fun l => PrimFloat.ltb l thr) (nth_error lv i).
Proof. unfold silentFlags. apply nth_error_map. Qed.

Lemma process_not_gated d ws (i : Z) (cnt : nat) vs :
  gateOf (c d) cnt = false ->
  processSilencesInTheMiddle d ws i (Z.of_nat cnt) vs = Returned (d, vs).
Proof.
  unfold gateOf, processSilencesInTheMiddle. intros ->. reflexivity.
Qed.

Section Steps.

Variable cfg : SilenceDetectorConfiguration.
Variable wsn : nat.
Variable rest : list int32.
Hypothesis wsn_pos : (1 <= wsn)%nat.

Local Abbreviation sized := (Forall (fun w : list int32 => length w = wsn)).

Lemma process_paired lv wins (i cnt : nat) vs :
  sized wins -> length lv = length wins ->
  (cnt < i)%nat -> (i - cnt <= length wins)%nat ->
  Z.of_nat i * Z.of_nat wsn <= maxInt ->
  processSilencesInTheMiddle (paired cfg lv wins rest) (Z.of_nat wsn)
                             (Z.of_nat i) (Z.of_nat cnt) vs =
  if gateOf cfg cnt
  then Returned (paired cfg (skipn (i - cnt) lv) (skipn (i - cnt) wins) rest,
                 vs ++ [concat (firstn (i - cnt) wins)])
  else Returned (paired cfg lv wins rest, vs).
Proof.
  intros Hs Hl Hc Ht Hb.
  unfold processSilencesInTheMiddle, gateOf. simpl c.
  destruct (tooManySilences cfg (Z.of_nat cnt)); [| reflexivity].
  assert (Hsub : Go.sub (Z.of_nat i) (Z.of_nat cnt) = Z.of_nat (i - cnt)).
  { rewrite sub_small; unfold minInt, maxInt in *; nia. }
  rewrite Hsub.
  assert (Hmul : Go.mul (Z.of_nat (i - cnt)) (Z.of_nat wsn) = Z.of_nat ((i - cnt) * wsn)).
  { rewrite mul_small; unfold minInt, maxInt in *; nia. }
  rewrite Hmul. simpl samples. simpl audioLevels.
  assert (Hlen : ((i - cnt) * wsn <= length (concat wins ++ rest))%nat).
  { rewrite length_app, (concat_sized_length wsn) by exact Hs. nia. }
  rewrite makeCopy_nat by exact Hlen. simpl.
  rewrite sliceFrom_nat by lia. simpl.
  rewrite sliceFrom_nat by exact Hlen. simpl.
  rewrite firstn_sized, skipn_sized by assumption.
  reflexivity.
Qed.

Lemma process_paired_beyond lv wins (i cnt : nat) vs :
  sized wins -> length lv = length wins ->
  (cnt < i)%nat -> (length wins < i - cnt)%nat ->
  Z.of_nat i * Z.of_nat wsn <= maxInt ->
  gateOf cfg cnt = true ->
  exists f,
    processSilencesInTheMiddle (paired cfg lv wins rest) (Z.of_nat wsn)
                               (Z.of_nat i) (Z.of_nat cnt) vs = Stopped f /\
    (f = SliceBounds \/ f = BeyondLen).
Proof.
  intros Hs Hl Hc Ht Hb Hg.
  unfold processSilencesInTheMiddle. unfold gateOf in Hg. simpl c. rewrite Hg.
  assert (Hsub : Go.sub (Z.of_nat i) (Z.of_nat cnt) = Z.of_nat (i - cnt)).
  { rewrite sub_small; unfold minInt, maxInt in *; nia. }
  rewrite Hsub.
  assert (Hmul : Go.mul (Z.of_nat (i - cnt)) (Z.of_nat wsn) = Z.of_nat ((i - cnt) * wsn)).
  { rewrite mul_small; unfold minInt, maxInt in *; nia. }
  rewrite Hmul. simpl samples. simpl audioLevels.
  destruct (Nat.le_gt_cases ((i - cnt) * wsn) (length (concat wins ++ rest))) as [Hle | Hgt].
  - rewrite makeCopy_nat by exact Hle. simpl.
    rewrite sliceFrom_beyond by lia. simpl. eauto.
  - rewrite makeCopy_beyond by exact Hgt. simpl. eauto.
Qed.

Lemma scanMiddle_plan thr (N : nat) (HN : Z.of_nat N * Z.of_nat wsn <= maxInt) (fuel : nat) :
  forall lv wins (i cnt : nat) vs (i' cnt' : nat) (cuts : list nat),
    sized wins -> length lv = length wins ->
    (cnt < i)%nat -> (length wins <= N)%nat -> (i <= N)%nat ->
    planScan (gateOf cfg) fuel (silentFlags lv thr) i cnt = Some (i', cnt', cuts) ->
    scanMiddle fuel (paired cfg lv wins rest) (Z.of_nat wsn) thr
               (Z.of_nat i) (Z.of_nat cnt) vs =
    Returned (paired cfg (skipn (list_sum cuts) lv) (skipn (list_sum cuts) wins) rest,
              Z.of_nat i', Z.of_nat cnt', vs ++ map (@concat _) (cutWindows cuts wins)).
Proof.
  induction fuel as [| fuel IH]; intros lv wins i cnt vs i' cnt' cuts Hs Hl Hc HwN HiN;
    simpl planScan; simpl scanMiddle; unfold len; simpl audioLevels;
    rewrite silentFlags_length;
    replace (Z.of_nat i <? Z.of_nat (length lv)) with (i <? length lv)%nat
      by (destruct (Nat.ltb_spec i (length lv)); symmetry;
          [apply Z.ltb_lt | apply Z.ltb_ge]; lia).
  - destruct (i <? length lv)%nat; [discriminate |].
    intros [= <- <- <-]. simpl. now rewrite app_nil_r.
  - destruct (i <? length lv)%nat eqn:Hi.
    + apply Nat.ltb_lt in Hi.
      rewrite Nat2Z.id, silentFlags_nth.
      destruct (nth_error lv i) as [l |]; simpl; [| discriminate].
      replace (Z.of_nat i + 1) with (Z.of_nat (S i)) by lia.
      destruct (PrimFloat.ltb l thr).
      * replace (Z.of_nat cnt + 1) with (Z.of_nat (S cnt)) by lia.
        apply IH; try assumption; lia.
      * rewrite process_paired by (try assumption; nia).
        destruct (gateOf cfg cnt).
        -- destruct (planScan (gateOf cfg) fuel (skipn (i - cnt) (silentFlags lv thr)) (S i) 0)
             as [[[i2 cnt2] cuts2] |] eqn:Hrec; [| discriminate].
           intros [= <- <- <-]. simpl Go.bind.
           rewrite <- silentFlags_skipn in Hrec.
           change 0 with (Z.of_nat 0).
           assert (Hs' : sized (skipn (i - cnt) wins)) by now apply Forall_skipn.
           assert (Hl' : length (skipn (i - cnt) lv) = length (skipn (i - cnt) wins))
             by (rewrite !length_skipn; lia).
           assert (HwN' : (length (skipn (i - cnt) wins) <= N)%nat)
             by (rewrite length_skipn; lia).
           rewrite (IH _ _ (S i) O _ _ _ _ Hs' Hl' ltac:(lia) HwN' ltac:(lia) Hrec).
           simpl. rewrite !skipn_skipn, <- app_assoc. simpl.
           replace (list_sum cuts2 + (i - cnt))%nat with (i - cnt + list_sum cuts2)%nat by lia.
           reflexivity.
        -- simpl Go.bind. change 0 with (Z.of_nat 0).
           apply IH; try assumption; lia.
    + intros [= <- <- <-]. simpl. now rewrite app_nil_r.
Qed.

End Steps.

Lemma leadingSilences_le flags : (leadingSilences flags <= length flags)%nat.
Proof. induction flags as [| [|] flags IH]; simpl; lia. Qed.

Lemma countSilencesAtStart_flags lv thr :
  countSilencesAtStart lv thr = Z.of_nat (leadingSilences (silentFlags lv thr)).
Proof.
  induction lv as [| l lv IH]; [reflexivity |].
  unfold silentFlags in *. cbn [countSilencesAtStart map].
  destruct (PrimFloat.ltb l thr); cbn [leadingSilences]; [| reflexivity].
  rewrite Nat2Z.inj_succ, IH. lia.
Qed.

Section Stages.

Variable AudioLevel : list int32 -> float.
Variable wsn : nat.
Hypothesis wsn_pos : (1 <= wsn)%nat.

Local Abbreviation sized := (Forall (fun w : list int32 => length w = wsn)).

Lemma computeAudioLevels_windows (L : nat) smp (n : nat) :
  len smp <= maxInt ->
  forall (i : nat) lv,
    ((L + i + n) * wsn <= length smp)%nat ->
    computeAudioLevels AudioLevel n smp (Z.of_nat wsn) (Z.of_nat L * Z.of_nat wsn)
                       (Z.of_nat i) lv =
    Returned (lv ++ map AudioLevel (windowsOf n wsn (skipn ((L + i) * wsn) smp))).
Proof.
  intros Hmax. unfold len in Hmax.
  induction n as [| n IH]; intros i lv Hb; simpl.
  - now rewrite app_nil_r.
  - assert (Hstart : Go.add (Z.of_nat L * Z.of_nat wsn) (Go.mul (Z.of_nat i) (Z.of_nat wsn))
                     = Z.of_nat ((L + i) * wsn)).
    { rewrite mul_small by (unfold minInt, maxInt in *; nia).
      rewrite add_small by (unfold minInt, maxInt in *; nia). nia. }
    rewrite Hstart.
    assert (Hend : Go.add (Z.of_nat ((L + i) * wsn)) (Z.of_nat wsn)
                   = Z.of_nat ((L + i) * wsn + wsn)).
    { rewrite add_small by (unfold minInt, maxInt in *; nia). nia. }
    rewrite Hend.
    rewrite slice_nat by nia. simpl.
    replace ((L + i) * wsn + wsn - (L + i) * wsn)%nat with wsn by lia.
    replace (Z.of_nat i + 1) with (Z.of_nat (S i)) by lia.
    rewrite IH by nia.
    rewrite <- app_assoc. simpl. rewrite skipn_skipn.
    replace ((L + S i) * wsn)%nat with (wsn + (L + i) * wsn)%nat by lia.
    reflexivity.
Qed.

Lemma keepOneSilenceAtStart_paired lv wins rest thr :
  sized wins -> length lv = length wins ->
  Z.of_nat (length wins) * Z.of_nat wsn <= maxInt ->
  keepOneSilenceAtStart lv (concat wins ++ rest) (Z.of_nat wsn)
                        (countSilencesAtStart lv thr) =
  Returned (skipn (prunedWindows (silentFlags lv thr)) lv,
            concat (skipn (prunedWindows (silentFlags lv thr)) wins) ++ rest).
Proof.
  intros Hs Hl Hb.
  unfold keepOneSilenceAtStart, prunedWindows.
  rewrite countSilencesAtStart_flags.
  pose proof (leadingSilences_le (silentFlags lv thr)) as Hk.
  rewrite silentFlags_length in Hk.
  set (k := leadingSilences (silentFlags lv thr)) in *.
  destruct (Z.ltb_spec 1 (Z.of_nat k)) as [Hk1 | Hk1].
  - assert (Hsub : Go.sub (Z.of_nat k) 1 = Z.of_nat (Nat.pred k)).
    { rewrite sub_small; unfold minInt, maxInt in *; nia. }
    rewrite Hsub.
    assert (Hmul : Go.mul (Z.of_nat (Nat.pred k)) (Z.of_nat wsn)
                   = Z.of_nat (Nat.pred k * wsn)).
    { rewrite mul_small; unfold minInt, maxInt in *; nia. }
    rewrite Hmul.
    rewrite sliceFrom_nat by lia. simpl.
    rewrite sliceFrom_nat.
    + simpl. rewrite skipn_sized by (try assumption; lia). reflexivity.
    + rewrite length_app, (concat_sized_length wsn) by exact Hs. nia.
  - replace (Nat.pred k) with O by lia. reflexivity.
Qed.

End Stages.

Section AddPlan.

Variable AudioLevel : list int32 -> float.

Lemma Add_early d newSamples sampleRate thr ws :
  audioLevelAnalysisSamplesCount sampleRate (StepDuration (c d)) = Returned ws ->
  len (samples d ++ newSamples) <= maxInt ->
  Go.sub (len (samples d ++ newSamples)) (Go.mul (len (audioLevels d)) ws) < ws ->
  Add AudioLevel d newSamples sampleRate thr =
  Returned ({| audioLevels := audioLevels d; c := c d; samples := samples d ++ newSamples |}, []).
Proof.
  intros Hws Hmax Hlt. unfold Add, append.
  apply Z.leb_le in Hmax. rewrite Hmax. simpl Go.bind.
  rewrite Hws. simpl Go.bind. cbv zeta.
  apply Z.ltb_lt in Hlt. rewrite Hlt. reflexivity.
Qed.

Lemma Add_plan_nat d newSamples sampleRate thr (wsn n : nat) :
  let smp := samples d ++ newSamples in
  let L := length (audioLevels d) in
  let wins := windowsOf (L + n) wsn smp in
  let rest := skipn ((L + n) * wsn) smp in
  let lv := audioLevels d ++ map AudioLevel (skipn L wins) in
  audioLevelAnalysisSamplesCount sampleRate (StepDuration (c d)) = Returned (Z.of_nat wsn) ->
  (1 <= wsn)%nat -> (1 <= n)%nat ->
  len smp <= maxInt ->
  len smp - len (audioLevels d) * Z.of_nat wsn < 2 ^ 53 ->
  ((L + n) * wsn <= length smp < (L + n + 1) * wsn)%nat ->
  match planAdd (gateOf (c d)) (silentFlags lv thr) with
  | Some (p, cuts) =>
      Add AudioLevel d newSamples sampleRate thr =
      Returned (paired (c d) (skipn (p + list_sum cuts) lv) (skipn (p + list_sum cuts) wins) rest,
                map (@concat _) (cutWindows cuts (skipn p wins)))
  | None =>
      exists f, Add AudioLevel d newSamples sampleRate thr = Stopped f /\
                (f = SliceBounds \/ f = BeyondLen)
  end.
Proof.
  intros smp L wins rest lv Hws Hpos Hn Hmax Hfloat Hb.
  assert (Hmax' : Z.of_nat (length smp) <= 2 ^ 63 - 1) by exact Hmax.
  assert (Hfloat' : Z.of_nat (length smp) - Z.of_nat L * Z.of_nat wsn < 2 ^ 53)
    by exact Hfloat.
  assert (Hsized : Forall (fun w : list int32 => length w = wsn) wins).
  { apply windowsOf_sized. lia. }
  assert (Hlw : length wins = (L + n)%nat) by apply windowsOf_length.
  assert (Hll : length lv = length wins).
  { unfold lv. rewrite length_app, length_map, length_skipn. fold L. lia. }
  assert (Hsplit : smp = concat wins ++ rest) by apply windows_split.
  assert (HN : Z.of_nat (L + n) * Z.of_nat wsn <= maxInt).
  { unfold maxInt. nia. }
  (* the prologue of the call *)
  assert (Hpre : Add AudioLevel d newSamples sampleRate thr =
    ('(levels, smp') <- keepOneSilenceAtStart lv smp (Z.of_nat wsn)
                          (countSilencesAtStart lv thr) ;;
     let d1 := {| audioLevels := levels; c := c d; samples := smp' |} in
     if len levels <=? 1 then Returned (d1, [])
     else
       '(d2, i, silencesCount, validSamples) <-
          scanMiddle (length levels) d1 (Z.of_nat wsn) thr 1 0 [] ;;
       processSilencesInTheMiddle d2 (Z.of_nat wsn) i silencesCount validSamples)).
  { unfold Add, append. fold smp.
    replace (len smp <=? maxInt) with true
      by (symmetry; apply Z.leb_le; exact Hmax).
    simpl Go.bind. rewrite Hws. simpl Go.bind. cbv zeta.
    unfold len. fold L.
    rewrite mul_small by (unfold minInt, maxInt; nia).
    rewrite sub_small by (unfold minInt, maxInt; nia).
    replace (Z.of_nat (length smp) - Z.of_nat L * Z.of_nat wsn <? Z.of_nat wsn) with false
      by (symmetry; apply Z.ltb_ge; nia).
    assert (Hq : (Z.of_nat (length smp) - Z.of_nat L * Z.of_nat wsn) / Z.of_nat wsn
                 = Z.of_nat n).
    { symmetry.
      apply Z.div_unique
        with (r := Z.of_nat (length smp) - Z.of_nat L * Z.of_nat wsn
                   - Z.of_nat wsn * Z.of_nat n); [left |]; nia. }
    rewrite floorQuot_positive by (split; nia).
    simpl Go.bind. rewrite Hq, Nat2Z.id.
    change 0 with (Z.of_nat 0) at 1.
    rewrite computeAudioLevels_windows;
      [| exact Hpos | unfold len, maxInt; lia | lia].
    simpl Go.bind.
    replace (windowsOf n wsn (skipn ((L + 0) * wsn) smp)) with (skipn L wins).
    - reflexivity.
    - unfold wins. rewrite windowsOf_plus, skipn_app, windowsOf_length, Nat.sub_diag.
      rewrite skipn_all2 by (rewrite windowsOf_length; lia).
      simpl. now rewrite Nat.add_0_r. }
  rewrite Hpre. clear Hpre.
  clearbody lv wins rest smp.
  rewrite Hsplit.
  rewrite (keepOneSilenceAtStart_paired wsn Hpos) by (try assumption; rewrite Hlw; exact HN).
  simpl Go.bind. cbv zeta.
  unfold planAdd.
  set (p := prunedWindows (silentFlags lv thr)).
  rewrite <- silentFlags_skipn, silentFlags_length.
  unfold len.
  replace (Z.of_nat (length (skipn p lv)) <=? 1) with (length (skipn p lv) <=? 1)%nat
    by (destruct (Nat.leb_spec (length (skipn p lv)) 1); symmetry;
        [apply Z.leb_le | apply Z.leb_gt]; lia).
  destruct (length (skipn p lv) <=? 1)%nat eqn:Hshort.
  { rewrite Nat.add_0_r. reflexivity. }
  apply Nat.leb_gt in Hshort.
  assert (Hs2 : Forall (fun w : list int32 => length w = wsn) (skipn p wins))
    by now apply Forall_skipn.
  assert (Hl2 : length (skipn p lv) = length (skipn p wins))
    by (rewrite !length_skipn; lia).
  assert (Hw2 : (length (skipn p wins) <= L + n)%nat)
    by (rewrite length_skipn; lia).
  destruct (planScan_some (gateOf (c d)) (length (skipn p lv))
              (silentFlags (skipn p lv) thr) 1 0) as [[[i cnt] cuts] Hscan].
  { rewrite silentFlags_length. lia. }
  rewrite Hscan.
  pose proof (planScan_facts _ _ _ _ _ _ _ _ Hscan ltac:(lia) ltac:(lia))
    as (Hc1 & Hc2 & Hc3 & Hc4 & Hc5 & Hc6).
  rewrite silentFlags_length in Hc2, Hc4, Hc5, Hc6.
  fold (paired (c d) (skipn p lv) (skipn p wins) rest).
  assert (Hsc : scanMiddle (length (skipn p lv)) (paired (c d) (skipn p lv) (skipn p wins) rest)
                           (Z.of_nat wsn) thr 1 0 []
                = Returned (paired (c d) (skipn (list_sum cuts) (skipn p lv))
                                   (skipn (list_sum cuts) (skipn p wins)) rest,
                            Z.of_nat i, Z.of_nat cnt,
                            [] ++ map (@concat _) (cutWindows cuts (skipn p wins)))).
  { exact (scanMiddle_plan (c d) wsn rest Hpos thr (L + n) HN (length (skipn p lv))
             (skipn p lv) (skipn p wins) 1%nat 0%nat [] i cnt cuts
             Hs2 Hl2 ltac:(lia) Hw2 ltac:(lia) Hscan). }
  rewrite Hsc. clear Hsc.
  simpl Go.bind.
  assert (Hs3 : Forall (fun w : list int32 => length w = wsn)
                       (skipn (list_sum cuts) (skipn p wins)))
    by now apply Forall_skipn.
  assert (Hl3 : length (skipn (list_sum cuts) (skipn p lv))
                = length (skipn (list_sum cuts) (skipn p wins)))
    by (rewrite !length_skipn; lia).
  assert (Hi : Z.of_nat i * Z.of_nat wsn <= maxInt) by (unfold maxInt in *; nia).
  destruct (gateOf (c d) cnt) eqn:Hgate.
  - destruct (Nat.leb_spec (i - cnt) (length (skipn p lv) - list_sum cuts)) as [Hfit | Hfit].
    + rewrite process_paired; try assumption.
      * rewrite Hgate. simpl app.
        rewrite list_sum_app, cutWindows_app, map_app. simpl.
        rewrite Nat.add_0_r, !skipn_skipn.
        replace (i - cnt + list_sum cuts + p)%nat with (p + (list_sum cuts + (i - cnt)))%nat
          by lia.
        reflexivity.
      * rewrite length_skipn. lia.
    + apply process_paired_beyond; try assumption.
      rewrite length_skipn. lia.
  - rewrite process_not_gated by exact Hgate.
    rewrite !skipn_skipn. simpl app.
    replace (list_sum cuts + p)%nat with (p + list_sum cuts)%nat by lia.
    reflexivity.
Qed.

End AddPlan.

Section MoreWindows.

Context {A : Type}.
Implicit Types (l r : list A) (wins : list (list A)).

Lemma windowsOf_nth (n wsn i : nat) l :
  (i < n)%nat ->
  nth_error (windowsOf n wsn l) i = Some (firstn wsn (skipn (i * wsn) l)).
Proof.
  revert l i; induction n as [| n IH]; intros l i Hi; [lia |].
  destruct i as [| i]; simpl; [reflexivity |].
  rewrite IH by lia. rewrite skipn_skipn.
  replace (i * wsn + wsn)%nat with (wsn + i * wsn)%nat by lia. reflexivity.
Qed.

Lemma windowsOf_app_l (n wsn : nat) l r :
  (n * wsn <= length l)%nat -> windowsOf n wsn (l ++ r) = windowsOf n wsn l.
Proof.
  revert l; induction n as [| n IH]; intros l H; simpl in *; [reflexivity |].
  rewrite firstn_app, skipn_app.
  replace (wsn - length l)%nat with O by lia. simpl.
  rewrite app_nil_r, IH; [reflexivity |].
  rewrite length_skipn. lia.
Qed.

Lemma sized_nth (wsn i : nat) wins r (w : list A) :
  Forall (fun w => length w = wsn) wins ->
  nth_error wins i = Some w ->
  firstn wsn (skipn (i * wsn) (concat wins ++ r)) = w.
Proof.
  intros Hs Hw.
  assert (Hi : (i < length wins)%nat) by (apply nth_error_Some; congruence).
  rewrite skipn_sized by (try assumption; lia).
  destruct (nth_error_split _ _ Hw) as (l1 & l2 & -> & <-).
  rewrite skipn_app, Nat.sub_diag, skipn_all2 by lia. simpl.
  rewrite <- app_assoc, firstn_app.
  apply Forall_app in Hs. destruct Hs as [_ Hs]. inversion Hs as [| ? ? Hlw _]; subst.
  rewrite Nat.sub_diag. simpl. rewrite app_nil_r. apply firstn_all2. lia.
Qed.

End MoreWindows.

Lemma leadingSilences_true flags (j : nat) :
  (j < leadingSilences flags)%nat -> nth_error flags j = Some true.
Proof.
  revert j; induction flags as [| [|] flags IH]; intros j Hj; simpl in *; try lia.
  destruct j as [| j]; [reflexivity |]. apply IH. lia.
Qed.

Section LockStep.

Variable AudioLevel : list int32 -> float.

Lemma lockStep_windows (ws : Z) d :
  1 <= ws -> lockStep AudioLevel ws d ->
  audioLevels d
  = map AudioLevel (windowsOf (length (audioLevels d)) (Z.to_nat ws) (samples d)).
Proof.
  intros Hws [Hlen Hnth].
  apply nth_error_ext. intros i.
  destruct (Nat.lt_ge_cases i (length (audioLevels d))) as [Hi | Hi].
  - rewrite Hnth by exact Hi.
    rewrite nth_error_map, windowsOf_nth by exact Hi. reflexivity.
  - transitivity (@None float); [| symmetry]; apply nth_error_None.
    + exact Hi.
    + rewrite length_map, windowsOf_length. exact Hi.
Qed.

Lemma paired_lockStep (wsn : nat) cfg wins rest :
  Forall (fun w : list int32 => length w = wsn) wins ->
  lockStep AudioLevel (Z.of_nat wsn) (paired cfg (map AudioLevel wins) wins rest).
Proof.
  intros Hs. unfold lockStep, paired, len. simpl.
  rewrite length_map, length_app, (concat_sized_length wsn) by exact Hs.
  split; [nia |].
  intros i Hi. rewrite Nat2Z.id, nth_error_map.
  destruct (nth_error wins i) as [w |] eqn:Hw.
  - simpl. now rewrite (sized_nth wsn i wins rest w).
  - apply nth_error_None in Hw. lia.
Qed.

End LockStep.

Lemma gateOf_zero cfg : 0 < SilenceMinDuration cfg -> gateOf cfg 0 = false.
Proof.
  intros H. unfold gateOf, tooManySilences, Go.mul. simpl.
  apply Z.leb_gt. exact H.
Qed.

Lemma planAdd_facts gate flags p cuts :
  planAdd gate flags = Some (p, cuts) ->
  p = prunedWindows flags /\
  Forall (fun t => 1 <= t)%nat cuts /\
  (p + list_sum cuts <= length flags)%nat.
Proof.
  unfold planAdd.
  pose proof (leadingSilences_le flags) as Hk.
  assert (Hp : (prunedWindows flags <= length flags)%nat) by (unfold prunedWindows; lia).
  set (q := prunedWindows flags) in *.
  destruct (length (skipn q flags) <=? 1)%nat.
  - intros [= <- <-]. simpl. repeat split; try lia. constructor.
  - destruct (planScan gate (length (skipn q flags)) (skipn q flags) 1 0)
      as [[[i cnt] cs] |] eqn:Hscan; [| discriminate].
    pose proof (planScan_facts _ _ _ _ _ _ _ _ Hscan ltac:(lia) ltac:(lia))
      as (Hc1 & Hc2 & Hc3 & Hc4 & Hc5 & Hc6).
    rewrite length_skipn in *.
    destruct (gate cnt).
    + destruct (Nat.leb_spec (i - cnt) (length flags - q - list_sum cs)); [| discriminate].
      intros [= <- <-]. rewrite list_sum_app. simpl.
      repeat split; try lia.
      apply Forall_app. split; [exact Hc1 |]. constructor; [lia | constructor].
    + intros [= <- <-]. repeat split; try lia. exact Hc1.
Qed.

Lemma planAdd_total gate flags :
  gate O = false -> exists r, planAdd gate flags = Some r.
Proof.
  intros Hg. unfold planAdd.
  set (q := prunedWindows flags).
  destruct (length (skipn q flags) <=? 1)%nat eqn:Hshort; [eauto |].
  apply Nat.leb_gt in Hshort.
  destruct (planScan_some gate (length (skipn q flags)) (skipn q flags) 1 0)
    as [[[i cnt] cs] Hscan]; [lia |].
  rewrite Hscan.
  pose proof (planScan_facts _ _ _ _ _ _ _ _ Hscan ltac:(lia) ltac:(lia))
    as (Hc1 & Hc2 & Hc3 & Hc4 & Hc5 & Hc6).
  destruct (gate cnt) eqn:Hgc; [| eauto].
  destruct cnt as [| cnt]; [congruence |].
  destruct (Nat.leb_spec (i - S cnt) (length (skipn q flags) - list_sum cs)); [eauto | lia].
Qed.

Section AddCases.

Variable AudioLevel : list int32 -> float.

Lemma Add_plan d newSamples sampleRate thr ws :
  audioLevelAnalysisSamplesCount sampleRate (StepDuration (c d)) = Returned ws ->
  1 <= ws ->
  len (samples d ++ newSamples) <= maxInt ->
  ws <= len (samples d ++ newSamples) - len (audioLevels d) * ws < 2 ^ 53 ->
  match planAdd (gateOf (c d)) (silentFlags (bufferLevels AudioLevel d newSamples ws) thr) with
  | Some (p, cuts) =>
      Add AudioLevel d newSamples sampleRate thr =
      Returned (paired (c d)
                  (skipn (p + list_sum cuts) (bufferLevels AudioLevel d newSamples ws))
                  (skipn (p + list_sum cuts) (bufferWindows d newSamples ws))
                  (bufferRest d newSamples ws),
                map (@concat _) (cutWindows cuts (skipn p (bufferWindows d newSamples ws))))
  | None =>
      exists f, Add AudioLevel d newSamples sampleRate thr = Stopped f /\
                (f = SliceBounds \/ f = BeyondLen)
  end.
Proof.
  intros Hws Hpos Hmax Hproc.
  unfold bufferLevels, bufferWindows, bufferRest.
  assert (Hw : ws = Z.of_nat (Z.to_nat ws)) by lia.
  set (q := (len (samples d ++ newSamples) - len (audioLevels d) * ws) / ws).
  assert (Hq : q * ws <= len (samples d ++ newSamples) - len (audioLevels d) * ws
               < (q + 1) * ws).
  { unfold q.
    pose proof (Z.mul_div_le (len (samples d ++ newSamples) - len (audioLevels d) * ws) ws
                  ltac:(lia)).
    pose proof (Z.mul_succ_div_gt (len (samples d ++ newSamples) - len (audioLevels d) * ws) ws
                  ltac:(lia)).
    lia. }
  assert (Hq1 : 1 <= q).
  { unfold q. apply Z.div_le_lower_bound; lia. }
  unfold newWindows. fold q.
  apply Add_plan_nat.
  - rewrite <- Hw. exact Hws.
  - lia.
  - lia.
  - exact Hmax.
  - rewrite <- Hw. lia.
  - unfold len in *. split; nia.
Qed.

Lemma Add_short d newSamples sampleRate thr ws :
  audioLevelAnalysisSamplesCount sampleRate (StepDuration (c d)) = Returned ws ->
  len (samples d ++ newSamples) <= maxInt ->
  0 <= len (audioLevels d) * ws <= maxInt ->
  len (samples d ++ newSamples) - len (audioLevels d) * ws < ws ->
  Add AudioLevel d newSamples sampleRate thr =
  Returned ({| audioLevels := audioLevels d; c := c d; samples := samples d ++ newSamples |}, []).
Proof.
  intros Hws Hmax Hmul Hlt. apply Add_early with (ws := ws); try assumption.
  rewrite mul_small by (unfold minInt, maxInt in *; lia).
  rewrite sub_small; [exact Hlt |].
  pose proof (len_nonneg (samples d ++ newSamples)).
  unfold minInt, maxInt in *. lia.
Qed.

End AddCases.

(** ** Single calls and sequences of calls *)

Lemma firstn_leading {A : Type} (f : A -> bool) (l : list A) (p : nat) :
  (p <= leadingSilences (map f l))%nat ->
  Forall (fun x => f x = true) (firstn p l).
Proof.
  revert p; induction l as [| x l IH]; intros p Hp.
  - rewrite firstn_nil. constructor.
  - destruct p as [| p]; [constructor |].
    simpl in Hp. destruct (f x) eqn:Hx; [| lia].
    simpl. constructor; [exact Hx | apply IH; lia].
Qed.

Lemma silentFlags_map (AudioLevel : list int32 -> float) wins thr :
  silentFlags (map AudioLevel wins) thr
  = map (fun w => PrimFloat.ltb (AudioLevel w) thr) wins.
Proof. unfold silentFlags. apply map_map. Qed.

Section Buffer.

Variable AudioLevel : list int32 -> float.
Variables (d : SilenceDetector) (newSamples : list int32) (ws : Z).
Hypothesis ws_pos : 1 <= ws.
Hypothesis processable : len (audioLevels d) * ws <= len (samples d ++ newSamples).

Lemma newWindows_bound :
  ((length (audioLevels d) + newWindows d newSamples ws) * Z.to_nat ws
   <= length (samples d ++ newSamples))%nat.
Proof.
  unfold newWindows, len in *.
  set (a := Z.of_nat (length (samples d ++ newSamples))
            - Z.of_nat (length (audioLevels d)) * ws) in *.
  pose proof (Z.mul_div_le a ws ltac:(lia)).
  assert (0 <= a / ws) by (apply Z.div_pos; lia).
  nia.
Qed.

Lemma bufferWindows_sized :
  Forall (fun w : list int32 => length w = Z.to_nat ws) (bufferWindows d newSamples ws).
Proof. apply windowsOf_sized, newWindows_bound. Qed.

Lemma bufferWindows_length :
  length (bufferWindows d newSamples ws)
  = (length (audioLevels d) + newWindows d newSamples ws)%nat.
Proof. apply windowsOf_length. Qed.

Lemma buffer_split :
  samples d ++ newSamples = concat (bufferWindows d newSamples ws) ++ bufferRest d newSamples ws.
Proof. apply windows_split. Qed.

Lemma bufferLevels_length :
  length (bufferLevels AudioLevel d newSamples ws) = length (bufferWindows d newSamples ws).
Proof.
  unfold bufferLevels. rewrite length_app, length_map, length_skipn, bufferWindows_length. lia.
Qed.

Lemma bufferLevels_lockStep :
  lockStep AudioLevel ws d ->
  bufferLevels AudioLevel d newSamples ws = map AudioLevel (bufferWindows d newSamples ws).
Proof.
  intros Hls. pose proof Hls as [Hlen _].
  unfold bufferLevels, bufferWindows.
  rewrite windowsOf_plus, skipn_app, windowsOf_length, Nat.sub_diag.
  rewrite skipn_all2 by (rewrite windowsOf_length; lia).
  simpl. rewrite map_app. f_equal.
  rewrite windowsOf_app_l by (unfold len in Hlen; nia).
  now apply lockStep_windows.
Qed.

End Buffer.

Lemma lockStep_append (AudioLevel : list int32 -> float) ws d newSamples :
  1 <= ws -> lockStep AudioLevel ws d ->
  lockStep AudioLevel ws
    {| audioLevels := audioLevels d; c := c d; samples := samples d ++ newSamples |}.
Proof.
  intros Hws [Hlen Hnth]. unfold lockStep. simpl. split.
  - rewrite len_app. pose proof (len_nonneg newSamples). lia.
  - intros i Hi. rewrite Hnth by exact Hi. do 2 f_equal.
    unfold len in Hlen.
    rewrite skipn_app, firstn_app, length_skipn.
    replace (i * Z.to_nat ws - length (samples d))%nat with O by nia.
    replace (Z.to_nat ws - (length (samples d) - i * Z.to_nat ws))%nat with O by nia.
    simpl. now rewrite app_nil_r.
Qed.

Section Step.

Variable AudioLevel : list int32 -> float.

Lemma Add_returns d newSamples sampleRate thr ws :
  audioLevelAnalysisSamplesCount sampleRate (StepDuration (c d)) = Returned ws ->
  1 <= ws ->
  len (samples d ++ newSamples) < 2 ^ 53 ->
  len (audioLevels d) * ws <= maxInt ->
  0 < SilenceMinDuration (c d) ->
  exists r, Add AudioLevel d newSamples sampleRate thr = Returned r.
Proof.
  intros Hws Hpos Hmax Hmul Hmin.
  destruct (Z.lt_ge_cases (len (samples d ++ newSamples) - len (audioLevels d) * ws) ws)
    as [Hshort | Hlong].
  - rewrite (Add_short AudioLevel d newSamples sampleRate thr ws); eauto.
    + unfold maxInt. lia.
    + pose proof (len_nonneg (audioLevels d)). nia.
  - pose proof (Add_plan AudioLevel d newSamples sampleRate thr ws Hws Hpos
                  ltac:(unfold maxInt; lia)
                  ltac:(pose proof (len_nonneg (audioLevels d)); split; [exact Hlong | nia]))
      as H.
    destruct (planAdd_total (gateOf (c d))
                (silentFlags (bufferLevels AudioLevel d newSamples ws) thr)
                (gateOf_zero _ Hmin)) as [[p cuts] Hplan].
    rewrite Hplan in H. eauto.
Qed.

Lemma Add_lockStep_step d newSamples sampleRate thr ws d' validSamples :
  audioLevelAnalysisSamplesCount sampleRate (StepDuration (c d)) = Returned ws ->
  1 <= ws ->
  lockStep AudioLevel ws d ->
  len (samples d ++ newSamples) < 2 ^ 53 ->
  Add AudioLevel d newSamples sampleRate thr = Returned (d', validSamples) ->
  c d' = c d /\
  lockStep AudioLevel ws d' /\
  exists dropped : list int32,
    samples d ++ newSamples = dropped ++ concat validSamples ++ samples d' /\
    silentStretch AudioLevel ws thr dropped /\
    (dropped <> [] ->
     exists w tail : list int32,
       concat validSamples ++ samples d' = w ++ tail /\ len w = ws /\
       PrimFloat.ltb (AudioLevel w) thr = true).
Proof.
  intros Hws Hpos Hls Hsmall Hadd.
  pose proof Hls as [Hlen _].
  pose proof (len_nonneg (audioLevels d)) as Hl0.
  assert (Hmax : len (samples d ++ newSamples) <= maxInt) by (unfold maxInt; lia).
  assert (Hlen' : len (audioLevels d) * ws <= len (samples d ++ newSamples)).
  { rewrite len_app. pose proof (len_nonneg newSamples). lia. }
  destruct (Z.lt_ge_cases (len (samples d ++ newSamples) - len (audioLevels d) * ws) ws)
    as [Hshort | Hlong].
  - rewrite (Add_short AudioLevel d newSamples sampleRate thr ws) in Hadd;
      [| exact Hws | exact Hmax | unfold maxInt in *; nia | exact Hshort].
    injection Hadd as <- <-. simpl. split; [reflexivity |]. split.
    + now apply lockStep_append.
    + exists []. simpl. repeat split; [| congruence].
      exists []. split; [reflexivity | constructor].
  - assert (Hfloat : len (samples d ++ newSamples) - len (audioLevels d) * ws < 2 ^ 53).
    { nia. }
    pose proof (Add_plan AudioLevel d newSamples sampleRate thr ws Hws Hpos Hmax
                  (conj Hlong Hfloat)) as H.
    pose proof (bufferWindows_sized d newSamples ws Hpos Hlen') as Hsized.
    pose proof (buffer_split d newSamples ws) as Hsplit.
    rewrite (bufferLevels_lockStep AudioLevel d newSamples ws) in H by assumption.
    set (wins := bufferWindows d newSamples ws) in *.
    set (rest := bufferRest d newSamples ws) in *.
    destruct (planAdd (gateOf (c d)) (silentFlags (map AudioLevel wins) thr))
      as [[p cuts] |] eqn:Hplan.
    2:{ destruct H as (f & Hf & _). congruence. }
    rewrite H in Hadd. injection Hadd as <- <-.
    apply planAdd_facts in Hplan. destruct Hplan as (Hp & Hcuts & Hsum).
    rewrite silentFlags_length, length_map in Hsum.
    split; [reflexivity |]. split.
    + rewrite skipn_map.
      replace ws with (Z.of_nat (Z.to_nat ws)) at 1 by lia.
      apply paired_lockStep. now apply Forall_skipn.
    + exists (concat (firstn p wins)). simpl samples.
      assert (Hpk : (p <= leadingSilences
                            (map (fun w => PrimFloat.ltb (AudioLevel w) thr) wins))%nat).
      { rewrite Hp, silentFlags_map. unfold prunedWindows. lia. }
      split; [| split].
      * rewrite Hsplit, app_assoc, app_assoc. f_equal.
        rewrite <- app_assoc.
        replace (skipn (p + list_sum cuts) wins) with (skipn (list_sum cuts) (skipn p wins))
          by (rewrite skipn_skipn; f_equal; lia).
        rewrite cutWindows_concat, <- concat_app, firstn_skipn. reflexivity.
      * exists (firstn p wins). split; [reflexivity |].
        apply Forall_and.
        -- apply Forall_firstn.
           eapply Forall_impl; [| exact Hsized]. unfold len. simpl. intros w Hw. lia.
        -- apply (firstn_leading (fun w => PrimFloat.ltb (AudioLevel w) thr)). exact Hpk.
      * intros Hne.
        assert (Hp1 : (1 <= p)%nat).
        { destruct p; [simpl in Hne; congruence | lia]. }
        assert (Hflag : nth_error (map (fun w => PrimFloat.ltb (AudioLevel w) thr) wins) p
                        = Some true).
        { apply leadingSilences_true.
          rewrite Hp, silentFlags_map in *. unfold prunedWindows in *. lia. }
        rewrite nth_error_map in Hflag.
        destruct (nth_error wins p) as [w |] eqn:Hw; [| discriminate].
        simpl in Hflag. injection Hflag as Hflag.
        destruct (nth_error_split _ _ Hw) as (l1 & l2 & Hwins & Hl1).
        exists w, (concat l2 ++ rest). split; [| split].
        -- rewrite app_assoc.
           replace (skipn (p + list_sum cuts) wins) with (skipn (list_sum cuts) (skipn p wins))
             by (rewrite skipn_skipn; f_equal; lia).
           rewrite cutWindows_concat.
           rewrite Hwins, skipn_app, <- Hl1, Nat.sub_diag, skipn_all2 by lia.
           simpl. now rewrite <- app_assoc.
        -- rewrite Hwins in Hsized. apply Forall_app in Hsized.
           destruct Hsized as [_ Hsized]. inversion Hsized; subst. unfold len. lia.
        -- exact Hflag.
Qed.

End Step.

Lemma last_cons {A : Type} (a d : A) (l : list A) : last (a :: l) d = last l a.
Proof.
  revert a d; induction l as [| b l IH]; intros a d; [reflexivity |].
  change (last (a :: b :: l) d) with (last (b :: l) d).
  now rewrite !IH.
Qed.

Lemma lockStep_Reset (AudioLevel : list int32 -> float) ws d :
  lockStep AudioLevel ws (Reset d).
Proof.
  unfold lockStep, Reset. simpl. split; [reflexivity |]. intros i Hi. lia.
Qed.

Section Calls.

Variable AudioLevel : list int32 -> float.
Variables (sampleRate ws : Z).
Hypothesis ws_pos : 1 <= ws.

Lemma Add_buffer_bound d newSamples sampleRate' thr d1 vs (k : Z) :
  audioLevelAnalysisSamplesCount sampleRate' (StepDuration (c d)) = Returned ws ->
  lockStep AudioLevel ws d ->
  len (samples d) + len newSamples + k < 2 ^ 53 ->
  0 <= k ->
  Add AudioLevel d newSamples sampleRate' thr = Returned (d1, vs) ->
  len (samples d1) + k < 2 ^ 53.
Proof.
  intros Hws Hls Hmax Hk Hadd.
  pose proof (len_nonneg newSamples).
  assert (Hsm : len (samples d ++ newSamples) < 2 ^ 53) by (rewrite len_app; lia).
  destruct (Add_lockStep_step AudioLevel _ _ _ _ _ _ _ Hws ws_pos Hls Hsm Hadd)
    as (_ & _ & dropped & Hsplit & _).
  apply (f_equal len) in Hsplit. rewrite !len_app in Hsplit.
  pose proof (len_nonneg dropped). pose proof (len_nonneg (concat vs)). lia.
Qed.

Lemma AddAll_lockStep calls :
  forall d trace,
    audioLevelAnalysisSamplesCount sampleRate (StepDuration (c d)) = Returned ws ->
    lockStep AudioLevel ws d ->
    len (samples d) + len (concat (map fst calls)) < 2 ^ 53 ->
    AddAll AudioLevel d sampleRate calls = Returned trace ->
    Forall (fun r => lockStep AudioLevel ws (fst r)) trace.
Proof.
  induction calls as [| [newSamples thr] calls IH]; intros d trace Hws Hls Hmax; simpl.
  - intros [= <-]. constructor.
  - intros H.
    apply bind_Returned in H. destruct H as ([d1 vs] & Hadd & H).
    apply bind_Returned in H. destruct H as (trace' & Hall & H).
    injection H as <-.
    simpl in Hmax. rewrite len_app in Hmax.
    pose proof (len_nonneg newSamples). pose proof (len_nonneg (concat (map fst calls))).
    assert (Hsm : len (samples d ++ newSamples) < 2 ^ 53) by (rewrite len_app; lia).
    destruct (Add_lockStep_step AudioLevel _ _ _ _ _ _ _ Hws ws_pos Hls Hsm Hadd)
      as (Hc & Hls1 & _).
    constructor; [exact Hls1 |].
    apply (IH d1); [rewrite Hc; exact Hws | exact Hls1 | | exact Hall].
    apply (Add_buffer_bound d newSamples sampleRate thr d1 vs); auto; lia.
Qed.

Lemma AddAll_accounted calls :
  forall d trace,
    audioLevelAnalysisSamplesCount sampleRate (StepDuration (c d)) = Returned ws ->
    lockStep AudioLevel ws d ->
    len (samples d) + len (concat (map fst calls)) < 2 ^ 53 ->
    AddAll AudioLevel d sampleRate calls = Returned trace ->
    accounted AudioLevel ws (samples d ++ concat (map fst calls))
              (combine (map snd calls) (map snd trace))
              (samples (lastDetector d trace)).
Proof.
  induction calls as [| [newSamples thr] calls IH]; intros d trace Hws Hls Hmax; simpl.
  - intros [= <-]. simpl. apply app_nil_r.
  - intros H.
    apply bind_Returned in H. destruct H as ([d1 vs] & Hadd & H).
    apply bind_Returned in H. destruct H as (trace' & Hall & H).
    injection H as <-.
    simpl in Hmax. rewrite len_app in Hmax.
    pose proof (len_nonneg newSamples). pose proof (len_nonneg (concat (map fst calls))).
    assert (Hsm : len (samples d ++ newSamples) < 2 ^ 53) by (rewrite len_app; lia).
    destruct (Add_lockStep_step AudioLevel _ _ _ _ _ _ _ Hws ws_pos Hls Hsm Hadd)
      as (Hc & Hls1 & dropped & Hsplit & Hsilent & Hpad).
    simpl. exists dropped, (samples d1 ++ concat (map fst calls)).
    split; [| split; [exact Hsilent | split]].
    + rewrite app_assoc, Hsplit, <- !app_assoc. reflexivity.
    + intros Hne. destruct (Hpad Hne) as (w & tail & Hw & Hlw & Hsw).
      exists w, (tail ++ concat (map fst calls)).
      split; [| split; assumption].
      rewrite app_assoc, Hw, <- app_assoc. reflexivity.
    + unfold lastDetector. simpl map. rewrite last_cons.
      apply (IH d1); [rewrite Hc; exact Hws | exact Hls1 | | exact Hall].
      apply (Add_buffer_bound d newSamples sampleRate thr d1 vs); auto; lia.
Qed.

Lemma AddAll_returns calls :
  forall d,
    audioLevelAnalysisSamplesCount sampleRate (StepDuration (c d)) = Returned ws ->
    lockStep AudioLevel ws d ->
    0 < SilenceMinDuration (c d) ->
    len (samples d) + len (concat (map fst calls)) < 2 ^ 53 ->
    exists trace, AddAll AudioLevel d sampleRate calls = Returned trace.
Proof.
  induction calls as [| [newSamples thr] calls IH]; intros d Hws Hls Hmin Hmax; simpl.
  - eauto.
  - simpl in Hmax. rewrite len_app in Hmax.
    pose proof (len_nonneg newSamples). pose proof (len_nonneg (concat (map fst calls))).
    pose proof Hls as [Hlen _].
    destruct (Add_returns AudioLevel d newSamples sampleRate thr ws Hws ws_pos) as [[d1 vs] Hadd];
      [rewrite len_app; lia | unfold maxInt; lia | exact Hmin |].
    rewrite Hadd. simpl Go.bind.
    assert (Hsm : len (samples d ++ newSamples) < 2 ^ 53) by (rewrite len_app; lia).
    destruct (Add_lockStep_step AudioLevel _ _ _ _ _ _ _ Hws ws_pos Hls Hsm Hadd)
      as (Hc & Hls1 & _).
    destruct (IH d1) as [trace' Hall].
    + rewrite Hc. exact Hws.
    + exact Hls1.
    + rewrite Hc. exact Hmin.
    + apply (Add_buffer_bound d newSamples sampleRate thr d1 vs); auto; lia.
    + rewrite Hall. simpl. eauto.
Qed.

(** Claim C1 (buffer lock-step invariant).  With a window of at least one
    sample, one sample rate on every call since [Reset] and fewer than
    2^53 samples fed (the range on which [float64] counts samples
    exactly), after every [Add] call
    [len(levels) * window_size <= len(samples)] and every [levels[i]] is
    the level of [samples[i*window_size : (i+1)*window_size]].  Every such
    sequence of calls returns when the configured minimum silence is
    positive. *)
Theorem lock_step_invariant (d0 : SilenceDetector) (calls : list (list int32 * float)) :
  audioLevelAnalysisSamplesCount sampleRate (StepDuration (c d0)) = Returned ws ->
  len (concat (map fst calls)) < 2 ^ 53 ->
  (forall trace,
      AddAll AudioLevel (Reset d0) sampleRate calls = Returned trace ->
      Forall (fun r => lockStep AudioLevel ws (fst r)) trace) /\
  (0 < SilenceMinDuration (c d0) ->
   exists trace, AddAll AudioLevel (Reset d0) sampleRate calls = Returned trace).
Proof.
  intros Hws Hmax. split.
  - intros trace. apply AddAll_lockStep; [exact Hws | apply lockStep_Reset | exact Hmax].
  - intros Hmin. apply AddAll_returns;
      [exact Hws | apply lockStep_Reset | exact Hmin | exact Hmax].
Qed.

End Calls.

Lemma cutWindows_whole (wsn : nat) (cuts : list nat) :
  forall wins : list (list int32),
    Forall (fun w => length w = wsn) wins ->
    Forall (fun t => 1 <= t)%nat cuts ->
    (list_sum cuts <= length wins)%nat ->
    Forall (fun s : list int32 => exists m : nat, (1 <= m)%nat /\ length s = (m * wsn)%nat)
           (map (@concat _) (cutWindows cuts wins)).
Proof.
  induction cuts as [| t cuts IH]; intros wins Hs Hc Hsum; simpl; constructor.
  - exists t. inversion Hc; subst. split; [assumption |].
    rewrite (concat_sized_length wsn) by now apply Forall_firstn.
    rewrite length_firstn. simpl in Hsum. f_equal. lia.
  - inversion Hc; subst. apply IH; [now apply Forall_skipn | assumption |].
    rewrite length_skipn. simpl in Hsum. lia.
Qed.

Lemma leadingSilences_pruned flags :
  (1 <= leadingSilences flags)%nat ->
  leadingSilences (skipn (prunedWindows flags) flags) = 1%nat.
Proof.
  unfold prunedWindows.
  induction flags as [| [|] flags IH]; simpl; intros H; try lia.
  destruct flags as [| [|] flags']; try reflexivity.
  apply IH. simpl. lia.
Qed.

Section General.

Variable AudioLevel : list int32 -> float.

Lemma bufferWindows_new d newSamples ws :
  skipn (length (audioLevels d)) (bufferWindows d newSamples ws)
  = windowsOf (newWindows d newSamples ws) (Z.to_nat ws)
              (skipn (length (audioLevels d) * Z.to_nat ws) (samples d ++ newSamples)).
Proof.
  unfold bufferWindows.
  rewrite windowsOf_plus, skipn_app, windowsOf_length, Nat.sub_diag.
  rewrite skipn_all2 by (rewrite windowsOf_length; lia). reflexivity.
Qed.

Lemma computedLevels_buffer d newSamples ws :
  1 <= ws ->
  len (samples d ++ newSamples) <= maxInt ->
  len (audioLevels d) * ws <= len (samples d ++ newSamples) ->
  computedLevels AudioLevel d newSamples ws
  = Returned (bufferLevels AudioLevel d newSamples ws).
Proof.
  intros Hpos Hmax Hproc.
  unfold computedLevels, bufferLevels. rewrite bufferWindows_new.
  fold (newWindows d newSamples ws).
  pose proof (newWindows_bound d newSamples ws Hpos Hproc) as Hb.
  replace ws with (Z.of_nat (Z.to_nat ws)) at 2 3 by lia.
  unfold len at 1. change 0 with (Z.of_nat 0).
  rewrite computeAudioLevels_windows; [| lia | exact Hmax | lia].
  now rewrite Nat.add_0_r.
Qed.

Lemma Add_inv d newSamples sampleRate thr ws d' validSamples :
  audioLevelAnalysisSamplesCount sampleRate (StepDuration (c d)) = Returned ws ->
  1 <= ws ->
  len (audioLevels d) * ws <= maxInt ->
  len (samples d ++ newSamples) < 2 ^ 53 ->
  Add AudioLevel d newSamples sampleRate thr = Returned (d', validSamples) ->
  len (samples d ++ newSamples) <= maxInt /\
  ((len (samples d ++ newSamples) - len (audioLevels d) * ws < ws /\
    d' = {| audioLevels := audioLevels d; c := c d; samples := samples d ++ newSamples |} /\
    validSamples = [])
   \/
   (ws <= len (samples d ++ newSamples) - len (audioLevels d) * ws /\
    exists (p : nat) (cuts : list nat),
      planAdd (gateOf (c d)) (silentFlags (bufferLevels AudioLevel d newSamples ws) thr)
      = Some (p, cuts) /\
      d' = paired (c d)
             (skipn (p + list_sum cuts) (bufferLevels AudioLevel d newSamples ws))
             (skipn (p + list_sum cuts) (bufferWindows d newSamples ws))
             (bufferRest d newSamples ws) /\
      validSamples
      = map (@concat _) (cutWindows cuts (skipn p (bufferWindows d newSamples ws))))).
Proof.
  intros Hws Hpos Hmul Hsmall Hadd.
  pose proof (len_nonneg (audioLevels d)) as Hl0.
  pose proof (len_nonneg (samples d ++ newSamples)) as Hs0.
  assert (Hmax : len (samples d ++ newSamples) <= maxInt) by (unfold maxInt; lia).
  split; [exact Hmax |].
  destruct (Z.lt_ge_cases (len (samples d ++ newSamples) - len (audioLevels d) * ws) ws)
    as [Hshort | Hlong].
  - left.
    rewrite (Add_short AudioLevel d newSamples sampleRate thr ws) in Hadd;
      [| exact Hws | exact Hmax | unfold maxInt in *; nia | exact Hshort].
    injection Hadd as <- <-. auto.
  - right. split; [exact Hlong |].
    assert (Hfloat : len (samples d ++ newSamples) - len (audioLevels d) * ws < 2 ^ 53)
      by nia.
    pose proof (Add_plan AudioLevel d newSamples sampleRate thr ws Hws Hpos Hmax
                  (conj Hlong Hfloat)) as H.
    destruct (planAdd (gateOf (c d))
                (silentFlags (bufferLevels AudioLevel d newSamples ws) thr))
      as [[p cuts] |] eqn:Hplan.
    + exists p, cuts. rewrite H in Hadd. injection Hadd as <- <-. auto.
    + destruct H as (f & Hf & _). congruence.
Qed.

(** Claim C9 (segment granularity).  With a window of at least one
    sample and a buffer below 2^53 samples, every segment that an [Add]
    call emits has a length that is a positive multiple of the window
    size: one or more whole windows. *)
Theorem segments_are_whole_windows d newSamples sampleRate thr ws :
  audioLevelAnalysisSamplesCount sampleRate (StepDuration (c d)) = Returned ws ->
  1 <= ws ->
  len (audioLevels d) * ws <= maxInt ->
  len (samples d ++ newSamples) < 2 ^ 53 ->
  (forall d' validSamples,
      Add AudioLevel d newSamples sampleRate thr = Returned (d', validSamples) ->
      Forall (fun s => exists m : Z, 1 <= m /\ len s = m * ws) validSamples) /\
  (0 < SilenceMinDuration (c d) ->
   exists r, Add AudioLevel d newSamples sampleRate thr = Returned r).
Proof.
  intros Hws Hpos Hmul Hsmall. split.
  - intros d' validSamples Hadd.
    destruct (Add_inv _ _ _ _ _ _ _ Hws Hpos Hmul Hsmall Hadd)
      as (Hmax & [(_ & _ & ->) | (Hlong & p & cuts & Hplan & _ & ->)]); [constructor |].
    apply planAdd_facts in Hplan. destruct Hplan as (_ & Hcuts & Hsum).
    rewrite silentFlags_length, bufferLevels_length in Hsum.
    assert (Hproc : len (audioLevels d) * ws <= len (samples d ++ newSamples)) by lia.
    pose proof (bufferWindows_sized d newSamples ws Hpos Hproc) as Hsized.
    eapply Forall_impl;
      [| apply (cutWindows_whole (Z.to_nat ws) cuts
                  (skipn p (bufferWindows d newSamples ws)));
         [now apply Forall_skipn | exact Hcuts | rewrite length_skipn; lia]].
    simpl. intros s (m & Hm & Hs). exists (Z.of_nat m). unfold len. split; [lia | nia].
  - intros Hmin. now apply Add_returns with (ws := ws).
Qed.

(** Claim C5 (leading-silence pruning).  In a call that forms at least one
    new window on a buffer below 2^53 samples, when the first [k >= 2]
    levels are below the threshold (and level [k] is not), the call drops
    exactly the first [k-1] windows: the
    samples fed are the first [(k-1) * window_size] samples, which are in no
    segment, then the segments, then the samples left; the levels left are
    the levels computed without the first [k-1] and without those of the
    windows emitted; and after the pruning exactly one silence is at the
    start. *)
Theorem leading_silences_pruned d newSamples sampleRate thr ws levels :
  audioLevelAnalysisSamplesCount sampleRate (StepDuration (c d)) = Returned ws ->
  1 <= ws ->
  len (samples d ++ newSamples) < 2 ^ 53 ->
  ws <= len (samples d ++ newSamples) - len (audioLevels d) * ws ->
  computedLevels AudioLevel d newSamples ws = Returned levels ->
  let k := countSilencesAtStart levels thr in
  2 <= k ->
  (forall d' validSamples,
      Add AudioLevel d newSamples sampleRate thr = Returned (d', validSamples) ->
      exists m : nat,
        samples d ++ newSamples
        = firstn (Z.to_nat ((k - 1) * ws)) (samples d ++ newSamples)
          ++ concat validSamples ++ samples d' /\
        len (concat validSamples) = Z.of_nat m * ws /\
        audioLevels d' = skipn (Z.to_nat (k - 1) + m) levels /\
        countSilencesAtStart (skipn (Z.to_nat (k - 1)) levels) thr = 1) /\
  (0 < SilenceMinDuration (c d) ->
   exists r, Add AudioLevel d newSamples sampleRate thr = Returned r).
Proof.
  intros Hws Hpos Hsmall Hlong Hlv k Hk.
  assert (Hmax : len (samples d ++ newSamples) <= maxInt) by (unfold maxInt; lia).
  pose proof (len_nonneg (audioLevels d)) as Hl0.
  assert (Hproc : len (audioLevels d) * ws <= len (samples d ++ newSamples)) by lia.
  assert (Hmul : len (audioLevels d) * ws <= maxInt) by lia.
  rewrite computedLevels_buffer in Hlv by assumption.
  injection Hlv as <-.
  split; [| intros Hmin; now apply Add_returns with (ws := ws)].
  intros d' validSamples Hadd.
  destruct (Add_inv _ _ _ _ _ _ _ Hws Hpos Hmul Hsmall Hadd)
    as (_ & [(Hshort & _) | (_ & p & cuts & Hplan & -> & ->)]); [lia |].
  apply planAdd_facts in Hplan. destruct Hplan as (Hp & Hcuts & Hsum).
  rewrite silentFlags_length, bufferLevels_length in Hsum.
  pose proof (bufferWindows_sized d newSamples ws Hpos Hproc) as Hsized.
  pose proof (buffer_split d newSamples ws) as Hsplit.
  unfold k in *. rewrite countSilencesAtStart_flags in *.
  set (flags := silentFlags (bufferLevels AudioLevel d newSamples ws) thr) in *.
  assert (Hkp : Z.to_nat (Z.of_nat (leadingSilences flags) - 1) = p).
  { rewrite Hp. unfold prunedWindows. lia. }
  rewrite Hkp.
  set (wins := bufferWindows d newSamples ws) in *.
  set (rest := bufferRest d newSamples ws) in *.
  exists (list_sum cuts). simpl samples. simpl audioLevels.
  assert (Hcat : concat (map (@concat _) (cutWindows cuts (skipn p wins)))
                 ++ concat (skipn (p + list_sum cuts) wins)
                 = concat (skipn p wins)).
  { replace (skipn (p + list_sum cuts) wins) with (skipn (list_sum cuts) (skipn p wins))
      by (rewrite skipn_skipn; f_equal; lia).
    apply cutWindows_concat. }
  split; [| split; [| split]].
  - replace (Z.to_nat ((Z.of_nat (leadingSilences flags) - 1) * ws))
      with (p * Z.to_nat ws)%nat by nia.
    replace (concat (map (@concat _) (cutWindows cuts (skipn p wins)))
             ++ concat (skipn (p + list_sum cuts) wins) ++ rest)
      with (concat (skipn p wins) ++ rest)
      by (rewrite <- Hcat, <- app_assoc; reflexivity).
    rewrite Hsplit at 1 2.
    rewrite firstn_sized by (try assumption; lia).
    rewrite app_assoc, <- concat_app, firstn_skipn. reflexivity.
  - apply (f_equal (@length _)) in Hcat.
    rewrite length_app in Hcat.
    rewrite (concat_sized_length (Z.to_nat ws) (skipn (p + list_sum cuts) wins)) in Hcat
      by (apply Forall_skipn; assumption).
    rewrite (concat_sized_length (Z.to_nat ws) (skipn p wins)) in Hcat
      by (apply Forall_skipn; assumption).
    rewrite !length_skipn in Hcat. unfold len. nia.
  - reflexivity.
  - rewrite countSilencesAtStart_flags, silentFlags_skipn. fold flags.
    rewrite Hp, leadingSilences_pruned; [reflexivity | lia].
Qed.

End General.

(** ** The samples that the calls prune: lemmas *)

Section PrunedFacts.

Variable AudioLevel : list int32 -> float.

Lemma bufferWindows_whole d newSamples ws :
  1 <= ws ->
  len (audioLevels d) * ws <= len (samples d ++ newSamples) ->
  windowsOf (Z.to_nat (len (samples d ++ newSamples) / ws)) (Z.to_nat ws)
            (samples d ++ newSamples)
  = bufferWindows d newSamples ws.
Proof.
  intros Hpos Hproc. unfold bufferWindows, newWindows. f_equal.
  pose proof (len_nonneg (audioLevels d)) as Hl0.
  replace (len (samples d ++ newSamples))
    with (len (samples d ++ newSamples) - len (audioLevels d) * ws
          + len (audioLevels d) * ws) at 1 by lia.
  rewrite Z.div_add by lia.
  rewrite Z2Nat.inj_add; [| apply Z.div_pos; lia | lia].
  unfold len at 3. rewrite Nat2Z.id. lia.
Qed.

Lemma Add_pruned d newSamples sampleRate thr ws d' validSamples :
  audioLevelAnalysisSamplesCount sampleRate (StepDuration (c d)) = Returned ws ->
  1 <= ws ->
  lockStep AudioLevel ws d ->
  len (samples d ++ newSamples) < 2 ^ 53 ->
  Add AudioLevel d newSamples sampleRate thr = Returned (d', validSamples) ->
  samples d ++ newSamples
  = prunedSamples AudioLevel ws thr d newSamples ++ concat validSamples ++ samples d'.
Proof.
  intros Hws Hpos Hls Hmax Hadd.
  pose proof Hls as [Hlen _].
  pose proof (len_nonneg (audioLevels d)) as Hl0.
  assert (Hproc : len (audioLevels d) * ws <= len (samples d ++ newSamples)).
  { rewrite len_app. pose proof (len_nonneg newSamples). lia. }
  assert (Hmul : len (audioLevels d) * ws <= maxInt) by (unfold maxInt; lia).
  unfold prunedSamples. cbv zeta.
  destruct (Add_inv AudioLevel _ _ _ _ _ _ _ Hws Hpos Hmul Hmax Hadd)
    as (_ & [(Hshort & -> & ->) | (Hlong & p & cuts & Hplan & -> & ->)]).
  - replace (_ <? ws) with true by (symmetry; apply Z.ltb_lt; exact Hshort).
    reflexivity.
  - replace (_ <? ws) with false by (symmetry; apply Z.ltb_ge; exact Hlong).
    rewrite bufferWindows_whole by assumption.
    rewrite (bufferLevels_lockStep AudioLevel d newSamples ws) in * by assumption.
    rewrite silentFlags_map in Hplan.
    apply planAdd_facts in Hplan. destruct Hplan as (Hp & _ & Hsum).
    rewrite length_map in Hsum.
    unfold prunedWindows in Hp. rewrite <- Hp.
    pose proof (bufferWindows_sized d newSamples ws Hpos Hproc) as Hsized.
    pose proof (buffer_split d newSamples ws) as Hsplit.
    set (wins := bufferWindows d newSamples ws) in *.
    set (rest := bufferRest d newSamples ws) in *.
    unfold paired. simpl samples.
    rewrite Hsplit at 2.
    rewrite firstn_sized by (try assumption; lia).
    rewrite Hsplit, app_assoc, app_assoc. f_equal.
    rewrite <- app_assoc.
    replace (skipn (p + list_sum cuts) wins) with (skipn (list_sum cuts) (skipn p wins))
      by (rewrite skipn_skipn; f_equal; lia).
    rewrite cutWindows_concat, <- concat_app, firstn_skipn. reflexivity.
Qed.

Lemma accountedCalls_stream ws calls :
  forall d trace,
    accountedCalls AudioLevel ws d calls trace ->
    samples d ++ concat (map fst calls)
    = prunedAndEmitted AudioLevel ws d calls trace ++ samples (lastDetector d trace).
Proof.
  induction calls as [| [newSamples thr] calls IH]; intros d [| [d1 vs] trace]; simpl;
    try contradiction.
  - intros _. now rewrite app_nil_r.
  - intros [Hstep Hrest].
    rewrite app_assoc, Hstep, <- !app_assoc.
    rewrite (IH d1 trace Hrest).
    unfold lastDetector. simpl map. rewrite last_cons. reflexivity.
Qed.

End PrunedFacts.

Section DataLoss.

Variable AudioLevel : list int32 -> float.
Variables (sampleRate ws : Z).
Hypothesis ws_pos : 1 <= ws.

Lemma AddAll_accountedCalls calls :
  forall d trace,
    audioLevelAnalysisSamplesCount sampleRate (StepDuration (c d)) = Returned ws ->
    lockStep AudioLevel ws d ->
    len (samples d) + len (concat (map fst calls)) < 2 ^ 53 ->
    AddAll AudioLevel d sampleRate calls = Returned trace ->
    accountedCalls AudioLevel ws d calls trace.
Proof.
  induction calls as [| [newSamples thr] calls IH]; intros d trace Hws Hls Hmax; simpl.
  - intros [= <-]. exact I.
  - intros H.
    apply bind_Returned in H. destruct H as ([d1 vs] & Hadd & H).
    apply bind_Returned in H. destruct H as (trace' & Hall & H).
    injection H as <-.
    simpl in Hmax. rewrite len_app in Hmax.
    pose proof (len_nonneg newSamples). pose proof (len_nonneg (concat (map fst calls))).
    assert (Hsm : len (samples d ++ newSamples) < 2 ^ 53) by (rewrite len_app; lia).
    destruct (Add_lockStep_step AudioLevel _ _ _ _ _ _ _ Hws ws_pos Hls Hsm Hadd)
      as (Hc & Hls1 & _).
    split.
    + now apply (Add_pruned AudioLevel d newSamples sampleRate thr ws d1 vs).
    + apply (IH d1); [rewrite Hc; exact Hws | exact Hls1 | | exact Hall].
      apply (Add_buffer_bound AudioLevel ws ws_pos d newSamples sampleRate thr d1 vs);
        auto; lia.
Qed.

(** Claim C3, as the code has it (no data loss).  With a window of at
    least one sample, one sample rate on every call since [Reset] and
    fewer than 2^53 samples fed:
    - the buffer of every call (the samples left by the call before, then
      the new ones) is, in order, the samples the call prunes, the
      segments it emits and the samples it leaves, where the samples
      pruned are none when the call forms no new window and otherwise
      all but the last of the whole windows at the start of the buffer
      that are below the threshold of the call, whatever their duration;
    - so the samples fed are, in order, what each call pruned and then
      emitted, and last the samples left in the buffer;
    - the samples pruned by a call are whole windows below its threshold,
      and a window below the threshold follows them, at the start of the
      segments of the call followed by what it leaves.
    Nothing else is removed and nothing is reordered.  The pruning does
    not look at the minimum duration of a silence, and the window that is
    kept may be emitted with the first segment of the call. *)
Theorem no_data_loss (d0 : SilenceDetector) (calls : list (list int32 * float)) :
  audioLevelAnalysisSamplesCount sampleRate (StepDuration (c d0)) = Returned ws ->
  len (concat (map fst calls)) < 2 ^ 53 ->
  (forall trace,
      AddAll AudioLevel (Reset d0) sampleRate calls = Returned trace ->
      accountedCalls AudioLevel ws (Reset d0) calls trace /\
      concat (map fst calls)
      = prunedAndEmitted AudioLevel ws (Reset d0) calls trace
        ++ samples (lastDetector (Reset d0) trace) /\
      accounted AudioLevel ws (concat (map fst calls))
                (combine (map snd calls) (map snd trace))
                (samples (lastDetector (Reset d0) trace))) /\
  (0 < SilenceMinDuration (c d0) ->
   exists trace, AddAll AudioLevel (Reset d0) sampleRate calls = Returned trace).
Proof.
  intros Hws Hmax. split.
  - intros trace Hall.
    pose proof (AddAll_accountedCalls calls (Reset d0) trace Hws (lockStep_Reset _ _ _)
                  Hmax Hall) as Hcalls.
    split; [exact Hcalls |]. split.
    + exact (accountedCalls_stream AudioLevel ws calls (Reset d0) trace Hcalls).
    + exact (AddAll_accounted AudioLevel sampleRate ws ws_pos calls (Reset d0) trace Hws
               (lockStep_Reset _ _ _) Hmax Hall).
  - intros Hmin.
    exact (AddAll_returns AudioLevel sampleRate ws ws_pos calls (Reset d0) Hws
             (lockStep_Reset _ _ _) Hmin Hmax).
Qed.

End DataLoss.

(** ** Calls that return early, scenarios and the gate *)

Section Early.

Variable AudioLevel : list int32 -> float.

(** Claim C8 (insufficient data is not an error).  With a window of at least
    one sample, when fewer than [window_size] unprocessed samples are
    available after the new samples are appended, [Add] returns no segment,
    leaves the levels as they were and keeps the samples it had followed by
    the new ones. *)
Theorem insufficient_data_keeps_state d newSamples sampleRate thr ws :
  audioLevelAnalysisSamplesCount sampleRate (StepDuration (c d)) = Returned ws ->
  1 <= ws ->
  len (samples d ++ newSamples) <= maxInt ->
  len (audioLevels d) * ws <= maxInt ->
  len (samples d ++ newSamples) - len (audioLevels d) * ws < ws ->
  Add AudioLevel d newSamples sampleRate thr =
  Returned ({| audioLevels := audioLevels d; c := c d; samples := samples d ++ newSamples |}, []).
Proof.
  intros Hws Hpos Hmax Hmul Hshort.
  apply Add_short with (ws := ws); try assumption.
  pose proof (len_nonneg (audioLevels d)). split; [nia | exact Hmul].
Qed.

(** Claim C10 (reclassification requires new data).  A call whose
    processable samples are fewer than the window size returns before the
    levels are compared with the threshold: whatever the threshold, also one
    under which the buffered levels start with several silences or hold a
    confirmed run, no level and no sample is removed and no segment is
    emitted. *)
Theorem no_reclassification_without_new_window d newSamples sampleRate ws :
  audioLevelAnalysisSamplesCount sampleRate (StepDuration (c d)) = Returned ws ->
  len (samples d ++ newSamples) <= maxInt ->
  Go.sub (len (samples d ++ newSamples)) (Go.mul (len (audioLevels d)) ws) < ws ->
  forall thr : float,
    Add AudioLevel d newSamples sampleRate thr =
    Returned ({| audioLevels := audioLevels d; c := c d; samples := samples d ++ newSamples |},
              []).
Proof.
  intros Hws Hmax Hshort thr. now apply Add_early with (ws := ws).
Qed.

(** Claim C7, as the code has it.  A negative window size is not rejected:
    on a detector with no level in its buffer the call returns normally,
    computes no level, emits no segment and keeps the samples it had
    followed by the new ones. *)
Theorem negative_window_size_is_not_rejected d newSamples sampleRate thr ws :
  audioLevelAnalysisSamplesCount sampleRate (StepDuration (c d)) = Returned ws ->
  - 2 ^ 53 < ws < 0 ->
  audioLevels d = [] ->
  len (samples d ++ newSamples) < 2 ^ 53 ->
  Add AudioLevel d newSamples sampleRate thr =
  Returned ({| audioLevels := []; c := c d; samples := samples d ++ newSamples |}, []).
Proof.
  intros Hws Hneg Hlv Hmax.
  pose proof (len_nonneg (samples d ++ newSamples)) as Hs0.
  unfold Add, append.
  replace (len (samples d ++ newSamples) <=? maxInt) with true
    by (symmetry; apply Z.leb_le; unfold maxInt; lia).
  simpl Go.bind. rewrite Hws. simpl Go.bind. cbv zeta.
  rewrite Hlv. change (len (@nil float)) with 0.
  rewrite mul_small by (unfold minInt, maxInt; lia).
  rewrite Z.mul_0_l.
  rewrite sub_small by (unfold minInt, maxInt; lia).
  rewrite Z.sub_0_r.
  replace (len (samples d ++ newSamples) <? ws) with false
    by (symmetry; apply Z.ltb_ge; lia).
  destruct (floorQuot_negative_divisor (len (samples d ++ newSamples)) ws
              ltac:(lia) Hneg) as (n & -> & Hn).
  simpl Go.bind.
  replace (Z.to_nat n) with O by lia.
  reflexivity.
Qed.

End Early.

Section Sufficient.

Variable AudioLevel : list int32 -> float.

(** The loop bound of [scanMiddle] is never reached, and its index is
    always in range. *)
Lemma Add_loop_bound d newSamples sampleRate thr ws :
  audioLevelAnalysisSamplesCount sampleRate (StepDuration (c d)) = Returned ws ->
  1 <= ws ->
  len (samples d ++ newSamples) < 2 ^ 53 ->
  len (audioLevels d) * ws <= maxInt ->
  Add AudioLevel d newSamples sampleRate thr <> Stopped Fuel /\
  Add AudioLevel d newSamples sampleRate thr <> Stopped IndexRange.
Proof.
  intros Hws Hpos Hmax Hmul.
  pose proof (len_nonneg (audioLevels d)) as Hl0.
  destruct (Z.lt_ge_cases (len (samples d ++ newSamples) - len (audioLevels d) * ws) ws)
    as [Hshort | Hlong].
  - rewrite (Add_short AudioLevel d newSamples sampleRate thr ws);
      [split; discriminate | exact Hws | unfold maxInt; lia | nia | exact Hshort].
  - pose proof (Add_plan AudioLevel d newSamples sampleRate thr ws Hws Hpos
                  ltac:(unfold maxInt; lia) ltac:(split; [exact Hlong | nia])) as H.
    destruct (planAdd (gateOf (c d))
                (silentFlags (bufferLevels AudioLevel d newSamples ws) thr)) as [[p cuts] |].
    + rewrite H. split; discriminate.
    + destruct H as (f & -> & [-> | ->]); split; discriminate.
Qed.

End Sufficient.

Section Known.

Variable AudioLevel : list int32 -> float.

(** A call on a detector in lock-step whose buffer, with the new samples,
    is the windows [wins] and less than a window. *)
Lemma Add_windows d newSamples sampleRate thr ws wins tail p cuts :
  audioLevelAnalysisSamplesCount sampleRate (StepDuration (c d)) = Returned ws ->
  1 <= ws ->
  lockStep AudioLevel ws d ->
  samples d ++ newSamples = concat wins ++ tail ->
  Forall (fun w : list int32 => len w = ws) wins ->
  len tail < ws ->
  (length (audioLevels d) < length wins)%nat ->
  len (samples d ++ newSamples) < 2 ^ 53 ->
  planAdd (gateOf (c d)) (map (fun w => PrimFloat.ltb (AudioLevel w) thr) wins)
  = Some (p, cuts) ->
  Add AudioLevel d newSamples sampleRate thr =
  Returned (paired (c d) (map AudioLevel (skipn (p + list_sum cuts) wins))
                   (skipn (p + list_sum cuts) wins) tail,
            map (@concat _) (cutWindows cuts (skipn p wins))).
Proof.
  intros Hws Hpos Hls Hbuf Hsized Htail Hnew Hmax Hplan.
  assert (Hsized' : Forall (fun w : list int32 => length w = Z.to_nat ws) wins).
  { eapply Forall_impl; [| exact Hsized]. unfold len. simpl. intros w Hw. lia. }
  assert (Hlen : len (samples d ++ newSamples) = Z.of_nat (length wins) * ws + len tail).
  { rewrite Hbuf, len_app. unfold len at 1.
    rewrite (concat_sized_length (Z.to_nat ws)) by exact Hsized'. nia. }
  pose proof (len_nonneg tail) as Ht0.
  assert (Hproc : len (audioLevels d) * ws <= len (samples d ++ newSamples)).
  { rewrite Hlen. unfold len. nia. }
  assert (Hn : newWindows d newSamples ws = (length wins - length (audioLevels d))%nat).
  { unfold newWindows. rewrite Hlen. unfold len in Htail, Ht0 |- *.
    replace ((Z.of_nat (length wins) * ws + Z.of_nat (length tail)
              - Z.of_nat (length (audioLevels d)) * ws) / ws)
      with (Z.of_nat (length wins - length (audioLevels d))); [apply Nat2Z.id |].
    apply Z.div_unique with (r := Z.of_nat (length tail)); nia. }
  assert (Hbw : bufferWindows d newSamples ws = wins).
  { unfold bufferWindows. rewrite Hn, Hbuf.
    replace (length (audioLevels d) + (length wins - length (audioLevels d)))%nat
      with (length wins) by lia.
    now apply windowsOf_sized_app. }
  assert (Hbr : bufferRest d newSamples ws = tail).
  { unfold bufferRest. rewrite Hn, Hbuf.
    replace (length (audioLevels d) + (length wins - length (audioLevels d)))%nat
      with (length wins) by lia.
    rewrite skipn_sized by (try assumption; lia).
    rewrite skipn_all. reflexivity. }
  assert (Hbl : bufferLevels AudioLevel d newSamples ws = map AudioLevel wins).
  { rewrite (bufferLevels_lockStep AudioLevel d newSamples ws) by assumption.
    now rewrite Hbw. }
  pose proof (Add_plan AudioLevel d newSamples sampleRate thr ws Hws Hpos
                ltac:(unfold maxInt; lia) ltac:(rewrite Hlen; unfold len in *; nia)) as H.
  rewrite Hbl, Hbw, Hbr, silentFlags_map, Hplan in H.
  rewrite H, skipn_map. reflexivity.
Qed.

Lemma lockStep_New ws cfg : lockStep AudioLevel ws (NewSilenceDetector cfg).
Proof.
  unfold lockStep. simpl. split; [reflexivity |]. intros i Hi. lia.
Qed.

Lemma Add_fresh_windows cfg sampleRate thr ws wins tail p cuts :
  let d := NewSilenceDetector cfg in
  audioLevelAnalysisSamplesCount sampleRate (StepDuration (c d)) = Returned ws ->
  1 <= ws ->
  wins <> [] ->
  Forall (fun w : list int32 => len w = ws) wins ->
  len tail < ws ->
  len (concat wins ++ tail) < 2 ^ 53 ->
  planAdd (gateOf (c d)) (map (fun w => PrimFloat.ltb (AudioLevel w) thr) wins) = Some (p, cuts) ->
  Add AudioLevel d (concat wins ++ tail) sampleRate thr =
  Returned (paired (c d) (map AudioLevel (skipn (p + list_sum cuts) wins))
                   (skipn (p + list_sum cuts) wins) tail,
            map (@concat _) (cutWindows cuts (skipn p wins))).
Proof.
  intros d Hws Hpos Hne Hsized Htail Hmax Hplan.
  apply Add_windows with (ws := ws); try assumption.
  - apply lockStep_New.
  - reflexivity.
  - destruct wins; [congruence | simpl; lia].
Qed.


Lemma samplesCount_1000_30ms :
  audioLevelAnalysisSamplesCount 1000 (StepDuration (c (NewSilenceDetector cfg30_90)))
  = Returned 30.
Proof. vm_compute. reflexivity. Qed.

(** Claim C4 (scenario).  Steps of 30ms, silences of 90ms, 1000 samples a
    second: the window is 30 samples.  Ten windows are fed to a new
    detector; windows 0-1 are not below the threshold, windows 2-4 are,
    windows 5-9 are not.  [Add] emits one segment, the 60 samples of
    windows 0-1, and the buffer then holds windows 2 to 9. *)
Theorem scenario_one_segment thr (w0 w1 w2 w3 w4 w5 w6 w7 w8 w9 : list int32) :
  Forall (fun w => len w = 30) [w0; w1; w2; w3; w4; w5; w6; w7; w8; w9] ->
  map (fun w => PrimFloat.ltb (AudioLevel w) thr) [w0; w1; w2; w3; w4; w5; w6; w7; w8; w9]
  = [false; false; true; true; true; false; false; false; false; false] ->
  audioLevelAnalysisSamplesCount 1000 (StepDuration (c (NewSilenceDetector cfg30_90)))
  = Returned 30 /\
  Add AudioLevel (NewSilenceDetector cfg30_90)
      (concat [w0; w1; w2; w3; w4; w5; w6; w7; w8; w9]) 1000 thr
  = Returned ({| audioLevels := map AudioLevel [w2; w3; w4; w5; w6; w7; w8; w9];
                 c := cfg30_90;
                 samples := concat [w2; w3; w4; w5; w6; w7; w8; w9] |},
              [w0 ++ w1]) /\
  len (w0 ++ w1) = 60.
Proof.
  intros Hsized Hflags.
  split; [exact samplesCount_1000_30ms |]. split.
  - pose proof (Add_fresh_windows cfg30_90 1000 thr 30
                  [w0; w1; w2; w3; w4; w5; w6; w7; w8; w9] [] 0 [2%nat]
                  samplesCount_1000_30ms ltac:(lia) ltac:(discriminate) Hsized
                  ltac:(unfold len; simpl; lia)) as H.
    rewrite app_nil_r in H. rewrite H.
    + unfold paired. simpl. rewrite !app_nil_r. reflexivity.
    + unfold len.
      rewrite (concat_sized_length 30).
      * simpl. lia.
      * eapply Forall_impl; [| exact Hsized]. unfold len. simpl. intros w Hw. lia.
    + rewrite Hflags. vm_compute. reflexivity.
  - inversion Hsized as [| ? ? H0 Hs1]; subst. inversion Hs1 as [| ? ? H1 _]; subst.
    rewrite len_app. lia.
Qed.

(** Claim C2, at its failing input.  Same configuration; nine windows are
    fed to a new detector: window 0 is not below the threshold, windows 1-3
    are, window 4 is not, windows 5-7 are, window 8 is not.  Both runs last
    90ms.  [Add] emits window 0 only: after the first cut the index of the
    loop is not moved back with the buffer, window 5 is skipped and the
    second run is counted as two windows. *)
Theorem scenario_second_run_missed thr (w0 w1 w2 w3 w4 w5 w6 w7 w8 : list int32) :
  Forall (fun w => len w = 30) [w0; w1; w2; w3; w4; w5; w6; w7; w8] ->
  map (fun w => PrimFloat.ltb (AudioLevel w) thr) [w0; w1; w2; w3; w4; w5; w6; w7; w8]
  = [false; true; true; true; false; true; true; true; false] ->
  Add AudioLevel (NewSilenceDetector cfg30_90)
      (concat [w0; w1; w2; w3; w4; w5; w6; w7; w8]) 1000 thr
  = Returned ({| audioLevels := map AudioLevel [w1; w2; w3; w4; w5; w6; w7; w8];
                 c := cfg30_90;
                 samples := concat [w1; w2; w3; w4; w5; w6; w7; w8] |},
              [w0]).
Proof.
  intros Hsized Hflags.
  pose proof (Add_fresh_windows cfg30_90 1000 thr 30
                [w0; w1; w2; w3; w4; w5; w6; w7; w8] [] 0 [1%nat]
                samplesCount_1000_30ms ltac:(lia) ltac:(discriminate) Hsized
                ltac:(unfold len; simpl; lia)) as H.
  rewrite app_nil_r in H. rewrite H.
  - unfold paired. simpl. rewrite !app_nil_r. reflexivity.
  - unfold len.
    rewrite (concat_sized_length 30).
    + simpl. lia.
    + eapply Forall_impl; [| exact Hsized]. unfold len. simpl. intros w Hw. lia.
  - rewrite Hflags. vm_compute. reflexivity.
Qed.

End Known.

(** ** One run of silences in the middle *)

Section Runs.

Variable gate : nat -> bool.
Hypothesis gate_zero : gate O = false.

Lemma planScan_exit (fuel : nat) flags (i cnt : nat) :
  (length flags <= i)%nat -> planScan gate fuel flags i cnt = Some (i, cnt, []).
Proof.
  intros H.
  assert (Hi : (i <? length flags)%nat = false) by (apply Nat.ltb_ge; exact H).
  destruct fuel; simpl; now rewrite Hi.
Qed.

Lemma planScan_louds flags (m : nat) :
  forall (fuel i : nat),
    (forall j, i <= j < i + m -> nth_error flags j = Some false)%nat ->
    planScan gate (m + fuel) flags i 0 = planScan gate fuel flags (i + m) 0.
Proof.
  induction m as [| m IH]; intros fuel i H.
  - now rewrite Nat.add_0_r.
  - assert (Hi : nth_error flags i = Some false) by (apply H; lia).
    assert (Hlt : (i <? length flags)%nat = true).
    { apply Nat.ltb_lt, nth_error_Some. congruence. }
    simpl. rewrite Hlt, Hi, gate_zero.
    rewrite IH by (intros j Hj; apply H; lia).
    f_equal. lia.
Qed.

Lemma planScan_silences flags (m : nat) :
  forall (fuel i cnt : nat),
    (forall j, i <= j < i + m -> nth_error flags j = Some true)%nat ->
    planScan gate (m + fuel) flags i cnt = planScan gate fuel flags (i + m) (cnt + m).
Proof.
  induction m as [| m IH]; intros fuel i cnt H.
  - now rewrite !Nat.add_0_r.
  - assert (Hi : nth_error flags i = Some true) by (apply H; lia).
    assert (Hlt : (i <? length flags)%nat = true).
    { apply Nat.ltb_lt, nth_error_Some. congruence. }
    simpl. rewrite Hlt, Hi.
    rewrite IH by (intros j Hj; apply H; lia).
    f_equal; lia.
Qed.

Lemma run_flags_nth (a n b j : nat) :
  nth_error (repeat false a ++ repeat true n ++ repeat false b) j
  = if (j <? a)%nat then Some false
    else if (j <? a + n)%nat then Some true
         else if (j <? a + n + b)%nat then Some false else None.
Proof.
  destruct (Nat.ltb_spec j a).
  - rewrite nth_error_app1 by (rewrite repeat_length; lia).
    now apply nth_error_repeat.
  - rewrite nth_error_app2 by (rewrite repeat_length; lia).
    rewrite repeat_length.
    destruct (Nat.ltb_spec j (a + n)).
    + rewrite nth_error_app1 by (rewrite repeat_length; lia).
      apply nth_error_repeat. lia.
    + rewrite nth_error_app2 by (rewrite repeat_length; lia).
      rewrite repeat_length.
      destruct (Nat.ltb_spec j (a + n + b)).
      * apply nth_error_repeat. lia.
      * apply nth_error_None. rewrite repeat_length. lia.
Qed.

Lemma planAdd_one_run (a n b : nat) :
  (1 <= a)%nat -> (1 <= n)%nat ->
  planAdd gate (repeat false a ++ repeat true n ++ repeat false b)
  = Some (O, if gate n then [a] else []).
Proof.
  intros Ha Hn.
  pose proof (run_flags_nth a n b) as Hnth.
  assert (Hskip : skipn a (repeat false a ++ repeat true n ++ repeat false b)
                  = repeat false 0 ++ repeat true n ++ repeat false b).
  { rewrite skipn_app, repeat_length, Nat.sub_diag.
    rewrite skipn_all2 by (rewrite repeat_length; lia). reflexivity. }
  assert (Hlen : length (repeat false a ++ repeat true n ++ repeat false b)
                 = (a + n + b)%nat).
  { rewrite !length_app, !repeat_length. lia. }
  assert (Hp : prunedWindows (repeat false a ++ repeat true n ++ repeat false b) = O).
  { unfold prunedWindows. destruct a; [lia |]. reflexivity. }
  set (flags := repeat false a ++ repeat true n ++ repeat false b) in *.
  clearbody flags.
  assert (Hloud1 : forall j, (j < a)%nat -> nth_error flags j = Some false).
  { intros j Hj. rewrite Hnth.
    replace (j <? a)%nat with true by (symmetry; apply Nat.ltb_lt; lia). reflexivity. }
  assert (Hsil : forall j, (a <= j < a + n)%nat -> nth_error flags j = Some true).
  { intros j Hj. rewrite Hnth.
    replace (j <? a)%nat with false by (symmetry; apply Nat.ltb_ge; lia).
    replace (j <? a + n)%nat with true by (symmetry; apply Nat.ltb_lt; lia). reflexivity. }
  assert (Hloud2 : forall j, (a + n <= j < a + n + b)%nat -> nth_error flags j = Some false).
  { intros j Hj. rewrite Hnth.
    replace (j <? a)%nat with false by (symmetry; apply Nat.ltb_ge; lia).
    replace (j <? a + n)%nat with false by (symmetry; apply Nat.ltb_ge; lia).
    replace (j <? a + n + b)%nat with true by (symmetry; apply Nat.ltb_lt; lia).
    reflexivity. }
  clear Hnth.
  unfold planAdd. rewrite Hp. simpl skipn. rewrite Hlen.
  replace (a + n + b <=? 1)%nat with false by (symmetry; apply Nat.leb_gt; lia).
  replace (a + n + b)%nat with ((a - 1) + (n + (b + 1)))%nat at 1 by lia.
  rewrite planScan_louds by (intros j Hj; apply Hloud1; lia).
  rewrite planScan_silences by (intros j Hj; apply Hsil; lia).
  replace (1 + (a - 1) + n)%nat with (a + n)%nat by lia.
  simpl (0 + n)%nat.
  destruct b as [| b].
  - rewrite planScan_exit by lia.
    destruct (gate n); [| reflexivity].
    replace (a + n - n <=? a + n + 0 - list_sum [])%nat with true
      by (symmetry; apply Nat.leb_le; simpl; lia).
    simpl. do 3 f_equal. lia.
  - replace (S b + 1)%nat with (S (b + 1)) by lia.
    simpl planScan at 1. rewrite Hlen.
    replace (a + n <? a + n + S b)%nat with true by (symmetry; apply Nat.ltb_lt; lia).
    rewrite (Hloud2 (a + n)%nat) by lia.
    replace (a + n - n)%nat with a by lia.
    destruct (gate n).
    + rewrite Hskip.
      remember (n + S b - S (a + n))%nat as m eqn:Hm.
      replace (b + 1)%nat with (m + (b + 1 - m))%nat by lia.
      rewrite planScan_louds.
      * rewrite planScan_exit
          by (rewrite !length_app, !repeat_length; simpl; lia).
        rewrite gate_zero. reflexivity.
      * intros j Hj. rewrite run_flags_nth. simpl (j <? 0)%nat.
        replace (j <? 0 + n)%nat with false by (symmetry; apply Nat.ltb_ge; lia).
        replace (j <? 0 + n + S b)%nat with true by (symmetry; apply Nat.ltb_lt; lia).
        reflexivity.
    + rewrite planScan_louds by (intros j Hj; apply Hloud2; lia).
      rewrite planScan_exit by lia.
      rewrite gate_zero. reflexivity.
Qed.

End Runs.

Lemma map_constant {A B : Type} (f : A -> B) (b : B) (l : list A) :
  Forall (fun x => f x = b) l -> map f l = repeat b (length l).
Proof. induction 1 as [| x l Hx _ IH]; simpl; [reflexivity | now rewrite Hx, IH]. Qed.

Section Gate.

Variable AudioLevel : list int32 -> float.

(** Property X13 (the gate on one run).  The detector is in lock-step and its
    minimum silence is positive.  With the new samples, of which at least
    one window is formed, the buffer is whole windows: some that are not
    below the threshold, then a run of [n >= 1] that are, then some that are
    not (possibly none: the run ends the buffer), then less than a window.
    The call splits, emitting what precedes the run and keeping the run
    and what follows, if and only if [n * step_duration >=
    silence_min_duration]; otherwise it emits nothing and keeps
    everything.  [n * step_duration] is taken to fit a [Duration]. *)
Theorem minimum_duration_gate d newSamples sampleRate ws thr
    (pre run post : list (list int32)) (tail : list int32) :
  audioLevelAnalysisSamplesCount sampleRate (StepDuration (c d)) = Returned ws ->
  1 <= ws ->
  0 < SilenceMinDuration (c d) ->
  lockStep AudioLevel ws d ->
  samples d ++ newSamples = concat (pre ++ run ++ post) ++ tail ->
  (length (audioLevels d) < length (pre ++ run ++ post))%nat ->
  pre <> [] -> run <> [] ->
  Forall (fun w => len w = ws) (pre ++ run ++ post) ->
  Forall (fun w => PrimFloat.ltb (AudioLevel w) thr = false) pre ->
  Forall (fun w => PrimFloat.ltb (AudioLevel w) thr = true) run ->
  Forall (fun w => PrimFloat.ltb (AudioLevel w) thr = false) post ->
  len tail < ws ->
  len (samples d ++ newSamples) < 2 ^ 53 ->
  minInt <= len run * StepDuration (c d) <= maxInt ->
  Add AudioLevel d newSamples sampleRate thr =
  if SilenceMinDuration (c d) <=? len run * StepDuration (c d)
  then Returned ({| audioLevels := map AudioLevel (run ++ post);
                    c := c d;
                    samples := concat (run ++ post) ++ tail |},
                 [concat pre])
  else Returned ({| audioLevels := map AudioLevel (pre ++ run ++ post);
                    c := c d;
                    samples := concat (pre ++ run ++ post) ++ tail |},
                 []).
Proof.
  intros Hws Hpos Hmin Hls Hbuf Hnew Hpre Hrun Hsized Hloud1 Hsil Hloud2 Htail Hmax Hdur.
  assert (Hflags : map (fun w => PrimFloat.ltb (AudioLevel w) thr) (pre ++ run ++ post)
                   = repeat false (length pre) ++ repeat true (length run)
                     ++ repeat false (length post)).
  { rewrite !map_app.
    rewrite (map_constant _ false pre), (map_constant _ true run),
      (map_constant _ false post) by assumption.
    reflexivity. }
  assert (Ha : (1 <= length pre)%nat) by (destruct pre; [congruence | simpl; lia]).
  assert (Hn : (1 <= length run)%nat) by (destruct run; [congruence | simpl; lia]).
  assert (Hgate : gateOf (c d) (length run)
                  = (SilenceMinDuration (c d) <=? len run * StepDuration (c d))).
  { unfold gateOf, tooManySilences. now rewrite mul_small by exact Hdur. }
  pose proof (planAdd_one_run (gateOf (c d)) (gateOf_zero _ Hmin)
                (length pre) (length run) (length post) Ha Hn) as Hplan.
  rewrite <- Hflags in Hplan.
  rewrite (Add_windows AudioLevel d newSamples sampleRate thr ws (pre ++ run ++ post) tail
             O (if gateOf (c d) (length run) then [length pre] else []));
    try assumption.
  rewrite <- Hgate.
  destruct (gateOf (c d) (length run)); unfold paired; simpl.
  - rewrite Nat.add_0_r, skipn_app, Nat.sub_diag, skipn_all. simpl.
    rewrite firstn_app, Nat.sub_diag, firstn_all. simpl. rewrite app_nil_r.
    reflexivity.
  - reflexivity.
Qed.

End Gate.

(** ** A second run in one call *)

Section GateMissed.

Variable AudioLevel : list int32 -> float.

(** Claim C6, at its failing input.  Steps of 30ms and a minimum silence
    of 90ms; eleven windows of 30 samples are fed to a new detector at a
    rate of 1000: windows 0-1 are not below the threshold, windows 2-4
    are, windows 5-6 are not, windows 7-9 are, window 10 is not.  The
    second run has three windows, [3 * 30ms >= 90ms] holds, and it ends at
    a window that is not a silence; yet [Add] emits windows 0-1 only and
    keeps windows 2-10.  After the first cut the buffers lose two windows
    and the index of the loop stays: windows 6 and 7 are skipped and the
    second run is counted as two windows. *)
Theorem second_run_at_the_minimum_is_not_split thr
    (w0 w1 w2 w3 w4 w5 w6 w7 w8 w9 w10 : list int32) :
  Forall (fun w => len w = 30) [w0; w1; w2; w3; w4; w5; w6; w7; w8; w9; w10] ->
  map (fun w => PrimFloat.ltb (AudioLevel w) thr)
      [w0; w1; w2; w3; w4; w5; w6; w7; w8; w9; w10]
  = [false; false; true; true; true; false; false; true; true; true; false] ->
  tooManySilences cfg30_90 (len [w7; w8; w9]) = true /\
  Add AudioLevel (NewSilenceDetector cfg30_90)
      (concat [w0; w1; w2; w3; w4; w5; w6; w7; w8; w9; w10]) 1000 thr
  = Returned ({| audioLevels := map AudioLevel [w2; w3; w4; w5; w6; w7; w8; w9; w10];
                 c := cfg30_90;
                 samples := concat [w2; w3; w4; w5; w6; w7; w8; w9; w10] |},
              [w0 ++ w1]).
Proof.
  intros Hsized Hflags.
  split; [vm_compute; reflexivity |].
  pose proof (Add_fresh_windows AudioLevel cfg30_90 1000 thr 30
                [w0; w1; w2; w3; w4; w5; w6; w7; w8; w9; w10] [] 0 [2%nat]
                (samplesCount_1000_30ms) ltac:(lia) ltac:(discriminate) Hsized
                ltac:(unfold len; simpl; lia)) as H.
  rewrite app_nil_r in H. rewrite H.
  - unfold paired. simpl. rewrite !app_nil_r. reflexivity.
  - unfold len.
    rewrite (concat_sized_length 30).
    + simpl. lia.
    + eapply Forall_impl; [| exact Hsized]. unfold len. simpl. intros w Hw. lia.
  - rewrite Hflags. vm_compute. reflexivity.
Qed.

End GateMissed.


(** * Further properties of the detector *)

(** ** The constructor *)

(** Property X1 (defaults of the constructor).  A new detector has empty
    buffers and no duration of zero: a zero is replaced (one second,
    thirty milliseconds), any other value is kept, a negative one too.
    The configuration of a new detector makes the same detector again. *)
Theorem NewSilenceDetector_defaults (cfg : SilenceDetectorConfiguration) :
  let d := NewSilenceDetector cfg in
  audioLevels d = [] /\ samples d = [] /\
  SilenceMinDuration (c d) <> 0 /\ StepDuration (c d) <> 0 /\
  (SilenceMinDuration cfg <> 0 -> SilenceMinDuration (c d) = SilenceMinDuration cfg) /\
  (StepDuration cfg <> 0 -> StepDuration (c d) = StepDuration cfg) /\
  (SilenceMinDuration cfg = 0 -> SilenceMinDuration (c d) = Second) /\
  (StepDuration cfg = 0 -> StepDuration (c d) = 30 * Millisecond) /\
  NewSilenceDetector (c d) = d.
Proof.
  destruct cfg as [m s]. unfold NewSilenceDetector, Reset. simpl.
  destruct (Z.eqb_spec m 0) as [-> | Hm]; destruct (Z.eqb_spec s 0) as [-> | Hs]; simpl;
    repeat match goal with
           | |- _ /\ _ => split
           | |- _ -> _ => intro
           | |- context [?x =? 0] =>
               destruct (Z.eqb_spec x 0); [unfold Second, Millisecond in *; lia |]; simpl
           end;
    try reflexivity; try contradiction; unfold Second, Millisecond; lia.
Qed.

(** ** A window of no sample *)

Lemma quotient_by_zero (a : Z) :
  0 <= a < 2 ^ 53 ->
  Prim2SF (PrimFloat.div (float64 a) (float64 0))
  = (if a =? 0 then S754_nan else S754_infinity false).
Proof.
  intros Ha. rewrite div_spec, Prim2SF_float64_zero. unfold SF64div.
  destruct (Z.eqb_spec a 0) as [-> | Hne].
  - now rewrite Prim2SF_float64_zero.
  - destruct (Prim2SF_float64_pos a ltac:(lia)) as (m & e & -> & _). reflexivity.
Qed.

Section ZeroWindow.

Variable AudioLevel : list int32 -> float.

(** Property X4 (window size of zero).  When the sample rate times the
    step is less than one sample (a sample rate of 0, or of 33 with steps
    of 30ms), no call returns early: every call divides the number of
    samples by zero and converts the quotient, NaN on an empty buffer and
    +Inf otherwise, to an [int], which Go leaves to the implementation. *)
Theorem zero_window_size_divides_by_zero d newSamples sampleRate thr :
  audioLevelAnalysisSamplesCount sampleRate (StepDuration (c d)) = Returned 0 ->
  len (samples d ++ newSamples) < 2 ^ 53 ->
  Prim2SF (PrimFloat.div (float64 (len (samples d ++ newSamples))) (float64 0))
  = (if len (samples d ++ newSamples) =? 0 then S754_nan else S754_infinity false) /\
  Add AudioLevel d newSamples sampleRate thr = Stopped ImplDefined.
Proof.
  intros Hws Hmax.
  pose proof (len_nonneg (samples d ++ newSamples)) as H0.
  pose proof (quotient_by_zero _ (conj H0 Hmax)) as Hq.
  split; [exact Hq |].
  unfold Add, append.
  replace (len (samples d ++ newSamples) <=? maxInt) with true
    by (symmetry; apply Z.leb_le; unfold maxInt; lia).
  simpl Go.bind. rewrite Hws. simpl Go.bind. cbv zeta.
  unfold Go.mul, Go.sub. rewrite Z.mul_0_r. change (wrap64 0) with 0.
  rewrite Z.sub_0_r, wrap64_small by (unfold minInt, maxInt; lia).
  replace (len (samples d ++ newSamples) <? 0) with false
    by (symmetry; apply Z.ltb_ge; lia).
  unfold floorQuot, intFloor. rewrite Hq.
  destruct (len (samples d ++ newSamples) =? 0); reflexivity.
Qed.

(** Property X5 (bound of the loop of levels).  For a buffer and a window
    below 2^53 samples the bound, a quotient of [float64] values that is
    rounded and then floored, is the integer quotient: rounding costs no
    window and adds none. *)
Theorem loop_bound_is_the_integer_quotient (processableSamplesCount ws : Z) :
  0 < ws <= processableSamplesCount ->
  processableSamplesCount < 2 ^ 53 ->
  floorQuot processableSamplesCount ws = Returned (processableSamplesCount / ws).
Proof.
  intros Hws Hmax. apply floorQuot_positive; lia.
Qed.

Lemma Add_windows_stops d newSamples sampleRate thr ws wins tail :
  audioLevelAnalysisSamplesCount sampleRate (StepDuration (c d)) = Returned ws ->
  1 <= ws ->
  lockStep AudioLevel ws d ->
  samples d ++ newSamples = concat wins ++ tail ->
  Forall (fun w : list int32 => len w = ws) wins ->
  len tail < ws ->
  (length (audioLevels d) < length wins)%nat ->
  len (samples d ++ newSamples) < 2 ^ 53 ->
  planAdd (gateOf (c d)) (map (fun w => PrimFloat.ltb (AudioLevel w) thr) wins) = None ->
  exists f, Add AudioLevel d newSamples sampleRate thr = Stopped f /\
            (f = SliceBounds \/ f = BeyondLen).
Proof.
  intros Hws Hpos Hls Hbuf Hsized Htail Hnew Hmax Hplan.
  assert (Hsized' : Forall (fun w : list int32 => length w = Z.to_nat ws) wins).
  { eapply Forall_impl; [| exact Hsized]. unfold len. simpl. intros w Hw. lia. }
  assert (Hlen : len (samples d ++ newSamples) = Z.of_nat (length wins) * ws + len tail).
  { rewrite Hbuf, len_app. unfold len at 1.
    rewrite (concat_sized_length (Z.to_nat ws)) by exact Hsized'. nia. }
  pose proof (len_nonneg tail) as Ht0.
  assert (Hproc : len (audioLevels d) * ws <= len (samples d ++ newSamples)).
  { rewrite Hlen. unfold len. nia. }
  assert (Hn : newWindows d newSamples ws = (length wins - length (audioLevels d))%nat).
  { unfold newWindows. rewrite Hlen. unfold len in Htail, Ht0 |- *.
    replace ((Z.of_nat (length wins) * ws + Z.of_nat (length tail)
              - Z.of_nat (length (audioLevels d)) * ws) / ws)
      with (Z.of_nat (length wins - length (audioLevels d))); [apply Nat2Z.id |].
    apply Z.div_unique with (r := Z.of_nat (length tail)); nia. }
  assert (Hbl : bufferLevels AudioLevel d newSamples ws = map AudioLevel wins).
  { rewrite (bufferLevels_lockStep AudioLevel d newSamples ws) by assumption.
    unfold bufferWindows. rewrite Hn, Hbuf.
    replace (length (audioLevels d) + (length wins - length (audioLevels d)))%nat
      with (length wins) by lia.
    now rewrite windowsOf_sized_app. }
  pose proof (Add_plan AudioLevel d newSamples sampleRate thr ws Hws Hpos
                ltac:(unfold maxInt; lia) ltac:(rewrite Hlen; unfold len in *; nia)) as H.
  rewrite Hbl, silentFlags_map, Hplan in H. exact H.
Qed.

(** Property X12 (negative minimum duration).  The constructor keeps it,
    and then a window that is not below the threshold ends a silence of no
    window.  When the buffer of a call is two whole windows, neither below
    the threshold, the call cuts after the first and then takes a slice
    out of the range of the buffer: a panic, or a read of spare
    capacity. *)
Theorem negative_minimum_slices_out_of_range d newSamples sampleRate thr ws
    (w0 w1 tail : list int32) :
  audioLevelAnalysisSamplesCount sampleRate (StepDuration (c d)) = Returned ws ->
  1 <= ws ->
  SilenceMinDuration (c d) < 0 ->
  lockStep AudioLevel ws d ->
  samples d ++ newSamples = w0 ++ w1 ++ tail ->
  len w0 = ws -> len w1 = ws -> len tail < ws ->
  (length (audioLevels d) <= 1)%nat ->
  len (samples d ++ newSamples) < 2 ^ 53 ->
  PrimFloat.ltb (AudioLevel w0) thr = false ->
  PrimFloat.ltb (AudioLevel w1) thr = false ->
  exists f, Add AudioLevel d newSamples sampleRate thr = Stopped f /\
            (f = SliceBounds \/ f = BeyondLen).
Proof.
  intros Hws Hpos Hmin Hls Hbuf H0 H1 Htail Hlv Hmax Hl0 Hl1.
  apply (Add_windows_stops d newSamples sampleRate thr ws [w0; w1] tail); try assumption.
  - simpl. now rewrite app_nil_r, <- app_assoc.
  - repeat constructor; assumption.
  - simpl. lia.
  - simpl. rewrite Hl0, Hl1.
    assert (Hgate : gateOf (c d) 0 = true).
    { unfold gateOf, tooManySilences. simpl Z.of_nat.
      unfold Go.mul. rewrite Z.mul_0_l. change (wrap64 0) with 0.
      apply Z.leb_le. lia. }
    unfold planAdd. simpl. rewrite !Hgate. simpl. rewrite ?Hgate. reflexivity.
Qed.

End ZeroWindow.

(** ** What a call keeps, whatever the state it is made in *)

Lemma sliceFrom_Returned {A : Type} (s r : list A) (lo : Z) :
  sliceFrom s lo = Returned r -> r = skipn (Z.to_nat lo) s.
Proof.
  unfold sliceFrom. destruct ((0 <=? lo) && (lo <=? len s)); [| discriminate].
  now intros [= <-].
Qed.

Lemma makeCopy_Returned {A : Type} (s r : list A) (n : Z) :
  makeCopy s n = Returned r -> r = firstn (Z.to_nat n) s.
Proof.
  unfold makeCopy, slice. destruct (n <? 0); [discriminate |].
  destruct ((0 <=? 0) && (0 <=? n)); [| discriminate].
  destruct (n <=? len s); [| discriminate].
  intros [= <-]. now rewrite Z.sub_0_r.
Qed.

Lemma process_Returned d ws i silencesCount validSamples d' validSamples' :
  processSilencesInTheMiddle d ws i silencesCount validSamples
  = Returned (d', validSamples') ->
  c d' = c d /\
  concat validSamples' ++ samples d' = concat validSamples ++ samples d.
Proof.
  unfold processSilencesInTheMiddle.
  destruct (tooManySilences (c d) silencesCount).
  - intros H.
    apply bind_Returned in H. destruct H as (smp & Hsmp & H).
    apply bind_Returned in H. destruct H as (lv & _ & H).
    apply bind_Returned in H. destruct H as (rest & Hrest & H).
    injection H as <- <-. simpl.
    apply makeCopy_Returned in Hsmp. apply sliceFrom_Returned in Hrest.
    subst smp rest. split; [reflexivity |].
    rewrite concat_app. simpl. rewrite app_nil_r, <- app_assoc.
    now rewrite firstn_skipn.
  - intros [= <- <-]. auto.
Qed.

Lemma scanMiddle_Returned ws thr (fuel : nat) :
  forall d i silencesCount validSamples d' i' silencesCount' validSamples',
    scanMiddle fuel d ws thr i silencesCount validSamples
    = Returned (d', i', silencesCount', validSamples') ->
    c d' = c d /\
    concat validSamples' ++ samples d' = concat validSamples ++ samples d.
Proof.
  induction fuel as [| fuel IH]; intros d i s vs d' i' s' vs'; simpl.
  - destruct (i <? len (audioLevels d)); [discriminate |]. intros [= <- _ _ <-]. auto.
  - destruct (i <? len (audioLevels d)); [| intros [= <- _ _ <-]; auto].
    destruct (nth_error (audioLevels d) (Z.to_nat i)) as [l |]; [| discriminate].
    destruct (PrimFloat.ltb l thr).
    + apply IH.
    + intros H. apply bind_Returned in H. destruct H as ([d1 vs1] & Hp & H).
      apply process_Returned in Hp. destruct Hp as [Hc Hcat].
      apply IH in H. destruct H as [Hc' Hcat'].
      split; congruence.
Qed.

Section Kept.

Variable AudioLevel : list int32 -> float.

Lemma Add_Returned d newSamples sampleRate thr d' validSamples :
  Add AudioLevel d newSamples sampleRate thr = Returned (d', validSamples) ->
  c d' = c d /\
  exists dropped : list int32,
    samples d ++ newSamples = dropped ++ concat validSamples ++ samples d'.
Proof.
  unfold Add. intros H.
  apply bind_Returned in H. destruct H as (smp & Hsmp & H).
  unfold append in Hsmp.
  destruct (len (samples d ++ newSamples) <=? maxInt); [| discriminate].
  injection Hsmp as <-.
  apply bind_Returned in H. destruct H as (ws & _ & H).
  cbv zeta in H.
  destruct (_ <? ws).
  { injection H as <- <-. split; [reflexivity |]. now exists []. }
  apply bind_Returned in H. destruct H as (n & _ & H).
  apply bind_Returned in H. destruct H as (levels & _ & H).
  apply bind_Returned in H. destruct H as ([levels1 smp1] & Hkeep & H).
  assert (Hdrop : exists dropped, samples d ++ newSamples = dropped ++ smp1).
  { unfold keepOneSilenceAtStart in Hkeep.
    destruct (1 <? countSilencesAtStart levels thr).
    - apply bind_Returned in Hkeep. destruct Hkeep as (lv & _ & Hkeep).
      apply bind_Returned in Hkeep. destruct Hkeep as (s1 & Hs1 & Hkeep).
      injection Hkeep as _ <-. apply sliceFrom_Returned in Hs1. subst s1.
      eexists. symmetry. apply firstn_skipn.
    - injection Hkeep as _ <-. now exists []. }
  destruct Hdrop as [dropped Hdrop].
  destruct (len levels1 <=? 1).
  { injection H as <- <-. split; [reflexivity |]. now exists dropped. }
  apply bind_Returned in H. destruct H as ([[[d2 i] s] vs] & Hscan & H).
  apply scanMiddle_Returned in Hscan. simpl in Hscan. destruct Hscan as [Hc2 Hcat2].
  apply process_Returned in H. destruct H as [Hc Hcat].
  split; [congruence |].
  exists dropped. rewrite Hdrop, Hcat, Hcat2. reflexivity.
Qed.

Lemma AddAll_config sampleRate calls :
  forall d trace,
    AddAll AudioLevel d sampleRate calls = Returned trace ->
    Forall (fun r => c (fst r) = c d) trace.
Proof.
  induction calls as [| [newSamples thr] calls IH]; intros d trace; simpl.
  - intros [= <-]. constructor.
  - intros H.
    apply bind_Returned in H. destruct H as ([d1 vs] & Hadd & H).
    apply bind_Returned in H. destruct H as (trace' & Hall & H).
    injection H as <-.
    apply Add_Returned in Hadd. destruct Hadd as [Hc _].
    constructor; [exact Hc |].
    rewrite <- Hc. now apply IH.
Qed.

(** Property X2 (the configuration outlives every call).  [Add] never
    writes to it, whatever the samples, the sample rate and the threshold:
    after any sequence of calls that return, every detector of the
    sequence has the configuration of the first, and [Reset] gives the
    state that [Reset] gave before the calls. *)
Theorem configuration_is_kept d sampleRate calls trace :
  AddAll AudioLevel d sampleRate calls = Returned trace ->
  Forall (fun r => c (fst r) = c d) trace /\
  Reset (lastDetector d trace) = Reset d.
Proof.
  intros H. pose proof (AddAll_config _ _ _ _ H) as Hc.
  split; [exact Hc |].
  unfold Reset, lastDetector. f_equal.
  destruct trace as [| r trace]; [reflexivity |].
  assert (Hlast : In (last (map fst (r :: trace)) d) (map fst (r :: trace))).
  { destruct (@exists_last _ (map fst (r :: trace)) ltac:(discriminate)) as (l' & a & Heq).
    rewrite Heq, last_last. apply in_or_app. right. now left. }
  apply in_map_iff in Hlast. destruct Hlast as (x & Hx & Hin).
  rewrite Forall_forall in Hc. rewrite <- Hx. now apply Hc.
Qed.

(** Property X3 (segments and buffer in order).  Whenever [Add]
    returns, whatever the state of the detector, the window size (also
    zero or negative) and the threshold, the samples it had and the new
    ones are, in order: samples it dropped, the segments it emitted, the
    samples it keeps.  No sample is emitted twice, emitted and kept, or
    out of order. *)
Theorem segments_and_buffer_in_order d newSamples sampleRate thr d' validSamples :
  Add AudioLevel d newSamples sampleRate thr = Returned (d', validSamples) ->
  exists dropped : list int32,
    samples d ++ newSamples = dropped ++ concat validSamples ++ samples d'.
Proof.
  intros H. now apply Add_Returned in H.
Qed.

End Kept.

(** ** Calls without samples *)

Section Idle.

Variable AudioLevel : list int32 -> float.

Lemma bufferRest_short d newSamples ws :
  1 <= ws ->
  len (audioLevels d) * ws <= len (samples d ++ newSamples) ->
  len (bufferRest d newSamples ws) < ws.
Proof.
  intros Hpos Hproc.
  pose proof (newWindows_bound d newSamples ws Hpos Hproc) as Hb.
  unfold bufferRest, len. rewrite length_skipn.
  assert (Hn : Z.of_nat (newWindows d newSamples ws)
               = (len (samples d ++ newSamples) - len (audioLevels d) * ws) / ws).
  { unfold newWindows. rewrite Z2Nat.id; [reflexivity |].
    apply Z.div_pos; lia. }
  pose proof (Z.div_mod (len (samples d ++ newSamples) - len (audioLevels d) * ws) ws
                ltac:(lia)) as Hdm.
  pose proof (Z.mod_pos_bound (len (samples d ++ newSamples) - len (audioLevels d) * ws) ws
                ltac:(lia)) as Hmod.
  rewrite <- Hn in Hdm. unfold len in *. nia.
Qed.

(** Property X11 (no flush).  After a call that returned, a call without
    samples changes nothing and emits nothing, whatever its threshold: an
    empty chunk does not bring out what the buffer holds. *)
Theorem empty_chunk_changes_nothing d newSamples sampleRate thr thr' ws d' validSamples :
  audioLevelAnalysisSamplesCount sampleRate (StepDuration (c d)) = Returned ws ->
  1 <= ws ->
  lockStep AudioLevel ws d ->
  len (samples d ++ newSamples) < 2 ^ 53 ->
  Add AudioLevel d newSamples sampleRate thr = Returned (d', validSamples) ->
  Add AudioLevel d' [] sampleRate thr' = Returned (d', []).
Proof.
  intros Hws Hpos Hls Hmax Hadd.
  pose proof Hls as [Hlen _].
  pose proof (len_nonneg (audioLevels d)) as Hl0.
  pose proof (len_nonneg newSamples) as Hn0.
  assert (Hproc : len (audioLevels d) * ws <= len (samples d ++ newSamples))
    by (rewrite len_app; lia).
  assert (Hmul : len (audioLevels d) * ws <= maxInt) by (unfold maxInt; lia).
  assert (Hshort : c d' = c d /\
                   0 <= len (audioLevels d') * ws <= len (samples d') /\
                   len (samples d') <= len (samples d ++ newSamples) /\
                   len (samples d') - len (audioLevels d') * ws < ws).
  { destruct (Add_inv AudioLevel _ _ _ _ _ _ _ Hws Hpos Hmul Hmax Hadd)
      as (_ & [(Hs & -> & _) | (_ & p & cuts & Hplan & -> & _)]).
    - simpl. repeat split; try lia; nia.
    - apply planAdd_facts in Hplan. destruct Hplan as (_ & _ & Hsum).
      rewrite silentFlags_length, bufferLevels_length in Hsum.
      pose proof (bufferWindows_sized d newSamples ws Hpos Hproc) as Hsized.
      pose proof (bufferRest_short d newSamples ws Hpos Hproc) as Hrest.
      pose proof (buffer_split d newSamples ws) as Hsplit.
      apply (f_equal (@length _)) in Hsplit.
      rewrite (length_app (concat (bufferWindows d newSamples ws))) in Hsplit.
      rewrite (concat_sized_length (Z.to_nat ws)) in Hsplit by exact Hsized.
      unfold paired. simpl. unfold len in *.
      rewrite length_app, length_skipn, bufferLevels_length.
      rewrite (concat_sized_length (Z.to_nat ws)) by (apply Forall_skipn; exact Hsized).
      rewrite length_skipn.
      set (k := (p + list_sum cuts)%nat) in *.
      set (W := length (bufferWindows d newSamples ws)) in *.
      set (R := length (bufferRest d newSamples ws)) in *.
      repeat split; try nia. }
  destruct Hshort as (Hc & Hlv' & Hle & Hshort).
  rewrite (Add_short AudioLevel d' [] sampleRate thr' ws); rewrite ?app_nil_r;
    try (unfold maxInt; lia).
  - destruct d'; reflexivity.
  - rewrite Hc. exact Hws.
Qed.

End Idle.

(** ** Audio without silence, and silence without audio *)

Lemma planAdd_all_loud (gate : nat -> bool) (n : nat) :
  gate O = false -> planAdd gate (repeat false n) = Some (O, []).
Proof.
  intros Hgate. unfold planAdd.
  assert (Hp : prunedWindows (repeat false n) = O) by (destruct n; reflexivity).
  rewrite Hp. simpl skipn. rewrite repeat_length.
  destruct (Nat.leb_spec n 1) as [Hn | Hn]; [reflexivity |].
  replace n with ((n - 1) + 1)%nat at 1 by lia.
  rewrite (planScan_louds gate Hgate).
  - replace (1 + (n - 1))%nat with n by lia.
    rewrite planScan_exit by (rewrite repeat_length; lia).
    now rewrite Hgate.
  - intros j Hj. apply nth_error_repeat. lia.
Qed.

Lemma planAdd_all_silent (gate : nat -> bool) (n : nat) :
  planAdd gate (repeat true (S n)) = Some (n, []).
Proof.
  unfold planAdd.
  assert (Hl : forall m, leadingSilences (repeat true m) = m)
    by (induction m; simpl; congruence).
  assert (Hp : prunedWindows (repeat true (S n)) = n)
    by (unfold prunedWindows; now rewrite Hl).
  rewrite Hp.
  replace (skipn n (repeat true (S n))) with [true]; [reflexivity |].
  clear. induction n; [reflexivity | exact IHn].
Qed.

Section NoSplit.

Variable AudioLevel : list int32 -> float.

(** Property X7 (audio without silence is kept whole).  When no window of
    the buffer, with the new samples, is below the threshold, a call that
    forms a new window emits nothing and drops nothing: the detector holds
    every sample it had and every new one, and a level for every whole
    window.  The buffer of a stream that is never silent grows with the
    stream. *)
Theorem loud_audio_is_buffered d newSamples sampleRate thr ws
    (wins : list (list int32)) (tail : list int32) :
  audioLevelAnalysisSamplesCount sampleRate (StepDuration (c d)) = Returned ws ->
  1 <= ws ->
  0 < SilenceMinDuration (c d) ->
  lockStep AudioLevel ws d ->
  samples d ++ newSamples = concat wins ++ tail ->
  Forall (fun w => len w = ws) wins ->
  len tail < ws ->
  (length (audioLevels d) < length wins)%nat ->
  len (samples d ++ newSamples) < 2 ^ 53 ->
  Forall (fun w => PrimFloat.ltb (AudioLevel w) thr = false) wins ->
  Add AudioLevel d newSamples sampleRate thr =
  Returned ({| audioLevels := map AudioLevel wins;
               c := c d;
               samples := samples d ++ newSamples |}, []).
Proof.
  intros Hws Hpos Hmin Hls Hbuf Hsized Htail Hnew Hmax Hloud.
  rewrite (Add_windows AudioLevel d newSamples sampleRate thr ws wins tail O []);
    try assumption.
  - unfold paired. simpl. now rewrite Hbuf.
  - rewrite (map_constant _ false wins) by assumption.
    apply planAdd_all_loud, gateOf_zero, Hmin.
Qed.

(** Property X8 (silence without audio takes one window).  When every
    window of the buffer, with the new samples, is below the threshold, a
    call that forms a new window emits nothing and keeps the last whole
    window, its level, and the samples after it: whatever the length of
    the silence and the minimum duration of the configuration. *)
Theorem silence_keeps_one_window d newSamples sampleRate thr ws
    (wins : list (list int32)) (w tail : list int32) :
  audioLevelAnalysisSamplesCount sampleRate (StepDuration (c d)) = Returned ws ->
  1 <= ws ->
  lockStep AudioLevel ws d ->
  samples d ++ newSamples = concat (wins ++ [w]) ++ tail ->
  Forall (fun w => len w = ws) (wins ++ [w]) ->
  len tail < ws ->
  (length (audioLevels d) <= length wins)%nat ->
  len (samples d ++ newSamples) < 2 ^ 53 ->
  Forall (fun w => PrimFloat.ltb (AudioLevel w) thr = true) (wins ++ [w]) ->
  Add AudioLevel d newSamples sampleRate thr =
  Returned ({| audioLevels := [AudioLevel w]; c := c d; samples := w ++ tail |}, []).
Proof.
  intros Hws Hpos Hls Hbuf Hsized Htail Hnew Hmax Hsil.
  rewrite (Add_windows AudioLevel d newSamples sampleRate thr ws (wins ++ [w]) tail
             (length wins) []);
    try assumption.
  - unfold paired. simpl. rewrite Nat.add_0_r.
    rewrite skipn_app, Nat.sub_diag, skipn_all. simpl. now rewrite app_nil_r.
  - rewrite length_app. simpl. lia.
  - rewrite (map_constant _ true (wins ++ [w])) by assumption.
    rewrite length_app. simpl. rewrite Nat.add_1_r.
    apply planAdd_all_silent.
Qed.

End NoSplit.

(** ** Every split is at a silence that lasts the minimum duration *)

Lemma planScan_sound (gate : nat -> bool) (fuel : nat) :
  forall (flags : list bool) (i cnt i' cnt' : nat) (cuts : list nat),
    planScan gate fuel flags i cnt = Some (i', cnt', cuts) ->
    (cnt <= i)%nat ->
    (forall j, i - cnt <= j < i -> nth_error flags j = Some true)%nat ->
    soundCuts gate flags cuts /\
    (cnt' <= i')%nat /\
    (forall j, i' - cnt' <= j < i' ->
               nth_error (skipn (list_sum cuts) flags) j = Some true)%nat.
Proof.
  induction fuel as [| fuel IH]; intros flags i cnt i' cnt' cuts; simpl.
  - destruct (i <? length flags)%nat; [discriminate |].
    intros [= <- <- <-] Hc Hrun. simpl. auto.
  - destruct (Nat.ltb_spec i (length flags)) as [Hi | Hi].
    2:{ intros [= <- <- <-] Hc Hrun. simpl. auto. }
    destruct (nth_error flags i) as [[|] |] eqn:Hflag; [| | discriminate].
    + intros H Hc Hrun. apply IH in H; [exact H | lia |].
      intros j Hj. destruct (Nat.eq_dec j i) as [-> | Hne]; [exact Hflag |].
      apply Hrun. lia.
    + destruct (gate cnt) eqn:Hgate.
      * destruct (planScan gate fuel (skipn (i - cnt) flags) (S i) 0)
          as [[[i1 cnt1] cuts1] |] eqn:Hrec; [| discriminate].
        intros [= <- <- <-] Hc Hrun.
        apply IH in Hrec; [| lia | intros j Hj; lia].
        destruct Hrec as (Hs & Hc1 & Hrun1).
        split; [| split; [exact Hc1 |]].
        -- simpl. split; [| exact Hs].
           exists cnt. split; [exact Hgate |]. split; [lia |].
           intros j Hj. apply Hrun. lia.
        -- intros j Hj. simpl list_sum.
           rewrite Nat.add_comm, <- skipn_skipn. now apply Hrun1.
      * intros H Hc Hrun. apply IH in H; [exact H | lia | intros j Hj; lia].
Qed.

Lemma soundCuts_app gate (cuts1 cuts2 : list nat) :
  forall flags,
    soundCuts gate flags cuts1 ->
    soundCuts gate (skipn (list_sum cuts1) flags) cuts2 ->
    soundCuts gate flags (cuts1 ++ cuts2).
Proof.
  induction cuts1 as [| t cuts1 IH]; intros flags H1 H2; simpl in *.
  - exact H2.
  - destruct H1 as [Hrun H1]. split; [exact Hrun |].
    apply IH; [exact H1 |].
    now rewrite skipn_skipn, Nat.add_comm.
Qed.

Lemma planAdd_sound gate flags p cuts :
  planAdd gate flags = Some (p, cuts) ->
  soundCuts gate (skipn p flags) cuts.
Proof.
  unfold planAdd.
  set (flags2 := skipn (prunedWindows flags) flags).
  destruct (length flags2 <=? 1)%nat; [intros [= <- <-]; exact I |].
  destruct (planScan gate (length flags2) flags2 1 0) as [[[i cnt] cuts0] |] eqn:Hscan;
    [| discriminate].
  pose proof (planScan_facts _ _ _ _ _ _ _ _ Hscan ltac:(lia) ltac:(lia))
    as (_ & Hsum & _ & _ & Hin & _).
  apply planScan_sound in Hscan; [| lia | intros j Hj; lia].
  destruct Hscan as (Hs & Hc & Hrun).
  destruct (gate cnt) eqn:Hgate; [| intros [= <- <-]; exact Hs].
  destruct (Nat.leb_spec (i - cnt) (length flags2 - list_sum cuts0)) as [Hle | Hle];
    [| discriminate].
  intros [= <- <-]. fold flags2.
  apply soundCuts_app; [exact Hs |].
  simpl. split; [| exact I].
  exists cnt. split; [exact Hgate |]. split.
  - rewrite length_skipn. destruct cnt; [lia |].
    specialize (Hin ltac:(lia)). lia.
  - intros j Hj. apply Hrun. lia.
Qed.

Section SplitsSound.

Variable AudioLevel : list int32 -> float.

Lemma cuts_at_silences (ws : Z) cfg thr (tail : list int32) (cuts : list nat) :
  forall wins : list (list int32),
    Forall (fun w => len w = ws) wins ->
    soundCuts (gateOf cfg) (map (fun w => PrimFloat.ltb (AudioLevel w) thr) wins) cuts ->
    splitsAtSilences AudioLevel ws cfg thr
      (map (@concat _) (cutWindows cuts wins))
      (concat (skipn (list_sum cuts) wins) ++ tail).
Proof.
  induction cuts as [| t cuts IH]; intros wins Hsized Hs; simpl; [exact I |].
  destruct Hs as [(n & Hgate & Hlen & Hrun) Hs].
  rewrite length_map in Hlen.
  split.
  - exists (firstn n (skipn t wins)), (concat (skipn n (skipn t wins)) ++ tail).
    split; [| split].
    + rewrite app_assoc.
      replace (skipn (t + list_sum cuts) wins) with (skipn (list_sum cuts) (skipn t wins))
        by (rewrite skipn_skipn; f_equal; lia).
      rewrite cutWindows_concat.
      rewrite app_assoc, <- concat_app, firstn_skipn. reflexivity.
    + apply Forall_forall. intros w Hin.
      apply In_nth_error in Hin. destruct Hin as [j Hj].
      assert (Hjn : (j < n)%nat).
      { assert (Hl : (j < length (firstn n (skipn t wins)))%nat)
          by (apply nth_error_Some; congruence).
        rewrite length_firstn in Hl. lia. }
      rewrite nth_error_firstn in Hj.
      replace (j <? n)%nat with true in Hj by (symmetry; apply Nat.ltb_lt; exact Hjn).
      rewrite nth_error_skipn in Hj.
      split.
      * rewrite Forall_forall in Hsized. apply Hsized.
        eapply nth_error_In. exact Hj.
      * specialize (Hrun j Hjn). rewrite nth_error_map, Hj in Hrun.
        simpl in Hrun. congruence.
    + unfold len. rewrite length_firstn, length_skipn.
      replace (Nat.min n (length wins - t)) with n by lia. exact Hgate.
  - replace (skipn (t + list_sum cuts) wins) with (skipn (list_sum cuts) (skipn t wins))
      by (rewrite skipn_skipn; f_equal; lia).
    apply IH.
    + now apply Forall_skipn.
    + now rewrite <- skipn_map.
Qed.

(** Property X9 (no split without a silence).  Whenever a call emits
    segments, each segment is followed, in what the call emits after it
    and keeps, by whole windows below the threshold of the call whose
    number passes the test of [processSilencesInTheMiddle]: they last the
    minimum duration of a silence.  The detector never cuts the audio
    where the silence is shorter. *)
Theorem every_split_is_at_a_silence d newSamples sampleRate thr ws d' validSamples :
  audioLevelAnalysisSamplesCount sampleRate (StepDuration (c d)) = Returned ws ->
  1 <= ws ->
  lockStep AudioLevel ws d ->
  len (samples d ++ newSamples) < 2 ^ 53 ->
  Add AudioLevel d newSamples sampleRate thr = Returned (d', validSamples) ->
  splitsAtSilences AudioLevel ws (c d) thr validSamples (samples d').
Proof.
  intros Hws Hpos Hls Hmax Hadd.
  pose proof Hls as [Hlen _].
  pose proof (len_nonneg (audioLevels d)) as Hl0.
  assert (Hproc : len (audioLevels d) * ws <= len (samples d ++ newSamples)).
  { rewrite len_app. pose proof (len_nonneg newSamples). lia. }
  assert (Hmul : len (audioLevels d) * ws <= maxInt) by (unfold maxInt; lia).
  destruct (Add_inv AudioLevel _ _ _ _ _ _ _ Hws Hpos Hmul Hmax Hadd)
    as (_ & [(_ & _ & ->) | (_ & p & cuts & Hplan & -> & ->)]); [exact I |].
  rewrite (bufferLevels_lockStep AudioLevel d newSamples ws) in * by assumption.
  rewrite silentFlags_map in Hplan.
  pose proof (planAdd_facts _ _ _ _ Hplan) as (_ & _ & Hsum).
  apply planAdd_sound in Hplan.
  pose proof (bufferWindows_sized d newSamples ws Hpos Hproc) as Hsized.
  unfold paired. simpl samples.
  replace (skipn (p + list_sum cuts) (bufferWindows d newSamples ws))
    with (skipn (list_sum cuts) (skipn p (bufferWindows d newSamples ws)))
    by (rewrite skipn_skipn; f_equal; lia).
  apply cuts_at_silences.
  - apply Forall_skipn.
    eapply Forall_impl; [| exact Hsized]. unfold len. simpl. intros w Hw. lia.
  - now rewrite <- skipn_map.
Qed.

End SplitsSound.

(** ** No segment is silence only *)

Section LoudCuts.

Variable gate : nat -> bool.
Hypothesis gate_zero : gate O = false.

Lemma planScan_keeps_loud (fuel : nat) :
  forall (flags : list bool) (i cnt i' cnt' : nat) (cuts : list nat),
    planScan gate fuel flags i cnt = Some (i', cnt', cuts) ->
    (cnt <= i)%nat ->
    loudBefore flags i cnt ->
    loudCuts flags cuts /\
    (cnt' <= i')%nat /\
    (length flags - list_sum cuts <= i')%nat /\
    loudBefore (skipn (list_sum cuts) flags) i' cnt'.
Proof.
  induction fuel as [| fuel IH]; intros flags i cnt i' cnt' cuts; simpl.
  - destruct (Nat.ltb_spec i (length flags)); [discriminate |].
    intros [= <- <- <-] Hc Hk. simpl. rewrite Nat.sub_0_r. auto.
  - destruct (Nat.ltb_spec i (length flags)) as [Hi | Hi].
    2:{ intros [= <- <- <-] Hc Hk. simpl. rewrite Nat.sub_0_r. auto. }
    destruct (nth_error flags i) as [[|] |] eqn:Hflag; [| | discriminate].
    + intros H Hc Hk. apply IH in H; [exact H | lia |].
      destruct Hk as [(j & Hj & Hf) | [_ Hf]]; [| congruence].
      left. exists j. split; [lia | exact Hf].
    + destruct (gate cnt) eqn:Hgate.
      * destruct (planScan gate fuel (skipn (i - cnt) flags) (S i) 0)
          as [[[i1 cnt1] cuts1] |] eqn:Hrec; [| discriminate].
        intros [= <- <- <-] Hc Hk.
        assert (Hcnt : cnt <> O) by (intros ->; congruence).
        apply IH in Hrec; [| lia |].
        -- destruct Hrec as (Hl & Hc1 & Hlen1 & Hk1).
           rewrite length_skipn in Hlen1.
           split; [| split; [exact Hc1 | split]].
           ++ simpl. split; [| exact Hl].
              destruct Hk as [Hk | [Hk _]]; [exact Hk | contradiction].
           ++ simpl. lia.
           ++ simpl list_sum. now rewrite Nat.add_comm, <- skipn_skipn.
        -- left. exists cnt. split; [lia |].
           rewrite nth_error_skipn.
           replace (i - cnt + cnt)%nat with i by lia. exact Hflag.
      * intros H Hc Hk. apply IH in H; [exact H | lia |].
        left. exists i. split; [lia | exact Hflag].
Qed.

Lemma loudCuts_app (cuts1 cuts2 : list nat) :
  forall flags,
    loudCuts flags cuts1 ->
    loudCuts (skipn (list_sum cuts1) flags) cuts2 ->
    loudCuts flags (cuts1 ++ cuts2).
Proof.
  induction cuts1 as [| t cuts1 IH]; intros flags H1 H2; simpl in *.
  - exact H2.
  - destruct H1 as [Hrun H1]. split; [exact Hrun |].
    apply IH; [exact H1 |].
    now rewrite skipn_skipn, Nat.add_comm.
Qed.

Lemma loudBefore_start flags :
  (leadingSilences flags <= 1)%nat -> (1 < length flags)%nat ->
  loudBefore flags 1 0.
Proof.
  intros Hl Hlen.
  destruct flags as [| [|] [| [|] flags]]; simpl in *; try lia.
  - right. auto.
  - left. exists O. split; [lia | reflexivity].
  - left. exists O. split; [lia | reflexivity].
Qed.

Lemma leadingSilences_after_pruning flags :
  (leadingSilences (skipn (prunedWindows flags) flags) <= 1)%nat.
Proof.
  destruct (leadingSilences flags) as [| k] eqn:Hk.
  - unfold prunedWindows. rewrite Hk. simpl. lia.
  - rewrite leadingSilences_pruned by lia. lia.
Qed.

Lemma planAdd_cuts_loud flags p cuts :
  planAdd gate flags = Some (p, cuts) ->
  loudCuts (skipn p flags) cuts.
Proof.
  unfold planAdd.
  pose proof (leadingSilences_after_pruning flags) as Hlead.
  set (flags2 := skipn (prunedWindows flags) flags) in *.
  destruct (Nat.leb_spec (length flags2) 1) as [Hlen | Hlen];
    [intros [= <- <-]; exact I |].
  destruct (planScan gate (length flags2) flags2 1 0) as [[[i cnt] cuts0] |] eqn:Hscan;
    [| discriminate].
  apply planScan_keeps_loud in Hscan; [| lia | now apply loudBefore_start].
  destruct Hscan as (Hl & Hc & Hexit & Hk).
  destruct (gate cnt) eqn:Hgate; [| intros [= <- <-]; exact Hl].
  destruct (Nat.leb_spec (i - cnt) (length flags2 - list_sum cuts0)) as [Hle | Hle];
    [| discriminate].
  intros [= <- <-]. fold flags2.
  apply loudCuts_app; [exact Hl |].
  simpl. split; [| exact I].
  destruct Hk as [Hk | [-> _]]; [exact Hk | congruence].
Qed.

End LoudCuts.

Section LoudSegments.

Variable AudioLevel : list int32 -> float.

Lemma cuts_hold_loud_windows (ws : Z) thr (cuts : list nat) :
  forall wins : list (list int32),
    Forall (fun w => len w = ws) wins ->
    loudCuts (map (fun w => PrimFloat.ltb (AudioLevel w) thr) wins) cuts ->
    Forall (fun s => exists wins' : list (list int32),
                s = concat wins' /\
                Forall (fun w => len w = ws) wins' /\
                Exists (fun w => PrimFloat.ltb (AudioLevel w) thr = false) wins')
           (map (@concat _) (cutWindows cuts wins)).
Proof.
  induction cuts as [| t cuts IH]; intros wins Hsized Hl; simpl; constructor.
  - destruct Hl as [(j & Hj & Hflag) _].
    exists (firstn t wins). split; [reflexivity |]. split; [now apply Forall_firstn |].
    rewrite nth_error_map in Hflag.
    destruct (nth_error wins j) as [w |] eqn:Hw; [| discriminate].
    simpl in Hflag. injection Hflag as Hflag.
    apply Exists_exists. exists w. split; [| exact Hflag].
    apply (nth_error_In _ j). rewrite nth_error_firstn.
    replace (j <? t)%nat with true by (symmetry; apply Nat.ltb_lt; exact Hj).
    exact Hw.
  - destruct Hl as [_ Hl]. apply IH; [now apply Forall_skipn |].
    now rewrite <- skipn_map.
Qed.

(** Property X10 (no segment is silence only).  With a positive minimum
    duration, every segment that a call emits is whole windows of which
    one at least is not below the threshold of the call. *)
Theorem no_segment_is_only_silence d newSamples sampleRate thr ws d' validSamples :
  audioLevelAnalysisSamplesCount sampleRate (StepDuration (c d)) = Returned ws ->
  1 <= ws ->
  0 < SilenceMinDuration (c d) ->
  lockStep AudioLevel ws d ->
  len (samples d ++ newSamples) < 2 ^ 53 ->
  Add AudioLevel d newSamples sampleRate thr = Returned (d', validSamples) ->
  Forall (fun s => exists wins : list (list int32),
              s = concat wins /\
              Forall (fun w => len w = ws) wins /\
              Exists (fun w => PrimFloat.ltb (AudioLevel w) thr = false) wins)
         validSamples.
Proof.
  intros Hws Hpos Hmin Hls Hmax Hadd.
  pose proof Hls as [Hlen _].
  pose proof (len_nonneg (audioLevels d)) as Hl0.
  assert (Hproc : len (audioLevels d) * ws <= len (samples d ++ newSamples)).
  { rewrite len_app. pose proof (len_nonneg newSamples). lia. }
  assert (Hmul : len (audioLevels d) * ws <= maxInt) by (unfold maxInt; lia).
  destruct (Add_inv AudioLevel _ _ _ _ _ _ _ Hws Hpos Hmul Hmax Hadd)
    as (_ & [(_ & _ & ->) | (_ & p & cuts & Hplan & _ & ->)]); [constructor |].
  rewrite (bufferLevels_lockStep AudioLevel d newSamples ws) in * by assumption.
  rewrite silentFlags_map in Hplan.
  apply (planAdd_cuts_loud _ (gateOf_zero _ Hmin)) in Hplan.
  pose proof (bufferWindows_sized d newSamples ws Hpos Hproc) as Hsized.
  apply cuts_hold_loud_windows.
  - apply Forall_skipn.
    eapply Forall_impl; [| exact Hsized]. unfold len. simpl. intros w Hw. lia.
  - now rewrite <- skipn_map.
Qed.

End LoudSegments.

(** ** The window of the default step *)

Lemma windowSizesAgree_spec (step num den : Z) (n : nat) :
  forall rate0 rate : Z,
    windowSizesAgree step num den n rate0 = true ->
    rate0 <= rate < rate0 + Z.of_nat n ->
    audioLevelAnalysisSamplesCount rate step = Returned (rate * num / den).
Proof.
  induction n as [| n IH]; intros rate0 rate H Hr; [lia |].
  simpl in H. apply andb_true_iff in H. destruct H as [H0 H].
  destruct (Z.eq_dec rate rate0) as [-> | Hne].
  - destruct (audioLevelAnalysisSamplesCount rate0 step) as [w | f]; [| discriminate].
    apply Z.eqb_eq in H0. now subst w.
  - apply (IH (rate0 + 1)); [exact H | lia].
Qed.

(** Property X6 (window of the default step).  With the step left to its
    default of 30ms, the window of every sample rate up to 192000 is three
    hundredths of the rate, rounded down: computing it in [float64] loses
    no sample. *)
Theorem default_step_window_size (cfg : SilenceDetectorConfiguration) (sampleRate : Z) :
  StepDuration cfg = 0 ->
  0 <= sampleRate <= 192000 ->
  audioLevelAnalysisSamplesCount sampleRate (StepDuration (c (NewSilenceDetector cfg)))
  = Returned (sampleRate * 3 / 100).
Proof.
  intros Hstep Hrate.
  assert (Hd : StepDuration (c (NewSilenceDetector cfg)) = 30 * Millisecond).
  { unfold NewSilenceDetector, Reset. simpl.
    destruct (SilenceMinDuration cfg =? 0); simpl; rewrite Hstep; reflexivity. }
  rewrite Hd.
  apply (windowSizesAgree_spec (30 * Millisecond) 3 100 (Z.to_nat 192001) 0).
  - vm_cast_no_check (eq_refl true).
  - lia.
Qed.


(** ** The theorems at concrete inputs *)

Ltac by_evaluation :=
  first [ lia | discriminate | vm_compute; reflexivity | vm_compute; discriminate
        | repeat constructor ].

Lemma lock_step_invariant_witness :
  1 <= 30 /\
  audioLevelAnalysisSamplesCount 1000 (StepDuration (c demoDetector)) = Returned 30 /\
  0 < SilenceMinDuration (c demoDetector) /\
  len (concat (map fst demoCalls)) < 2 ^ 53 /\
  exists trace,
    AddAll peakLevel (Reset demoDetector) 1000 demoCalls = Returned trace /\
    Forall (fun r => lockStep peakLevel 30 (fst r)) trace.
Proof.
  assert (H1 : 1 <= 30) by by_evaluation.
  assert (H2 : audioLevelAnalysisSamplesCount 1000 (StepDuration (c demoDetector))
               = Returned 30) by by_evaluation.
  assert (H3 : 0 < SilenceMinDuration (c demoDetector)) by by_evaluation.
  assert (H4 : len (concat (map fst demoCalls)) < 2 ^ 53) by by_evaluation.
  destruct (lock_step_invariant peakLevel 1000 30 H1 demoDetector demoCalls H2 H4) as [Ha Hb].
  destruct (Hb H3) as [trace Ht].
  repeat split; try assumption. exists trace. split; [exact Ht | exact (Ha trace Ht)].
Defined.

(** Three calls that prune: the first drops a window of a silence of two
    windows, the second emits the window that was kept with a loud one,
    the third drops two windows of the silence that the second split at. *)
Lemma no_data_loss_witness :
  1 <= 30 /\
  audioLevelAnalysisSamplesCount 1000 (StepDuration (c demoDetector)) = Returned 30 /\
  0 < SilenceMinDuration (c demoDetector) /\
  len (concat (map fst pruningCalls)) < 2 ^ 53 /\
  exists trace,
    AddAll peakLevel (Reset demoDetector) 1000 pruningCalls = Returned trace /\
    map snd trace = [[]; [quietWindow ++ loudWindow]; []] /\
    map (fun r => samples (fst r)) trace
    = [concat [quietWindow; loudWindow];
       concat [quietWindow; quietWindow; quietWindow; loudWindow];
       concat [quietWindow; loudWindow; loudWindow]] /\
    accountedCalls peakLevel 30 (Reset demoDetector) pruningCalls trace /\
    concat (map fst pruningCalls)
    = prunedAndEmitted peakLevel 30 (Reset demoDetector) pruningCalls trace
      ++ samples (lastDetector (Reset demoDetector) trace) /\
    accounted peakLevel 30 (concat (map fst pruningCalls))
              (combine (map snd pruningCalls) (map snd trace))
              (samples (lastDetector (Reset demoDetector) trace)).
Proof.
  assert (H1 : 1 <= 30) by lia.
  assert (H2 : audioLevelAnalysisSamplesCount 1000 (StepDuration (c demoDetector))
               = Returned 30) by (vm_compute; reflexivity).
  assert (H3 : 0 < SilenceMinDuration (c demoDetector)) by (vm_compute; reflexivity).
  assert (H4 : len (concat (map fst pruningCalls)) < 2 ^ 53) by (vm_compute; reflexivity).
  destruct (no_data_loss peakLevel 1000 30 H1 demoDetector pruningCalls H2 H4) as [Ha Hb].
  assert (H : { trace | AddAll peakLevel (Reset demoDetector) 1000 pruningCalls
                        = Returned trace
                        /\ map snd trace = [[]; [quietWindow ++ loudWindow]; []]
                        /\ map (fun r => samples (fst r)) trace
                           = [concat [quietWindow; loudWindow];
                              concat [quietWindow; quietWindow; quietWindow; loudWindow];
                              concat [quietWindow; loudWindow; loudWindow]] }).
  { eexists. split; [vm_compute; reflexivity | split; vm_compute; reflexivity]. }
  destruct H as [trace (Ht & Hs & Hr)].
  repeat split; try assumption. exists trace.
  split; [exact Ht |]. split; [exact Hs |]. split; [exact Hr |].
  exact (Ha trace Ht).
Defined.

Lemma scenario_one_segment_witness :
  Forall (fun w => len w = 30)
         [loudWindow; loudWindow; quietWindow; quietWindow; quietWindow;
          loudWindow; loudWindow; loudWindow; loudWindow; loudWindow] /\
  map (fun w => PrimFloat.ltb (peakLevel w) demoThreshold)
      [loudWindow; loudWindow; quietWindow; quietWindow; quietWindow;
       loudWindow; loudWindow; loudWindow; loudWindow; loudWindow]
  = [false; false; true; true; true; false; false; false; false; false] /\
  Add peakLevel (NewSilenceDetector cfg30_90)
      (concat [loudWindow; loudWindow; quietWindow; quietWindow; quietWindow;
               loudWindow; loudWindow; loudWindow; loudWindow; loudWindow])
      1000 demoThreshold
  = Returned ({| audioLevels :=
                   map peakLevel [quietWindow; quietWindow; quietWindow;
                                  loudWindow; loudWindow; loudWindow; loudWindow; loudWindow];
                 c := cfg30_90;
                 samples :=
                   concat [quietWindow; quietWindow; quietWindow;
                           loudWindow; loudWindow; loudWindow; loudWindow; loudWindow] |},
              [loudWindow ++ loudWindow]).
Proof.
  assert (H1 : Forall (fun w => len w = 30)
                 [loudWindow; loudWindow; quietWindow; quietWindow; quietWindow;
                  loudWindow; loudWindow; loudWindow; loudWindow; loudWindow])
    by (repeat constructor).
  assert (H2 : map (fun w => PrimFloat.ltb (peakLevel w) demoThreshold)
                 [loudWindow; loudWindow; quietWindow; quietWindow; quietWindow;
                  loudWindow; loudWindow; loudWindow; loudWindow; loudWindow]
               = [false; false; true; true; true; false; false; false; false; false])
    by (vm_compute; reflexivity).
  split; [exact H1 |]. split; [exact H2 |].
  exact (proj1 (proj2 (scenario_one_segment peakLevel demoThreshold _ _ _ _ _ _ _ _ _ _ H1 H2))).
Defined.

Lemma scenario_second_run_missed_witness :
  Forall (fun w => len w = 30)
         [loudWindow; quietWindow; quietWindow; quietWindow; loudWindow;
          quietWindow; quietWindow; quietWindow; loudWindow] /\
  map (fun w => PrimFloat.ltb (peakLevel w) demoThreshold)
      [loudWindow; quietWindow; quietWindow; quietWindow; loudWindow;
       quietWindow; quietWindow; quietWindow; loudWindow]
  = [false; true; true; true; false; true; true; true; false] /\
  Add peakLevel (NewSilenceDetector cfg30_90)
      (concat [loudWindow; quietWindow; quietWindow; quietWindow; loudWindow;
               quietWindow; quietWindow; quietWindow; loudWindow])
      1000 demoThreshold
  = Returned ({| audioLevels :=
                   map peakLevel [quietWindow; quietWindow; quietWindow; loudWindow;
                                  quietWindow; quietWindow; quietWindow; loudWindow];
                 c := cfg30_90;
                 samples :=
                   concat [quietWindow; quietWindow; quietWindow; loudWindow;
                           quietWindow; quietWindow; quietWindow; loudWindow] |},
              [loudWindow]).
Proof.
  assert (H1 : Forall (fun w => len w = 30)
                 [loudWindow; quietWindow; quietWindow; quietWindow; loudWindow;
                  quietWindow; quietWindow; quietWindow; loudWindow])
    by (repeat constructor).
  assert (H2 : map (fun w => PrimFloat.ltb (peakLevel w) demoThreshold)
                 [loudWindow; quietWindow; quietWindow; quietWindow; loudWindow;
                  quietWindow; quietWindow; quietWindow; loudWindow]
               = [false; true; true; true; false; true; true; true; false])
    by (vm_compute; reflexivity).
  split; [exact H1 |]. split; [exact H2 |].
  exact (scenario_second_run_missed peakLevel demoThreshold _ _ _ _ _ _ _ _ _ H1 H2).
Defined.

Lemma leading_silences_pruned_witness :
  let chunk := concat [quietWindow; quietWindow; quietWindow; quietWindow; quietWindow;
                       loudWindow] in
  let levels := map peakLevel [quietWindow; quietWindow; quietWindow; quietWindow;
                               quietWindow; loudWindow] in
  audioLevelAnalysisSamplesCount 1000 (StepDuration (c demoDetector)) = Returned 30 /\
  computedLevels peakLevel demoDetector chunk 30 = Returned levels /\
  countSilencesAtStart levels demoThreshold = 5 /\
  exists d' validSamples,
    Add peakLevel demoDetector chunk 1000 demoThreshold = Returned (d', validSamples) /\
    exists m : nat,
      samples demoDetector ++ chunk
      = firstn (Z.to_nat ((5 - 1) * 30)) (samples demoDetector ++ chunk)
        ++ concat validSamples ++ samples d' /\
      len (concat validSamples) = Z.of_nat m * 30 /\
      audioLevels d' = skipn (Z.to_nat (5 - 1) + m) levels /\
      countSilencesAtStart (skipn (Z.to_nat (5 - 1)) levels) demoThreshold = 1.
Proof.
  intros chunk levels.
  assert (H1 : audioLevelAnalysisSamplesCount 1000 (StepDuration (c demoDetector))
               = Returned 30) by by_evaluation.
  assert (H2 : computedLevels peakLevel demoDetector chunk 30 = Returned levels)
    by (vm_compute; reflexivity).
  assert (H3 : countSilencesAtStart levels demoThreshold = 5) by (vm_compute; reflexivity).
  destruct (leading_silences_pruned peakLevel demoDetector chunk 1000 demoThreshold 30 levels
              H1 ltac:(lia) ltac:(vm_compute; reflexivity) ltac:(vm_compute; discriminate)
              H2 ltac:(vm_compute; discriminate)) as [Ha Hb].
  destruct (Hb ltac:(vm_compute; reflexivity)) as [[d' vs] Hr].
  repeat split; try assumption. exists d', vs. split; [exact Hr |].
  rewrite H3 in Ha. exact (Ha d' vs Hr).
Defined.

(** Two calls: the run of silences is confirmed when the second call ends
    it at the end of the buffer. *)
Lemma minimum_duration_gate_witness :
  let d := {| audioLevels := map peakLevel [loudWindow; quietWindow];
              c := cfg30_90;
              samples := concat [loudWindow; quietWindow] ++ [7; 7] |} in
  let chunk := skipn 2 quietWindow ++ quietWindow ++ [7; 7] in
  audioLevelAnalysisSamplesCount 1000 (StepDuration (c d)) = Returned 30 /\
  0 < SilenceMinDuration (c d) /\
  Add peakLevel demoDetector (concat [loudWindow; quietWindow] ++ [7; 7]) 1000 demoThreshold
  = Returned (d, []) /\
  samples d ++ chunk
  = concat ([loudWindow] ++ [quietWindow; [7; 7] ++ skipn 2 quietWindow; quietWindow] ++ [])
    ++ [7; 7] /\
  minInt <= len [quietWindow; [7; 7] ++ skipn 2 quietWindow; quietWindow]
            * StepDuration (c d) <= maxInt /\
  Add peakLevel d chunk 1000 demoThreshold
  = Returned ({| audioLevels :=
                   map peakLevel
                       ([quietWindow; [7; 7] ++ skipn 2 quietWindow; quietWindow] ++ []);
                 c := c d;
                 samples :=
                   concat ([quietWindow; [7; 7] ++ skipn 2 quietWindow; quietWindow] ++ [])
                   ++ [7; 7] |},
              [concat [loudWindow]]).
Proof.
  intros d chunk.
  assert (H1 : audioLevelAnalysisSamplesCount 1000 (StepDuration (c d)) = Returned 30)
    by (vm_compute; reflexivity).
  assert (H2 : 0 < SilenceMinDuration (c d)) by (vm_compute; reflexivity).
  assert (H3 : samples d ++ chunk
               = concat ([loudWindow]
                         ++ [quietWindow; [7; 7] ++ skipn 2 quietWindow; quietWindow] ++ [])
                 ++ [7; 7]) by (vm_compute; reflexivity).
  assert (H4 : minInt <= len [quietWindow; [7; 7] ++ skipn 2 quietWindow; quietWindow]
                         * StepDuration (c d) <= maxInt)
    by (split; vm_compute; discriminate).
  split; [exact H1 |]. split; [exact H2 |]. split; [vm_compute; reflexivity |].
  split; [exact H3 |]. split; [exact H4 |].
  exact (minimum_duration_gate peakLevel d chunk 1000 30 demoThreshold
           [loudWindow] [quietWindow; [7; 7] ++ skipn 2 quietWindow; quietWindow] [] [7; 7]
           H1 ltac:(lia) H2
           (paired_lockStep peakLevel 30 cfg30_90 [loudWindow; quietWindow] [7; 7]
              ltac:(repeat constructor))
           H3 ltac:(simpl; lia) ltac:(discriminate) ltac:(discriminate)
           ltac:(repeat constructor) ltac:(repeat constructor) ltac:(repeat constructor)
           ltac:(repeat constructor) ltac:(vm_compute; reflexivity)
           ltac:(vm_compute; reflexivity) H4).
Defined.

Lemma second_run_at_the_minimum_is_not_split_witness :
  Forall (fun w => len w = 30)
         [loudWindow; loudWindow; quietWindow; quietWindow; quietWindow; loudWindow;
          loudWindow; quietWindow; quietWindow; quietWindow; loudWindow] /\
  map (fun w => PrimFloat.ltb (peakLevel w) demoThreshold)
      [loudWindow; loudWindow; quietWindow; quietWindow; quietWindow; loudWindow;
       loudWindow; quietWindow; quietWindow; quietWindow; loudWindow]
  = [false; false; true; true; true; false; false; true; true; true; false] /\
  tooManySilences cfg30_90 3 = true /\
  Add peakLevel (NewSilenceDetector cfg30_90)
      (concat [loudWindow; loudWindow; quietWindow; quietWindow; quietWindow; loudWindow;
               loudWindow; quietWindow; quietWindow; quietWindow; loudWindow])
      1000 demoThreshold
  = Returned ({| audioLevels :=
                   map peakLevel [quietWindow; quietWindow; quietWindow; loudWindow;
                                  loudWindow; quietWindow; quietWindow; quietWindow;
                                  loudWindow];
                 c := cfg30_90;
                 samples :=
                   concat [quietWindow; quietWindow; quietWindow; loudWindow;
                           loudWindow; quietWindow; quietWindow; quietWindow;
                           loudWindow] |},
              [loudWindow ++ loudWindow]).
Proof.
  assert (H1 : Forall (fun w => len w = 30)
                 [loudWindow; loudWindow; quietWindow; quietWindow; quietWindow; loudWindow;
                  loudWindow; quietWindow; quietWindow; quietWindow; loudWindow])
    by (repeat constructor).
  assert (H2 : map (fun w => PrimFloat.ltb (peakLevel w) demoThreshold)
                 [loudWindow; loudWindow; quietWindow; quietWindow; quietWindow; loudWindow;
                  loudWindow; quietWindow; quietWindow; quietWindow; loudWindow]
               = [false; false; true; true; true; false; false; true; true; true; false])
    by (vm_compute; reflexivity).
  split; [exact H1 |]. split; [exact H2 |].
  exact (second_run_at_the_minimum_is_not_split peakLevel demoThreshold
           loudWindow loudWindow quietWindow quietWindow quietWindow loudWindow
           loudWindow quietWindow quietWindow quietWindow loudWindow H1 H2).
Defined.

Lemma insufficient_data_keeps_state_witness :
  audioLevelAnalysisSamplesCount 1000 (StepDuration (c loudDetector)) = Returned 30 /\
  len (samples loudDetector ++ [1; 2; 3]) - len (audioLevels loudDetector) * 30 < 30 /\
  Add peakLevel loudDetector [1; 2; 3] 1000 demoThreshold =
  Returned ({| audioLevels := audioLevels loudDetector; c := c loudDetector;
               samples := samples loudDetector ++ [1; 2; 3] |}, []).
Proof.
  assert (H1 : audioLevelAnalysisSamplesCount 1000 (StepDuration (c loudDetector))
               = Returned 30) by by_evaluation.
  assert (H2 : len (samples loudDetector ++ [1; 2; 3]) - len (audioLevels loudDetector) * 30
               < 30) by (vm_compute; reflexivity).
  split; [exact H1 |]. split; [exact H2 |].
  exact (insufficient_data_keeps_state peakLevel loudDetector [1; 2; 3] 1000 demoThreshold 30
           H1 ltac:(lia) ltac:(vm_compute; discriminate) ltac:(vm_compute; discriminate) H2).
Defined.

Lemma no_reclassification_without_new_window_witness :
  audioLevelAnalysisSamplesCount 1000 (StepDuration (c loudDetector)) = Returned 30 /\
  Go.sub (len (samples loudDetector ++ [])) (Go.mul (len (audioLevels loudDetector)) 30) < 30 /\
  countSilencesAtStart (audioLevels loudDetector) (float64 2000) = 3 /\
  Add peakLevel loudDetector [] 1000 (float64 2000) =
  Returned ({| audioLevels := audioLevels loudDetector; c := c loudDetector;
               samples := samples loudDetector ++ [] |}, []).
Proof.
  assert (H1 : audioLevelAnalysisSamplesCount 1000 (StepDuration (c loudDetector))
               = Returned 30) by by_evaluation.
  assert (H2 : Go.sub (len (samples loudDetector ++ []))
                      (Go.mul (len (audioLevels loudDetector)) 30) < 30)
    by (vm_compute; reflexivity).
  split; [exact H1 |]. split; [exact H2 |]. split; [vm_compute; reflexivity |].
  exact (no_reclassification_without_new_window peakLevel loudDetector [] 1000 30
           H1 ltac:(vm_compute; discriminate) H2 (float64 2000)).
Defined.

Lemma segments_are_whole_windows_witness :
  let chunk := concat [loudWindow; loudWindow; quietWindow; quietWindow; quietWindow;
                       loudWindow] in
  audioLevelAnalysisSamplesCount 1000 (StepDuration (c demoDetector)) = Returned 30 /\
  len (audioLevels demoDetector) * 30 <= maxInt /\
  exists d' validSamples,
    Add peakLevel demoDetector chunk 1000 demoThreshold = Returned (d', validSamples) /\
    validSamples <> [] /\
    Forall (fun s => exists m : Z, 1 <= m /\ len s = m * 30) validSamples.
Proof.
  intros chunk.
  assert (H1 : audioLevelAnalysisSamplesCount 1000 (StepDuration (c demoDetector))
               = Returned 30) by by_evaluation.
  assert (H2 : len (audioLevels demoDetector) * 30 <= maxInt) by (vm_compute; discriminate).
  destruct (segments_are_whole_windows peakLevel demoDetector chunk 1000 demoThreshold 30
              H1 ltac:(lia) H2 ltac:(vm_compute; reflexivity)) as [Ha Hb].
  split; [exact H1 |]. split; [exact H2 |].
  exists {| audioLevels := map peakLevel [quietWindow; quietWindow; quietWindow; loudWindow];
            c := cfg30_90;
            samples := concat [quietWindow; quietWindow; quietWindow; loudWindow] |},
         [loudWindow ++ loudWindow].
  assert (Hr : Add peakLevel demoDetector chunk 1000 demoThreshold
               = Returned ({| audioLevels :=
                                map peakLevel [quietWindow; quietWindow; quietWindow; loudWindow];
                              c := cfg30_90;
                              samples :=
                                concat [quietWindow; quietWindow; quietWindow; loudWindow] |},
                           [loudWindow ++ loudWindow]))
    by (vm_compute; reflexivity).
  split; [exact Hr |]. split; [discriminate |]. exact (Ha _ _ Hr).
Defined.

Lemma negative_window_size_is_not_rejected_witness :
  audioLevelAnalysisSamplesCount (-1000) (StepDuration (c demoDetector)) = Returned (-30) /\
  audioLevels demoDetector = [] /\
  Add peakLevel demoDetector (loudWindow ++ loudWindow) (-1000) demoThreshold =
  Returned ({| audioLevels := []; c := c demoDetector;
               samples := samples demoDetector ++ loudWindow ++ loudWindow |}, []).
Proof.
  assert (H1 : audioLevelAnalysisSamplesCount (-1000) (StepDuration (c demoDetector))
               = Returned (-30)) by by_evaluation.
  split; [exact H1 |]. split; [reflexivity |].
  exact (negative_window_size_is_not_rejected peakLevel demoDetector (loudWindow ++ loudWindow)
           (-1000) demoThreshold (-30) H1 ltac:(lia) eq_refl ltac:(vm_compute; reflexivity)).
Defined.

(** Claim C7, as stated, fails: with 1000 samples a second and steps of
    -30ms the window is -30 samples, and [Add] on a new detector returns
    normally; no condition is raised. *)
Lemma nonpositive_window_size_returns :
  audioLevelAnalysisSamplesCount 1000 (- (30 * Millisecond)) = Returned (-30) /\
  -30 <= 0 /\
  Add peakLevel
      (NewSilenceDetector {| SilenceMinDuration := Second;
                             StepDuration := - (30 * Millisecond) |})
      [1; 2; 3] 1000 demoThreshold =
  Returned ({| audioLevels := [];
               c := {| SilenceMinDuration := Second;
                       StepDuration := - (30 * Millisecond) |};
               samples := [1; 2; 3] |}, []).
Proof. repeat split; by_evaluation. Qed.

(** Claim C3 as it is stated does not hold: two silent windows (60ms) are
    less than the minimum silence of 90ms, and yet the first of them is
    dropped; nothing is emitted and the buffer keeps the second silent
    window and the loud one, 60 of the 90 samples fed. *)
Lemma short_leading_silence_is_dropped :
  map (fun w => PrimFloat.ltb (peakLevel w) demoThreshold)
      [quietWindow; quietWindow; loudWindow] = [true; true; false] /\
  tooManySilences cfg30_90 2 = false /\
  Add peakLevel (NewSilenceDetector cfg30_90)
      (concat [quietWindow; quietWindow; loudWindow]) 1000 demoThreshold =
  Returned ({| audioLevels := map peakLevel [quietWindow; loudWindow];
               c := cfg30_90;
               samples := concat [quietWindow; loudWindow] |}, []) /\
  concat (@nil (list int32)) ++ concat [quietWindow; loudWindow]
  <> concat [quietWindow; quietWindow; loudWindow].
Proof.
  repeat split; try (vm_compute; reflexivity).
  intros H. apply (f_equal (@length _)) in H. vm_compute in H. discriminate.
Qed.

(** ** The further properties at concrete inputs *)

Lemma configuration_is_kept_witness :
  exists trace,
    AddAll peakLevel demoDetector 1000 demoCalls = Returned trace /\
    Forall (fun r => c (fst r) = c demoDetector) trace /\
    Reset (lastDetector demoDetector trace) = Reset demoDetector.
Proof.
  assert (H : { trace | AddAll peakLevel demoDetector 1000 demoCalls = Returned trace }).
  { eexists. vm_compute. reflexivity. }
  destruct H as [trace H]. exists trace. split; [exact H |].
  exact (configuration_is_kept peakLevel demoDetector 1000 demoCalls trace H).
Defined.

Lemma segments_and_buffer_in_order_witness :
  exists d' validSamples,
    Add peakLevel loudDetector (concat [quietWindow; quietWindow; quietWindow; loudWindow])
        1000 demoThreshold = Returned (d', validSamples) /\
    validSamples <> [] /\
    exists dropped : list int32,
      samples loudDetector ++ concat [quietWindow; quietWindow; quietWindow; loudWindow]
      = dropped ++ concat validSamples ++ samples d'.
Proof.
  assert (H : { r | Add peakLevel loudDetector
                        (concat [quietWindow; quietWindow; quietWindow; loudWindow])
                        1000 demoThreshold = Returned r /\ snd r <> [] }).
  { eexists. split; [vm_compute; reflexivity | discriminate]. }
  destruct H as [[d' vs] [H Hne]]. exists d', vs.
  split; [exact H |]. split; [exact Hne |].
  exact (segments_and_buffer_in_order peakLevel loudDetector _ 1000 demoThreshold d' vs H).
Defined.

Lemma zero_window_size_divides_by_zero_witness :
  audioLevelAnalysisSamplesCount 33 (StepDuration (c demoDetector)) = Returned 0 /\
  len (samples demoDetector ++ [1; 2; 3]) < 2 ^ 53 /\
  Prim2SF (PrimFloat.div (float64 (len (samples demoDetector ++ [1; 2; 3]))) (float64 0))
  = S754_infinity false /\
  Add peakLevel demoDetector [1; 2; 3] 33 demoThreshold = Stopped ImplDefined.
Proof.
  assert (H1 : audioLevelAnalysisSamplesCount 33 (StepDuration (c demoDetector))
               = Returned 0) by (vm_compute; reflexivity).
  assert (H2 : len (samples demoDetector ++ [1; 2; 3]) < 2 ^ 53) by (vm_compute; reflexivity).
  split; [exact H1 |]. split; [exact H2 |].
  exact (zero_window_size_divides_by_zero peakLevel demoDetector [1; 2; 3] 33 demoThreshold
           H1 H2).
Defined.

Lemma loop_bound_is_the_integer_quotient_witness :
  floorQuot 302 30 = Returned 10.
Proof.
  exact (loop_bound_is_the_integer_quotient 302 30 ltac:(lia) ltac:(lia)).
Defined.

Lemma default_step_window_size_witness :
  audioLevelAnalysisSamplesCount 44100
    (StepDuration (c (NewSilenceDetector {| SilenceMinDuration := 0; StepDuration := 0 |})))
  = Returned 1323.
Proof.
  exact (default_step_window_size {| SilenceMinDuration := 0; StepDuration := 0 |} 44100
           eq_refl ltac:(lia)).
Defined.

Lemma loud_audio_is_buffered_witness :
  Add peakLevel loudDetector (loudWindow ++ [5; 5]) 1000 demoThreshold =
  Returned ({| audioLevels := map peakLevel [loudWindow; loudWindow; loudWindow; loudWindow];
               c := c loudDetector;
               samples := samples loudDetector ++ loudWindow ++ [5; 5] |}, []).
Proof.
  exact (loud_audio_is_buffered peakLevel loudDetector (loudWindow ++ [5; 5]) 1000
           demoThreshold 30 [loudWindow; loudWindow; loudWindow; loudWindow] [5; 5]
           ltac:(vm_compute; reflexivity) ltac:(lia) ltac:(vm_compute; reflexivity)
           (paired_lockStep peakLevel 30 cfg30_90 [loudWindow; loudWindow; loudWindow] []
              ltac:(repeat constructor))
           ltac:(vm_compute; reflexivity) ltac:(repeat constructor)
           ltac:(vm_compute; reflexivity) ltac:(simpl; lia) ltac:(vm_compute; reflexivity)
           ltac:(repeat constructor)).
Defined.

Lemma silence_keeps_one_window_witness :
  Add peakLevel demoDetector (concat [quietWindow; quietWindow; quietWindow] ++ [0; 0]) 1000
      demoThreshold =
  Returned ({| audioLevels := [peakLevel quietWindow]; c := c demoDetector;
               samples := quietWindow ++ [0; 0] |}, []).
Proof.
  exact (silence_keeps_one_window peakLevel demoDetector
           (concat [quietWindow; quietWindow; quietWindow] ++ [0; 0]) 1000 demoThreshold 30
           [quietWindow; quietWindow] quietWindow [0; 0]
           ltac:(vm_compute; reflexivity) ltac:(lia)
           (lockStep_New peakLevel 30 cfg30_90)
           ltac:(vm_compute; reflexivity) ltac:(repeat constructor)
           ltac:(vm_compute; reflexivity) ltac:(simpl; lia) ltac:(vm_compute; reflexivity)
           ltac:(repeat constructor)).
Defined.

Lemma every_split_is_at_a_silence_witness :
  let chunk := concat [quietWindow; quietWindow; quietWindow; loudWindow] in
  audioLevelAnalysisSamplesCount 1000 (StepDuration (c loudDetector)) = Returned 30 /\
  lockStep peakLevel 30 loudDetector /\
  exists d' validSamples,
    Add peakLevel loudDetector chunk 1000 demoThreshold = Returned (d', validSamples) /\
    validSamples <> [] /\
    splitsAtSilences peakLevel 30 (c loudDetector) demoThreshold validSamples (samples d').
Proof.
  intros chunk.
  assert (H1 : audioLevelAnalysisSamplesCount 1000 (StepDuration (c loudDetector))
               = Returned 30) by (vm_compute; reflexivity).
  assert (H2 : len (samples loudDetector ++ chunk) < 2 ^ 53) by (vm_compute; reflexivity).
  assert (H3 : lockStep peakLevel 30 loudDetector)
    by exact (paired_lockStep peakLevel 30 cfg30_90 [loudWindow; loudWindow; loudWindow] []
                ltac:(repeat constructor)).
  assert (H : { r | Add peakLevel loudDetector chunk 1000 demoThreshold = Returned r
                    /\ snd r <> [] }).
  { eexists. split; [vm_compute; reflexivity | discriminate]. }
  destruct H as [[d' vs] [H Hne]].
  split; [exact H1 |]. split; [exact H3 |]. exists d', vs.
  split; [exact H |]. split; [exact Hne |].
  exact (every_split_is_at_a_silence peakLevel loudDetector chunk 1000 demoThreshold
           30 d' vs H1 ltac:(lia) H3 H2 H).
Defined.

Lemma no_segment_is_only_silence_witness :
  let chunk := concat [quietWindow; quietWindow; quietWindow; loudWindow] in
  audioLevelAnalysisSamplesCount 1000 (StepDuration (c loudDetector)) = Returned 30 /\
  0 < SilenceMinDuration (c loudDetector) /\
  lockStep peakLevel 30 loudDetector /\
  exists d' validSamples,
    Add peakLevel loudDetector chunk 1000 demoThreshold = Returned (d', validSamples) /\
    validSamples <> [] /\
    Forall (fun s => exists wins : list (list int32),
                s = concat wins /\
                Forall (fun w => len w = 30) wins /\
                Exists (fun w => PrimFloat.ltb (peakLevel w) demoThreshold = false) wins)
           validSamples.
Proof.
  intros chunk.
  assert (H1 : audioLevelAnalysisSamplesCount 1000 (StepDuration (c loudDetector))
               = Returned 30) by (vm_compute; reflexivity).
  assert (H2 : len (samples loudDetector ++ chunk) < 2 ^ 53) by (vm_compute; reflexivity).
  assert (H3 : lockStep peakLevel 30 loudDetector)
    by exact (paired_lockStep peakLevel 30 cfg30_90 [loudWindow; loudWindow; loudWindow] []
                ltac:(repeat constructor)).
  assert (H4 : 0 < SilenceMinDuration (c loudDetector)) by (vm_compute; reflexivity).
  assert (H : { r | Add peakLevel loudDetector chunk 1000 demoThreshold = Returned r
                    /\ snd r <> [] }).
  { eexists. split; [vm_compute; reflexivity | discriminate]. }
  destruct H as [[d' vs] [H Hne]].
  split; [exact H1 |]. split; [exact H4 |]. split; [exact H3 |]. exists d', vs.
  split; [exact H |]. split; [exact Hne |].
  exact (no_segment_is_only_silence peakLevel loudDetector chunk 1000 demoThreshold
           30 d' vs H1 ltac:(lia) H4 H3 H2 H).
Defined.

Lemma empty_chunk_changes_nothing_witness :
  let chunk := concat [quietWindow; quietWindow; quietWindow; loudWindow] ++ [9; 9] in
  audioLevelAnalysisSamplesCount 1000 (StepDuration (c loudDetector)) = Returned 30 /\
  lockStep peakLevel 30 loudDetector /\
  exists d' validSamples,
    Add peakLevel loudDetector chunk 1000 demoThreshold = Returned (d', validSamples) /\
    validSamples <> [] /\ samples d' <> [] /\
    Add peakLevel d' [] 1000 (float64 5000) = Returned (d', []).
Proof.
  intros chunk.
  assert (H1 : audioLevelAnalysisSamplesCount 1000 (StepDuration (c loudDetector))
               = Returned 30) by (vm_compute; reflexivity).
  assert (H2 : len (samples loudDetector ++ chunk) < 2 ^ 53) by (vm_compute; reflexivity).
  assert (H3 : lockStep peakLevel 30 loudDetector)
    by exact (paired_lockStep peakLevel 30 cfg30_90 [loudWindow; loudWindow; loudWindow] []
                ltac:(repeat constructor)).
  assert (H : { r | Add peakLevel loudDetector chunk 1000 demoThreshold = Returned r
                    /\ snd r <> [] /\ samples (fst r) <> [] }).
  { eexists. split; [vm_compute; reflexivity | split; discriminate]. }
  destruct H as [[d' vs] (H & Hne & Hs)].
  split; [exact H1 |]. split; [exact H3 |]. exists d', vs.
  split; [exact H |]. split; [exact Hne |]. split; [exact Hs |].
  exact (empty_chunk_changes_nothing peakLevel loudDetector chunk 1000 demoThreshold
           (float64 5000) 30 d' vs H1 ltac:(lia) H3 H2 H).
Defined.

Lemma negative_minimum_slices_out_of_range_witness :
  let d := NewSilenceDetector {| SilenceMinDuration := -1; StepDuration := 0 |} in
  let chunk := loudWindow ++ loudWindow ++ [7] in
  audioLevelAnalysisSamplesCount 1000 (StepDuration (c d)) = Returned 30 /\
  SilenceMinDuration (c d) = -1 /\
  PrimFloat.ltb (peakLevel loudWindow) demoThreshold = false /\
  exists f,
    Add peakLevel d chunk 1000 demoThreshold = Stopped f /\
    (f = SliceBounds \/ f = BeyondLen).
Proof.
  intros d chunk.
  assert (H1 : audioLevelAnalysisSamplesCount 1000 (StepDuration (c d)) = Returned 30)
    by (vm_compute; reflexivity).
  assert (H2 : SilenceMinDuration (c d) = -1) by reflexivity.
  assert (H3 : PrimFloat.ltb (peakLevel loudWindow) demoThreshold = false)
    by (vm_compute; reflexivity).
  assert (H4 : samples d ++ chunk = loudWindow ++ loudWindow ++ [7]) by reflexivity.
  assert (H5 : len loudWindow = 30) by reflexivity.
  assert (H6 : len (samples d ++ chunk) < 2 ^ 53) by (vm_compute; reflexivity).
  split; [exact H1 |]. split; [exact H2 |]. split; [exact H3 |].
  exact (negative_minimum_slices_out_of_range peakLevel d chunk 1000 demoThreshold 30
           loudWindow loudWindow [7]
           H1 ltac:(lia) ltac:(rewrite H2; lia)
           (lockStep_New peakLevel 30 {| SilenceMinDuration := -1; StepDuration := 0 |})
           H4 H5 H5 ltac:(vm_compute; reflexivity) ltac:(simpl; lia) H6 H3 H3).
Defined.
